(* ===== verification/_CoqProject ===== *)
-Q . S2P
Prelude.v
Cell.v
Color.v
Emoji.v
DateParse.v
Sheet.v
Converter.v
Json.v
Utf8.v
Intermediate.v
Remote.v
Store.v
Loader.v
CommitmentsOnly.v
Pipeline.v
