(* ===== verification/Prelude.v ===== *)
(** * A verification library for the TPM scoreboards import scripts

    The repository is a two-stage batch pipeline, written in Python:

    - the extractor [src/excel_to_json_converter.py] walks every sheet of an
      openpyxl workbook, infers attendance from the fill colour of the date
      cell and commitment fulfilment from a leading glyph, parses dates with
      [datetime.strptime], and builds a nested, insertion-ordered dict
      [{sheet: {date: {"attendance": .., "commitments": [..]}}}] that is
      dumped as JSON;
    - the loader [src/import_scoreboards_to_supabase.py] reads that
      document and, through the hosted store's REST interface, creates
      users, one pod, one meeting per distinct date, the commitment rows and
      the attendance rows, in this order, each step using the maps built by
      the earlier ones; [src/import_commitments_only.py] is a second loader
      that rebuilds the user map from the store and re-imports commitments.

    The stages only share the intermediate document, a UTF-8 JSON file.

    ** Files, in dependency order

    - [Prelude] (this file): Python strings as lists of Unicode code points
      ([list N]), with [str.strip], [str.split], [str.split(sep)],
      [str.startswith], the [in] operator, ASCII case mapping, the regex
      classes [\s] and [\d] of CPython 3.11 (Unicode 14.0 tables), zero-padded
      decimal printing, and Python's insertion-ordered [dict] as an
      association list with in-place update.  Notation scope [py_scope],
      hint database [pystr].
    - [Cell]: the openpyxl cell as the extractor reads it: its value
      (None, str, int, bool, date, datetime) and its fill.
    - [Color]: [detect_attendance_from_color] (fill record, green and red
      code lists, substring matching in the order of the code).
    - [Emoji]: [detect_fulfillment_from_emoji], [clean_commitment_text] with
      the regex [^[...]\s*] read as the character class it is, and
      [parse_commitments_column].
    - [DateParse]: a backtracking matcher for the regexes that
      [_strptime] compiles from the four formats of [parse_date_cell], the
      calendar check of [datetime.date], [strftime('%Y-%m-%d')], and
      [parse_date_cell] on the openpyxl cell values (None, str, int, bool,
      date, datetime).
    - [Sheet]: a worksheet as [max_row], [max_column] and a cell function;
      [find_data_start_row] and [find_date_and_commitment_columns].
    - [Converter]: [convert_excel_to_json] over a workbook (list of named
      sheets), producing the intermediate document.
    - [Json]: CPython's [json] module as the scripts call it: the values
      (null, booleans, integers, floats as their literal, strings, lists,
      dicts as association lists), [json.dump] with [indent=2] and
      [ensure_ascii=False] both as one string ([dump]) and as the chunks
      the pure-Python generator writes ([iterencode]), and [json.load]'s
      scanner ([value], [elements], [members], [scanstring] with escapes
      and surrogate pairs, numbers, constants, the BOM and Extra data
      checks).  The decoder's three mutually recursive functions take fuel.
    - [Utf8]: CPython's strict UTF-8 codec ([encode], [decode]), the
      Latin-1 codec, the writes of a text file that stop at an encoding
      error ([write_chunks]), and universal newlines.
    - [Intermediate]: the document as the JSON value the extractor dumps,
      the loaders' view of a JSON value ([.items()], [.get] with its
      defaults, indexing), the bytes the extractor writes
      ([write_document]) and what a loader reads from them in a given
      locale ([read_document]: the value, or the exception raised).
    - [Remote]: what the loaders see of the world.  JSON values and rows,
      the requests a run issues, the store interface [Env] (a type class:
      POST answers a status, GET with equality filters and a column
      selection answers a status and rows, a clock), its law [IdLaw], and
      the loader monad [M]: state passing over the store's world plus a
      trace of requests, Python exceptions as an error value that keeps
      the effects already done.  [wp] is a weakest-precondition judgement
      on the appended trace, with laws for each primitive, loops
      ([mfor], [mfold]) and the tactic [wp_run]; [emits] is the special
      case of a computation whose requests do not depend on the answers.
    - [Store]: an in-memory instance of [Env]: rows with generated ids,
      the three table definitions that [create_tables] prints (columns,
      NOT NULL without default, UNIQUE, foreign keys) checked on insert,
      GET filtering and projection, and tables that can be out of service.
      The server is not code of the repository and is modelled from the
      spec's section 6.
    - [Loader]: [src/import_scoreboards_to_supabase.py]: [parse_name], the
      email, [create_users], [create_default_pod], [create_pod_meetings]
      (the set of dates sorted in Python's string order),
      [import_commitments], [import_attendance] and [main] with its [try].
    - [CommitmentsOnly]: [src/import_commitments_only.py]:
      [get_user_mapping] (names rebuilt from the stored first and last
      names), the filtered re-import with its counters, and [main].
    - [Pipeline]: the extractor's [main] (lines 231-268: the missing
      input, a workbook that cannot be loaded, the written file, a dump
      that fails half way, and the printed counts) over a map from
      absolute paths to bytes, the file the loader opens (a path relative
      to its working directory), and the scripts run one after the
      other (the extractor and the loader; the extractor, the loader and
      the commitments-only loader on the store the loader left), with the
      exceptions the loaders do not catch.

    The extractor's files form a chain ([Cell] < [Color], [Emoji],
    [DateParse] < [Sheet] < [Converter]); the loaders take [Converter]'s
    document type as their input and are proved against [Env], so that
    most of their theorems hold for every store; [Json] < [Utf8] <
    [Intermediate] give the file between them, and [Pipeline] joins the
    two stages.

    Three program logics over the loader monad, in [Remote], carry the
    loader proofs: [wp] and [emits] (what a run appends to the trace,
    whatever the store answers), [at_most] (how many requests it appends,
    with the tactic [at_most_run]) and [hoare] (total correctness from a
    known store state: the run returns a value, and what a GET answers may
    depend on what an earlier POST inserted; its rules execute a run
    symbolically from a world).  [Store] carries the invariant of the
    in-memory store, [store_wf]: every row has a generated id, below the
    id counter, and no two rows share one; every store operation keeps
    it.

    ** What the theorems show

    - Colour: each listed green code, in any ARGB string that contains it,
      gives "attended", each red one "not_attended" when no green code is a
      substring, and no solid fill gives "unknown"; the classifier's three
      outcomes; and the alpha-padded red ["00FF0000"] (the form openpyxl
      stores a six-digit colour in) is classified "attended", because the
      green code ["00FF00"] is a substring of it.
    - Glyphs: the check and cross glyphs of the source are the three-code-
      point strings U+201A U+00FA U+00D6 and U+201A U+00F9 U+00E5 (the
      UTF-8 bytes of the emoji read as Mac Roman); the cleaner's regex class
      removes one code point only, so the cleaned text keeps two code points
      of the glyph; real emoji (U+2705, U+274C) are neither detected nor
      removed.  Every emitted commitment has non-empty, stripped text.
    - Dates: every result of [parse_date_cell] is the printed form of a
      valid Gregorian date, and from year 1000 on parsing it again returns
      it (a print/parse round trip); "MM/DD/YYYY" is tried before
      "DD/MM/YYYY", so the day-first reading is taken only when the first
      field cannot be a month; with glibc's [strftime] (the platform the
      model takes) a year below 1000 is printed without padding, and the
      parser rejects such a printed date (macOS pads it).
    - Sniffing: the column search scans rows 1..9 and columns 1..9, the
      start-row search rows 1..19 and columns 1..9 (not 10 and 20 as the
      spec says): two sheets that agree on those cells get the same
      columns and start row, whatever else they hold; results are the
      first hits of the scan, within bounds.
    - JSON and UTF-8: [json.load] reads back what [json.dump] wrote, for
      every value without floats whose dicts have distinct keys (a round
      trip, through a text with indentation, escapes and non-ASCII
      characters), within CPython's recursion and integer-digit limits,
      which the model does not represent; the decoder never runs out of
      its fuel; the chunks the generator writes join to the one-string
      encoding; the strict UTF-8 decoder gives back every string the
      encoder accepts.
    - The file: every document the extractor builds has distinct keys at
      both levels; when its strings are Unicode scalar values the dump
      returns and a loader in a UTF-8 locale reads the document back
      exactly; in a Latin-1 locale it does so only for ASCII documents (a
      non-ASCII name comes back as other characters); a string the codec
      refuses stops the dump half way and leaves a truncated file that
      [json.load] refuses.
    - Conversion: the dates of a sheet's entries are distinct and are
      outputs of [parse_date_cell]; a later row with the same date replaces
      the earlier entry in place; the workbook loop with its dict updates
      equals a declarative reading (each sheet with a date column and a
      dated row, its dates once each in the order of their first row with
      the entry of their last, [convert_reference]); the spec's
      end-to-end sheet yields no commitments.
    - Loader, for every store: [parse_name] raises exactly on names without
      words, and splits the rest into a first word and the other words;
      the email is not unique (case and word boundaries are lost); the user
      map only holds document names, once each; a blank name crashes the
      run after the earlier users were posted; a refused pod aborts after
      the users and the pod; one meeting is posted per distinct date, in
      increasing order; the importers post exactly one row per commitment
      and per (mapped person, mapped date), with the status, attendance,
      duration and confidence mappings of the code; a run issues at most
      three requests per name, two for the pod, three per date and two
      per commitment and per entry (no loop retries or runs past its
      input).
    - Loader, against the in-memory store: the meeting rows the code
      sends ([meeting_date], no [scheduled_date]) are refused by the
      printed [pod_meetings] table, so no attendance is ever imported;
      from any state that satisfies the store invariant, [main] runs to
      completion on every document whose names have a word, reporting one
      user per name and 0 meetings; two names with the same email (for
      instance differing only in case) are mapped to one user id, while
      each still inserts a [users] row.
    - Commitments-only loader: it posts exactly the commitments whose text
      is neither empty nor a dash; the count it returns never exceeds the
      number of inserts, and equals it when the store accepts them all;
      the names it rebuilds are the original names' words joined by single
      spaces.  Run after the full loader on the in-memory store (from a
      state without imported users), its [get_user_mapping] maps each
      name's words to the id of the very [users] row the full loader
      created for that name, so two names with a common email, which the
      full loader gave one id, get two different ids here; on a non-empty
      document of distinct single-spaced names its [main] then completes
      and reports every commitment that is neither empty nor a dash.
    - Both stages: in a UTF-8 locale the loader reads the document the
      extractor has just written only when started in the extractor's
      hard-coded output directory (elsewhere it reads an older file, or
      none); run from there on the in-memory store, the extractor reports
      the document written and the loader completes with one user per
      sheet the extractor kept; the commitments-only loader run next, on
      the same file and the store the loader left, finds every person
      again (for names that are their words joined by single spaces) and
      completes, reporting every commitment that is neither empty nor a
      dash.

    ** Bounds and fuel

    Every definition but the JSON decoder is structural (the backtracking
    matcher recurses on the pattern, the scans on [seq] ranges, the
    loaders' loops on the document's lists).  The decoder's [value],
    [elements] and [members] take fuel; [json.load] gives them twice the
    length of the text and one more ([decode_fuel]), which is enough:
    each call either consumes a character or is the first call on a
    shorter text ([decoder_fuel]), so it never runs out
    ([value_total]), and more fuel gives the same result
    ([decoder_mono]).  Excel indices are [nat]; the
    scan windows are the constants of the code; status codes and counters
    are [N] (Python integers do not overflow).  The request bound of a
    run is a [nat] computed from the document ([Loader.request_bound]).

    ** Not modelled

    - openpyxl file loading and styles: a cell is given by its value and
      its fill, as openpyxl reports them; float cells are not modelled
      (their [str] never parses as a date and they are not [str]).
    - [str.upper]/[str.lower] are modelled on ASCII letters only.
    - JSON floats, NaN and Infinity (the document holds none), codecs
      other than UTF-8 and Latin-1 for the loaders' locale, the point at
      which a loader fails on a JSON list, string or object that is not
      shaped as a document (the scalars [len] refuses are modelled), and a missing output directory (the extractor's [open]
      would raise); [print], the progress counters that
      are only printed, and the text of HTTP error responses; the URL
      query string is modelled by its (column, value) filters, so the
      encoding of special characters in names is not modelled.
    - The module-level constants (the store's URL and key, the request
      headers) and the [pip install] fallback of the imports: they do not
      change what a run computes.
    - [create_tables] only prints its SQL; the table definitions are
      data of [Store].
*)

From Stdlib Require Import NArith ZArith Lia String Ascii.
From stdpp Require Import base list sets.

Declare Scope py_scope.
Delimit Scope py_scope with py.
Open Scope N_scope.

(** A Python [str] is a sequence of Unicode code points. *)
Abbreviation ustr := (list N).

(** ASCII literals, so that the model can write ["attended"] as the code
    does. *)
Definition u (s : string) : ustr := map N_of_ascii (list_ascii_of_string s).

(** ** Character classes of CPython 3.11 *)

(** [str.isspace] and the regex class [\s] (they agree). *)
Definition py_isspace (c : N) : bool :=
  ((9 <=? c) && (c <=? 13)) || ((28 <=? c) && (c <=? 32)) ||
  (c =? 133) || (c =? 160) || (c =? 5760) ||
  ((8192 <=? c) && (c <=? 8202)) || (c =? 8232) || (c =? 8233) ||
  (c =? 8239) || (c =? 8287) || (c =? 12288).

(** The code points of digit zero of every Unicode 14.0 block of decimal
    digits; each block holds the ten digits in order. *)
Definition nd_zeros : list N :=
  [48; 1632; 1776; 1984; 2406; 2534; 2662; 2790; 2918; 3046; 3174; 3302;
   3430; 3558; 3664; 3792; 3872; 4160; 4240; 6112; 6160; 6470; 6608; 6784;
   6800; 6992; 7088; 7232; 7248; 42528; 43216; 43264; 43472; 43504; 43600;
   44016; 65296; 66720; 68912; 69734; 69872; 69942; 70096; 70384; 70736;
   70864; 71248; 71360; 71472; 71904; 72016; 72784; 73040; 73120; 92768;
   92864; 93008; 120782; 120792; 120802; 120812; 120822; 123200; 123632;
   125264; 130032].

(** The zero of the block of [c], if [c] is a decimal digit. *)
Definition digit_zero (c : N) : option N :=
  find (fun z => (z <=? c) && (c <? z + 10)) nd_zeros.

(** The regex class [\d]. *)
Definition py_isdigit (c : N) : bool := bool_decide (is_Some (digit_zero c)).

(** The value [int()] gives a decimal digit. *)
Definition digit_value (c : N) : N :=
  match digit_zero c with Some z => c - z | None => 0 end.

(** ** String operations *)

Fixpoint lstrip (s : ustr) : ustr :=
  match s with
  | [] => []
  | c :: r => if py_isspace c then lstrip r else s
  end.

Definition rstrip (s : ustr) : ustr := rev (lstrip (rev s)).

(** [str.strip()] *)
Definition strip (s : ustr) : ustr := rstrip (lstrip s).

(** Splitting at every code point that satisfies [p]: the pieces between
    separators, empty ones included. *)
Fixpoint split_by (p : N -> bool) (s : ustr) : list ustr :=
  match s with
  | [] => [[]]
  | c :: r =>
      if p c then [] :: split_by p r
      else match split_by p r with
           | w :: ws => (c :: w) :: ws
           | [] => [[c]]
           end
  end.

(** [str.split(sep)] for a one-character separator. *)
Definition split_on (sep : N) (s : ustr) : list ustr := split_by (N.eqb sep) s.

(** [str.split()]: runs of whitespace separate, empty pieces are dropped. *)
Definition split_ws (s : ustr) : list ustr :=
  filter (fun w => negb (bool_decide (w = []))) (split_by py_isspace s).

(** [sep.join(ws)] *)
Fixpoint join (sep : ustr) (ws : list ustr) : ustr :=
  match ws with
  | [] => []
  | [w] => w
  | w :: r => w ++ sep ++ join sep r
  end.

(** [s.startswith(p)] *)
Fixpoint startswith (s p : ustr) : bool :=
  match p, s with
  | [], _ => true
  | c :: p', d :: s' => (c =? d) && startswith s' p'
  | _ :: _, [] => false
  end.

(** [needle in hay] *)
Fixpoint py_in (needle hay : ustr) : bool :=
  startswith hay needle ||
  match hay with [] => false | _ :: h => py_in needle h end.

Notation "a 'in_py' b" := (py_in a b) (at level 70, no associativity) : py_scope.

(** ASCII case mapping (see the header). *)
Definition ascii_upper (c : N) : N := if (97 <=? c) && (c <=? 122) then c - 32 else c.
Definition ascii_lower (c : N) : N := if (65 <=? c) && (c <=? 90) then c + 32 else c.
Definition upper (s : ustr) : ustr := map ascii_upper s.
Definition lower (s : ustr) : ustr := map ascii_lower s.

(** Decimal digits of [n], padded with zeros to [w] digits. *)
Fixpoint digits_rev (fuel : nat) (n : N) : ustr :=
  match fuel with
  | O => []
  | S f => (48 + n mod 10) :: (if n <? 10 then [] else digits_rev f (n / 10))
  end.

Definition dec (n : N) : ustr := rev (digits_rev (N.to_nat n + 1) n).

Definition pad_dec (w : nat) (n : N) : ustr :=
  let d := dec n in replicate (w - length d) 48 ++ d.

(** [int(s)] on a string of decimal digits, surrounding whitespace
    allowed. *)
Definition int_of_digits (s : ustr) : N :=
  fold_left (fun acc c => acc * 10 + digit_value c) (strip s) 0.

(** ** Python's [dict]: insertion order, update in place *)

Fixpoint dict_set {V} (k : ustr) (v : V) (d : list (ustr * V)) : list (ustr * V) :=
  match d with
  | [] => [(k, v)]
  | (k', v') :: r => if bool_decide (k = k') then (k, v) :: r else (k', v') :: dict_set k v r
  end.

Fixpoint dict_get {V} (k : ustr) (d : list (ustr * V)) : option V :=
  match d with
  | [] => None
  | (k', v') :: r => if bool_decide (k = k') then Some v' else dict_get k r
  end.

(** ** Shared lemmas *)

Create HintDb pystr discriminated.

(** Closes a decidable proposition about concrete data by evaluation. *)
Ltac by_eval := apply (bool_decide_unpack _); vm_compute; exact I.
Create Rewrite HintDb pystr.

(** A string is stripped when [strip] leaves it unchanged. *)
Definition stripped (s : ustr) : Prop := strip s = s.

Lemma startswith_spec (s p : ustr) : startswith s p = true <-> exists r, s = p ++ r.
Proof.
  revert s; induction p as [|c p IH]; intros [|d s]; simpl.
  - split; eauto.
  - split; eauto.
  - split; [discriminate | intros [r Hr]; discriminate].
  - rewrite andb_true_iff, N.eqb_eq, IH. split.
    + intros [-> [r ->]]. eauto.
    + intros [r Hr]. injection Hr as -> ->. eauto.
Qed.

Lemma startswith_app (p r : ustr) : startswith (p ++ r) p = true.
Proof. apply startswith_spec. eauto. Qed.

Lemma py_in_spec (n h : ustr) : py_in n h = true <-> exists a b, h = a ++ n ++ b.
Proof.
  induction h as [|c h IH]; cbn [py_in]; rewrite orb_true_iff, startswith_spec.
  - split.
    + intros [[r Hr]|?]; [by exists [], r|discriminate].
    + intros [[|? a] [b Hb]]; simpl in Hb; [left; by exists b|discriminate].
  - rewrite IH. split.
    + intros [[r Hr]|[a [b ->]]]; [by exists [], r|by exists (c :: a), b].
    + intros [[|d a] [b Hb]]; simpl in Hb.
      * left. by exists b.
      * right. injection Hb as -> ->. eauto.
Qed.

Lemma py_in_app (a n b : ustr) : py_in n (a ++ n ++ b) = true.
Proof. apply py_in_spec. eauto. Qed.

Lemma lstrip_app_nonspace (l : ustr) (c : N) :
  py_isspace c = false -> lstrip (l ++ [c]) = lstrip l ++ [c].
Proof.
  intros Hc. induction l as [|d l IH]; simpl; [by rewrite Hc|].
  by destruct (py_isspace d).
Qed.

Lemma lstrip_idem (s : ustr) : lstrip (lstrip s) = lstrip s.
Proof.
  induction s as [|c s IH]; simpl; [done|].
  destruct (py_isspace c) eqn:Hc; [done|]. simpl. by rewrite Hc.
Qed.

Lemma lstrip_head (s r : ustr) (c : N) : lstrip s = c :: r -> py_isspace c = false.
Proof.
  induction s as [|d s IH]; simpl; [discriminate|].
  destruct (py_isspace d) eqn:Hd; [done|]. by intros [= -> _].
Qed.

Lemma rstrip_idem (s : ustr) : rstrip (rstrip s) = rstrip s.
Proof. unfold rstrip. by rewrite rev_involutive, lstrip_idem. Qed.

Lemma lstrip_rstrip_cons (c : N) (r : ustr) :
  py_isspace c = false -> lstrip (rstrip (c :: r)) = rstrip (c :: r).
Proof.
  intros Hc. unfold rstrip. simpl. rewrite lstrip_app_nonspace by done.
  rewrite rev_app_distr. simpl. by rewrite Hc.
Qed.

Lemma strip_idem (s : ustr) : stripped (strip s).
Proof.
  unfold stripped, strip. destruct (lstrip s) as [|c r] eqn:Hl; [done|].
  rewrite lstrip_rstrip_cons by (eapply lstrip_head; eauto).
  apply rstrip_idem.
Qed.

(** Stripped strings begin and end with a code point that is not a space. *)
Lemma stripped_head (s r : ustr) (c : N) : stripped s -> s = c :: r -> py_isspace c = false.
Proof.
  unfold stripped, strip, rstrip. intros Hs ->. simpl.
  destruct (py_isspace c) eqn:Hc; [|done]. exfalso.
  assert (Hlen : (length (rev (lstrip (rev (lstrip r)))) <= length r)%nat).
  { rewrite length_rev.
    assert (forall t : ustr, (length (lstrip t) <= length t)%nat) as Hl.
    { induction t as [|d t IH]; simpl; [lia|]. destruct (py_isspace d); simpl; lia. }
    etrans; [apply Hl|]. rewrite length_rev. apply Hl. }
  simpl in Hs. rewrite Hc in Hs. rewrite Hs in Hlen. simpl in Hlen. lia.
Qed.

Lemma strip_nil_cons (c : N) (r : ustr) : py_isspace c = false -> strip (c :: r) <> [].
Proof.
  intros Hc. unfold strip. simpl. rewrite Hc. unfold rstrip. simpl.
  rewrite lstrip_app_nonspace by done. intros H.
  apply (f_equal (@length N)) in H. rewrite length_rev, length_app in H. simpl in H. lia.
Qed.

Lemma lstrip_app (l m : ustr) :
  lstrip (l ++ m) = match lstrip l with [] => lstrip m | x => x ++ m end.
Proof. induction l as [|c l IH]; simpl; [done|]. by destruct (py_isspace c). Qed.

Lemma lstrip_cons_nonspace (c : N) (r : ustr) : py_isspace c = false -> lstrip (c :: r) = c :: r.
Proof. simpl. by intros ->. Qed.

Lemma rstrip_app_nonspace (p s : ustr) (c : N) :
  py_isspace c = false -> rstrip ((p ++ [c]) ++ s) = (p ++ [c]) ++ rstrip s.
Proof.
  intros Hc. unfold rstrip. rewrite !rev_app_distr, lstrip_app. simpl.
  destruct (lstrip (rev s)) as [|x l]; simpl.
  - rewrite Hc, app_nil_r. simpl. by rewrite rev_involutive.
  - rewrite rev_app_distr. simpl. rewrite rev_involutive. by rewrite <- !app_assoc.
Qed.

(** A string that begins and ends with non-spaces is kept by [strip] and
    only the tail after it is right-stripped. *)
Lemma strip_wrapped (a : N) (p : ustr) (b : N) (s : ustr) :
  py_isspace a = false -> py_isspace b = false ->
  strip ((a :: p ++ [b]) ++ s) = (a :: p ++ [b]) ++ rstrip s.
Proof.
  intros Ha Hb. unfold strip. simpl. rewrite Ha.
  change (a :: (p ++ [b]) ++ s) with (((a :: p) ++ [b]) ++ s).
  by rewrite rstrip_app_nonspace.
Qed.

(** On a string that begins with a non-space, [strip] is [rstrip]. *)
Lemma strip_cons_nonspace (c : N) (r : ustr) :
  py_isspace c = false -> strip (c :: r) = rstrip (c :: r).
Proof. intros Hc. unfold strip. by rewrite lstrip_cons_nonspace. Qed.

Lemma rstrip_nil_or_wrapped (s : ustr) :
  rstrip s = [] \/ exists p c, rstrip s = p ++ [c] /\ py_isspace c = false.
Proof.
  unfold rstrip. destruct (lstrip (rev s)) as [|c l] eqn:E; [by left|right].
  exists (rev l), c. split; [done|]. by eapply lstrip_head.
Qed.

Lemma join_split_on (sep : N) (s : ustr) : join [sep] (split_on sep s) = s.
Proof.
  unfold split_on. induction s as [|c s IH]; simpl; [done|].
  destruct (N.eqb_spec sep c) as [->|Hne].
  - destruct (split_by (N.eqb c) s) as [|w [|w' ws]] eqn:E; simpl in *; subst; done.
  - destruct (split_by (N.eqb sep) s) as [|w [|w' ws]] eqn:E; simpl in *; subst; done.
Qed.

Lemma split_by_not_nil (p : N -> bool) (s : ustr) : split_by p s <> [].
Proof.
  destruct s as [|c s]; simpl; [done|].
  destruct (p c); [done|]. by destruct (split_by p s).
Qed.

Section Dict.
Context {V : Type}.
Implicit Types (d : list (ustr * V)) (k : ustr) (v : V).

Lemma dict_get_set_eq d k v : dict_get k (dict_set k v d) = Some v.
Proof.
  induction d as [|[k' v'] d IH]; simpl; [by rewrite bool_decide_eq_true_2|].
  case_bool_decide; simpl; [by rewrite bool_decide_eq_true_2|].
  by rewrite bool_decide_eq_false_2.
Qed.

Lemma dict_get_set_ne d k k' v : k <> k' -> dict_get k' (dict_set k v d) = dict_get k' d.
Proof.
  intros Hne. induction d as [|[k'' v'] d IH]; simpl.
  - by rewrite bool_decide_eq_false_2.
  - case_bool_decide as Hk; simpl.
    + subst. by rewrite !(bool_decide_eq_false_2 (k' = _)) by congruence.
    + by case_bool_decide.
Qed.

Lemma dict_set_keys_in d k v : k ∈ map fst d -> map fst (dict_set k v d) = map fst d.
Proof.
  induction d as [|[k' v'] d IH]; simpl; [set_solver|].
  rewrite elem_of_cons. case_bool_decide; simpl; [congruence|].
  intros [?|?]; [done|]. by rewrite IH.
Qed.

Lemma dict_set_keys_notin d k v : k ∉ map fst d -> map fst (dict_set k v d) = map fst d ++ [k].
Proof.
  induction d as [|[k' v'] d IH]; simpl; [done|].
  rewrite not_elem_of_cons. intros [Hne Hd].
  rewrite bool_decide_eq_false_2 by done. simpl. by rewrite IH.
Qed.

Lemma dict_set_NoDup d k v : NoDup (map fst d) -> NoDup (map fst (dict_set k v d)).
Proof.
  intros Hd. destruct (decide (k ∈ map fst d)) as [Hk|Hk].
  - by rewrite dict_set_keys_in.
  - rewrite dict_set_keys_notin by done.
    apply NoDup_app. repeat split; [done| |apply NoDup_singleton]. set_solver.
Qed.
Lemma dict_get_cons_eq k (v : V) r : dict_get k ((k, v) :: r) = Some v.
Proof. simpl. by rewrite bool_decide_eq_true_2. Qed.

Lemma dict_get_cons_ne k k' (v : V) r : k <> k' -> dict_get k ((k', v) :: r) = dict_get k r.
Proof. intros Hk. simpl. by rewrite bool_decide_eq_false_2. Qed.

Lemma dict_get_elem d k v : dict_get k d = Some v -> (k, v) ∈ d.
Proof.
  induction d as [|[k' v'] d IH]; simpl; [done|].
  case_bool_decide; [intros [= ->]; subst; set_solver|]. set_solver.
Qed.
End Dict.

Lemma find_app {A} (p : A -> bool) (l1 l2 : list A) :
  find p (l1 ++ l2) = match find p l1 with Some x => Some x | None => find p l2 end.
Proof. induction l1 as [|x l1 IH]; simpl; [done|]. by destruct (p x). Qed.

(** Assigning the pairs of [l] in order into [d]. *)
Definition dict_set_all {V} (d : list (ustr * V)) (l : list (ustr * V)) : list (ustr * V) :=
  fold_left (fun d p => dict_set p.1 p.2 d) l d.

Section DictFold.
Context {V : Type}.
Implicit Types (d l : list (ustr * V)) (k : ustr).

(** The value of a key is the one of its last assignment. *)
Lemma dict_get_set_all d l k :
  dict_get k (dict_set_all d l) =
  match find (fun p => bool_decide (p.1 = k)) (rev l) with
  | Some p => Some p.2
  | None => dict_get k d
  end.
Proof.
  unfold dict_set_all. revert d. induction l as [|[k' v] l IH]; intros d; [done|].
  cbn [fold_left]. rewrite IH. simpl. rewrite find_app. simpl.
  destruct (find _ (rev l)); [done|].
  case_bool_decide; subst; [by rewrite dict_get_set_eq|by rewrite dict_get_set_ne].
Qed.

Lemma dict_set_all_NoDup d l : NoDup (map fst d) -> NoDup (map fst (dict_set_all d l)).
Proof.
  unfold dict_set_all. revert d. induction l as [|p l IH]; intros d Hd; [done|].
  apply IH, dict_set_NoDup, Hd.
Qed.

Lemma dict_set_all_keys d l k :
  k ∈ map fst (dict_set_all d l) -> k ∈ map fst d \/ k ∈ map fst l.
Proof.
  unfold dict_set_all. revert d. induction l as [|[k' v] l IH]; intros d Hk; [by left|].
  cbn [fold_left] in Hk. destruct (IH _ Hk) as [Hin|Hin]; [|right; set_solver].
  destruct (decide (k' ∈ map fst d)).
  - rewrite dict_set_keys_in in Hin by done. by left.
  - rewrite dict_set_keys_notin in Hin by done. set_solver.
Qed.

Lemma dict_set_elem d k v p : p ∈ dict_set k v d -> p = (k, v) \/ p ∈ d.
Proof.
  induction d as [|[k' v'] d IH]; simpl; [set_solver|].
  case_bool_decide; [set_solver|]. rewrite !elem_of_cons. intros [?|?]; [by right; left|].
  destruct (IH H0); [by left|by right; right].
Qed.

Lemma dict_set_all_elem d l p : p ∈ dict_set_all d l -> p ∈ d \/ p ∈ l.
Proof.
  unfold dict_set_all. revert d. induction l as [|[k v] l IH]; intros d Hp; [by left|].
  destruct (IH _ Hp) as [Hin|Hin]; [|set_solver].
  destruct (dict_set_elem _ _ _ _ Hin); set_solver.
Qed.

(** With distinct fresh keys, assignment appends. *)
Lemma dict_set_all_fresh d l :
  NoDup (map fst (d ++ l)) -> dict_set_all d l = d ++ l.
Proof.
  unfold dict_set_all. revert d. induction l as [|[k v] l IH]; intros d Hd; simpl; [by rewrite app_nil_r|].
  assert (Hk : k ∉ map fst d).
  { rewrite map_app in Hd. apply NoDup_app in Hd as (_ & Hdis & _). set_solver. }
  assert (Hs : dict_set k v d = d ++ [(k, v)]).
  { clear -Hk. induction d as [|[k' v'] d IHd]; [done|]. simpl in *.
    rewrite bool_decide_eq_false_2 by set_solver. f_equal. apply IHd. set_solver. }
  rewrite Hs, IH; [by rewrite <- app_assoc|]. by rewrite <- app_assoc.
Qed.

Lemma Forall2_map_keys {A B} (P : A -> B -> Prop) (K : A -> ustr) (e : B -> ustr * V)
    (val : B -> V) (ns : list A) (rs : list B) :
  Forall2 P ns rs -> (forall n r, P n r -> e r = (K n, val r)) -> map fst (map e rs) = map K ns.
Proof. intros HP He. induction HP as [|n r ns rs Hnr _ IH]; [done|]. simpl. by rewrite (He n r Hnr), IH. Qed.

(** Assigning, from an empty dict, one entry per element of [rs] whose key
    is [K n] for the element [n] it corresponds to: with distinct keys,
    each [K n] gives the value of its own entry. *)
Lemma dict_set_all_Forall2 {A B} (P : A -> B -> Prop) (K : A -> ustr) (e : B -> ustr * V)
    (val : B -> V) (ns : list A) (rs : list B) :
  Forall2 P ns rs -> (forall n r, P n r -> e r = (K n, val r)) -> NoDup (map K ns) ->
  Forall2 (fun n r => P n r /\ dict_get (K n) (dict_set_all [] (map e rs)) = Some (val r)) ns rs.
Proof.
  intros HP He Hnd.
  rewrite dict_set_all_fresh by (simpl; by rewrite (Forall2_map_keys _ _ _ val _ _ HP He)).
  induction HP as [|n r ns rs Hnr HP IH]; constructor; simpl in Hnd; apply NoDup_cons in Hnd as [Hn Hnd].
  - split; [done|]. cbn [map]. rewrite (He n r Hnr). simpl. by rewrite bool_decide_eq_true_2.
  - eapply Forall2_impl; [by apply IH|]. intros n' r' [Hp Hg]. split; [done|].
    cbn [map]. rewrite (He n r Hnr). simpl. rewrite bool_decide_eq_false_2; [done|].
    intros Heq. apply Hn. rewrite <- Heq, <- (Forall2_map_keys _ _ _ val _ _ HP He).
    apply dict_get_elem in Hg. apply list_elem_of_fmap. by exists (K n', val r').
Qed.
(** ** Dict assignment against a declarative reading

    A run of assignments [d[k] = v] from the empty dict leaves each key
    once, in the order of its first assignment, with the value of its
    last one. *)

(** The keys of [ks], each once, in the order of its first occurrence. *)
Definition first_keys (ks : list ustr) : list ustr := reverse (remove_dups (reverse ks)).

(** The value of the last pair of [l] with key [k]. *)
Definition last_value k l : option V := option_map snd (find (fun p => bool_decide (p.1 = k)) (rev l)).

(** The declarative reading of [dict_set_all [] l]. *)
Definition collapse l : list (ustr * V) :=
  omap (fun k => (fun v => (k, v)) <$> last_value k l) (first_keys (map fst l)).

Lemma dict_get_notin d k : k ∉ map fst d -> dict_get k d = None.
Proof.
  induction d as [|[k' v] d IH]; simpl; [done|]. rewrite not_elem_of_cons. intros [Hk Hd].
  rewrite bool_decide_eq_false_2 by done. by apply IH.
Qed.

(** Two dicts with the same keys, distinct, and the same lookups are equal. *)
Lemma dict_ext d1 d2 :
  map fst d1 = map fst d2 -> NoDup (map fst d1) -> (forall k, dict_get k d1 = dict_get k d2) -> d1 = d2.
Proof.
  revert d2. induction d1 as [|[k v] d1 IH]; intros [|[k' v'] d2] Hk Hnd Hg; try done.
  simpl in Hk. injection Hk as <- Hk. apply NoDup_cons in Hnd as [Hn Hnd].
  pose proof (Hg k) as Hv. rewrite !dict_get_cons_eq in Hv. injection Hv as <-.
  f_equal. apply IH; [done|done|]. intros k'. destruct (decide (k' = k)) as [->|Hne].
  - rewrite !dict_get_notin; [done| |done]. by rewrite <- Hk.
  - pose proof (Hg k') as H. by rewrite !dict_get_cons_ne in H.
Qed.

Lemma elem_of_first_keys (ks : list ustr) k : k ∈ first_keys ks <-> k ∈ ks.
Proof. unfold first_keys. by rewrite elem_of_reverse, elem_of_remove_dups, elem_of_reverse. Qed.

Lemma first_keys_NoDup (ks : list ustr) : NoDup (first_keys ks).
Proof. unfold first_keys. rewrite reverse_Permutation. apply NoDup_remove_dups. Qed.

Lemma first_keys_snoc (ks : list ustr) k :
  first_keys (ks ++ [k]) = if decide (k ∈ ks) then first_keys ks else first_keys ks ++ [k].
Proof.
  unfold first_keys. rewrite reverse_app. change (reverse [k]) with [k]. cbn [app remove_dups].
  destruct (decide_rel elem_of k (reverse ks)) as [H|H]; rewrite elem_of_reverse in H;
    destruct (decide (k ∈ ks)); try done. by rewrite reverse_cons.
Qed.

Lemma dict_set_all_snoc d l p : dict_set_all d (l ++ [p]) = dict_set p.1 p.2 (dict_set_all d l).
Proof. unfold dict_set_all. by rewrite fold_left_app. Qed.

Lemma dict_set_all_keys_first l : map fst (dict_set_all [] l) = first_keys (map fst l).
Proof.
  induction l as [|[k v] l IH] using rev_ind; [done|].
  rewrite dict_set_all_snoc, map_app. cbn [map fst]. rewrite first_keys_snoc. cbn [fst snd].
  destruct (decide (k ∈ map fst l)) as [Hk|Hk].
  - rewrite dict_set_keys_in; [done|]. by rewrite IH, elem_of_first_keys.
  - rewrite dict_set_keys_notin, IH; [done|]. by rewrite IH, elem_of_first_keys.
Qed.

Lemma last_value_Some l k : k ∈ map fst l -> exists v, last_value k l = Some v.
Proof.
  intros (p & -> & Hp)%list_elem_of_fmap. unfold last_value.
  destruct (find _ (rev l)) as [q|] eqn:E; [by eexists|].
  exfalso. eapply find_none in E; [|apply in_rev; rewrite rev_involutive; by apply list_elem_of_In].
  rewrite bool_decide_eq_true_2 in E; [done|done].
Qed.

Lemma collapse_keys l : map fst (collapse l) = first_keys (map fst l).
Proof.
  unfold collapse. assert (H : forall k, k ∈ first_keys (map fst l) -> exists v, last_value k l = Some v).
  { intros k Hk. apply last_value_Some. by apply elem_of_first_keys. }
  induction (first_keys (map fst l)) as [|k ks IHk]; [done|]. simpl.
  destruct (H k) as [v ->]; [set_solver|]. simpl. f_equal. apply IHk. set_solver.
Qed.

Lemma dict_get_NoDup_elem d k v : NoDup (map fst d) -> (k, v) ∈ d -> dict_get k d = Some v.
Proof.
  induction d as [|[k' v'] d IH]; intros Hnd Hin; [set_solver|]. simpl in Hnd.
  apply NoDup_cons in Hnd as [Hn Hnd]. apply elem_of_cons in Hin as [[= -> ->]|Hin].
  - by rewrite dict_get_cons_eq.
  - rewrite dict_get_cons_ne; [by apply IH|]. intros Heq. rewrite <- Heq in Hn. apply Hn, list_elem_of_fmap. by exists (k, v).
Qed.

Lemma dict_get_collapse l k : dict_get k (collapse l) = last_value k l.
Proof.
  destruct (decide (k ∈ map fst l)) as [Hk|Hk].
  - destruct (last_value_Some l k Hk) as [v Hv]. rewrite Hv. apply dict_get_NoDup_elem.
    { rewrite collapse_keys. apply first_keys_NoDup. }
    unfold collapse. apply list_elem_of_omap. exists k. rewrite Hv. split; [|done].
    by apply elem_of_first_keys.
  - rewrite dict_get_notin; [|by rewrite collapse_keys, elem_of_first_keys].
    unfold last_value. destruct (find _ (rev l)) as [q|] eqn:E; [|done]. exfalso.
    apply find_some in E as [Hq Hb]. apply bool_decide_eq_true_1 in Hb. subst k.
    apply Hk, list_elem_of_fmap. exists q. split; [done|]. apply list_elem_of_In. by apply in_rev.
Qed.

(** Assigning the pairs of [l] into an empty dict is [collapse l]. *)
Lemma dict_set_all_collapse l : dict_set_all [] l = collapse l.
Proof.
  apply dict_ext.
  - by rewrite dict_set_all_keys_first, collapse_keys.
  - apply dict_set_all_NoDup. constructor.
  - intros k. rewrite dict_get_set_all, dict_get_collapse. unfold last_value. by destruct (find _ _).
Qed.

End DictFold.

#[export] Hint Resolve startswith_app py_in_app strip_idem dict_set_NoDup : pystr.
#[export] Hint Rewrite lstrip_idem rstrip_idem @dict_get_set_eq : pystr.

(** ** Finite ranges and decimal digits *)

(** A property of every [k] in [[lo, lo + n)] follows from its instances,
    which concrete [n] lets [Forall] list. *)
Lemma N_range_ind (P : N -> Prop) (lo : N) (n : nat) :
  Forall P (map (fun i => lo + N.of_nat i) (seq 0 n)) ->
  forall k, lo <= k < lo + N.of_nat n -> P k.
Proof.
  intros HF k Hk. rewrite List.Forall_forall in HF.
  replace k with (lo + N.of_nat (N.to_nat (k - lo))) by lia.
  apply HF, in_map_iff. exists (N.to_nat (k - lo)). split; [done|]. apply in_seq. lia.
Qed.

(** Proves [Forall P l] for a concrete [l], closing each instance with [tac]. *)
Ltac forall_list tac :=
  repeat (apply List.Forall_cons; [tac|]); apply List.Forall_nil.

(** Proves a goal about [k] for every [k] in [[lo, lo + n)], given in the
    context, by closing each of the [n] instances with [tac]. *)
Ltac enum_range k lo n tac :=
  pattern k; apply (N_range_ind _ lo n); [cbn [map seq]; forall_list tac | lia].

(** Replaces [pad_dec w n] for a closed [n] by its digits, everywhere. *)
Ltac eval_pad :=
  repeat match goal with
  | |- context [pad_dec ?w ?n] =>
      let p := eval vm_compute in (pad_dec w n) in change (pad_dec w n) with p in *
  end.

(** Evaluates [py_isdigit c] for closed code points [c]. *)
Ltac eval_isdigit :=
  repeat match goal with
  | |- context [py_isdigit ?c] =>
      let b := eval vm_compute in (py_isdigit c) in
      lazymatch b with
      | true => change (py_isdigit c) with true
      | false => change (py_isdigit c) with false
      end
  end.

Lemma ascii_digit (k : N) :
  k < 10 -> py_isdigit (48 + k) = true /\ digit_value (48 + k) = k /\ py_isspace (48 + k) = false.
Proof. intros Hk. enum_range k 0 10%nat ltac:(vm_compute; auto). Qed.

(** A year from 1000 to 9999 is printed as four digits. *)
Lemma dec_four_digits (y : N) :
  1000 <= y <= 9999 ->
  exists a b c d, a < 10 /\ b < 10 /\ c < 10 /\ d < 10 /\
    dec y = [48 + a; 48 + b; 48 + c; 48 + d] /\ y = ((a * 10 + b) * 10 + c) * 10 + d.
Proof.
  intros Hy. unfold dec.
  replace (N.to_nat y + 1)%nat with (S (S (S (S (N.to_nat y - 3)))))%nat by lia.
  cbn [digits_rev].
  pose proof (N.div_mod y 10 ltac:(lia)). pose proof (N.mod_lt y 10 ltac:(lia)).
  set (q1 := y / 10) in *. set (r1 := y mod 10) in *.
  pose proof (N.div_mod q1 10 ltac:(lia)). pose proof (N.mod_lt q1 10 ltac:(lia)).
  set (q2 := q1 / 10) in *. set (r2 := q1 mod 10) in *.
  pose proof (N.div_mod q2 10 ltac:(lia)). pose proof (N.mod_lt q2 10 ltac:(lia)).
  set (q3 := q2 / 10) in *. set (r3 := q2 mod 10) in *.
  pose proof (N.div_mod q3 10 ltac:(lia)). pose proof (N.mod_lt q3 10 ltac:(lia)).
  set (q4 := q3 / 10) in *. set (r4 := q3 mod 10) in *.
  clearbody q1 q2 q3 q4 r1 r2 r3 r4.
  rewrite (proj2 (N.ltb_ge y 10)), (proj2 (N.ltb_ge q1 10)), (proj2 (N.ltb_ge q2 10)),
    (proj2 (N.ltb_lt q3 10)) by lia.
  exists r4, r3, r2, r1. split_and!; try lia. done.
Qed.

(** Strings without whitespace. *)
Definition no_space (s : ustr) : Prop := Forall (fun c => py_isspace c = false) s.

Lemma lstrip_no_space (s : ustr) : no_space s -> lstrip s = s.
Proof. destruct 1; simpl; [done|]. by rewrite H. Qed.

Lemma strip_no_space (s : ustr) : no_space s -> strip s = s.
Proof.
  intros Hs. unfold strip, rstrip. rewrite (lstrip_no_space s Hs).
  rewrite lstrip_no_space; [apply rev_involutive|]. by apply List.Forall_rev.
Qed.

Lemma lower_small (s : ustr) : Forall (fun c => c < 65) s -> lower s = s.
Proof.
  induction 1 as [|c s Hc _ IH]; simpl; [done|]. rewrite IH. f_equal.
  unfold ascii_lower. destruct (65 <=? c) eqn:E; [apply N.leb_le in E; lia|done].
Qed.

Lemma int_of_four_digits (a b c d : N) :
  a < 10 -> b < 10 -> c < 10 -> d < 10 ->
  int_of_digits [48 + a; 48 + b; 48 + c; 48 + d] = ((a * 10 + b) * 10 + c) * 10 + d.
Proof.
  intros Ha Hb Hc Hd.
  destruct (ascii_digit a Ha) as (_ & Va & Sa), (ascii_digit b Hb) as (_ & Vb & Sb),
    (ascii_digit c Hc) as (_ & Vc & Sc), (ascii_digit d Hd) as (_ & Vd & Sd).
  unfold int_of_digits. rewrite strip_no_space by (repeat constructor; assumption).
  cbn [fold_left]. rewrite Va, Vb, Vc, Vd. lia.
Qed.

(** ** [str.split()] and surrounding whitespace *)

Lemma split_ws_cons_space (c : N) (s : ustr) :
  py_isspace c = true -> split_ws (c :: s) = split_ws s.
Proof. intros Hc. unfold split_ws. simpl. by rewrite Hc. Qed.

Lemma split_ws_lstrip (s : ustr) : split_ws (lstrip s) = split_ws s.
Proof.
  induction s as [|c s IH]; [done|]. simpl.
  destruct (py_isspace c) eqn:Hc; [by rewrite IH, split_ws_cons_space|done].
Qed.

(** A separator cuts the string in two independent halves. *)
Lemma split_by_app_sep (p : N -> bool) (x y : ustr) (c : N) :
  p c = true -> split_by p (x ++ c :: y) = split_by p x ++ split_by p y.
Proof.
  intros Hc. induction x as [|a x IH]; simpl; [by rewrite Hc|].
  destruct (p a); [by rewrite IH|]. rewrite IH.
  destruct (split_by p x) eqn:E; [by destruct (split_by_not_nil p x)|done].
Qed.

(** [lstrip] removes a whitespace prefix. *)
Lemma lstrip_decomp (s : ustr) :
  exists sp, s = sp ++ lstrip s /\ Forall (fun c => py_isspace c = true) sp.
Proof.
  induction s as [|c s (sp & Hs & Hsp)]; [by exists []|]. simpl.
  destruct (py_isspace c) eqn:Hc; [|by exists []].
  exists (c :: sp). split; [simpl; congruence|by constructor].
Qed.

Lemma split_ws_all_space (t : ustr) :
  Forall (fun c => py_isspace c = true) t -> split_ws t = [].
Proof. induction 1 as [|c t Hc _ IH]; [done|]. by rewrite split_ws_cons_space. Qed.

Lemma split_ws_app_space (x t : ustr) :
  Forall (fun c => py_isspace c = true) t -> split_ws (x ++ t) = split_ws x.
Proof.
  destruct 1 as [|c t Hc Ht]; [by rewrite app_nil_r|].
  unfold split_ws. rewrite split_by_app_sep, filter_app by done.
  fold (split_ws t). rewrite split_ws_all_space by done. apply app_nil_r.
Qed.

(** [s.strip().split()] is [s.split()]. *)
Lemma split_ws_strip (s : ustr) : split_ws (strip s) = split_ws s.
Proof.
  unfold strip, rstrip. rewrite <- (split_ws_lstrip s). set (x := lstrip s).
  destruct (lstrip_decomp (rev x)) as (sp & Hs & Hsp).
  assert (Hx : x = rev (lstrip (rev x)) ++ rev sp).
  { rewrite <- rev_app_distr, <- Hs. by rewrite rev_involutive. }
  rewrite Hx at 2. rewrite split_ws_app_space; [done|]. by apply List.Forall_rev.
Qed.

(** The pieces of [split_by p] hold no separator. *)
Lemma split_by_pieces (p : N -> bool) (s : ustr) :
  Forall (Forall (fun c => p c = false)) (split_by p s).
Proof.
  induction s as [|c s IH]; simpl; [repeat constructor|].
  destruct (p c) eqn:Hc; [by constructor|].
  destruct (split_by p s) as [|w ws]; [by repeat constructor|].
  inversion IH. by repeat constructor.
Qed.

(** The words of [str.split()] are non-empty and hold no whitespace. *)
Lemma split_ws_words (s : ustr) : Forall (fun w => w <> [] /\ no_space w) (split_ws s).
Proof.
  unfold split_ws. pose proof (split_by_pieces py_isspace s) as H.
  induction H as [|w ws Hw _ IH]; [constructor|]. rewrite filter_cons.
  case_decide as Hd; [|done]. constructor; [|done].
  split; [|done]. intros ->. by rewrite bool_decide_eq_true_2 in Hd.
Qed.

Lemma split_by_none (p : N -> bool) (w : ustr) :
  Forall (fun c => p c = false) w -> split_by p w = [w].
Proof. induction 1 as [|c w Hc _ IH]; [done|]. simpl. by rewrite Hc, IH. Qed.

(** Words joined by single spaces split back into themselves. *)
Lemma split_ws_join (r : list ustr) :
  Forall (fun w => w <> [] /\ no_space w) r -> split_ws (join [32] r) = r.
Proof.
  induction 1 as [|w r [Hne Hw] Hr IH]; [done|].
  assert (Hs : split_ws w = [w]).
  { unfold split_ws. rewrite split_by_none by done. rewrite filter_cons_True; [done|].
    by rewrite bool_decide_eq_false_2. }
  destruct r as [|w' r]; [done|].
  change (join [32] (w :: w' :: r)) with (w ++ 32 :: join [32] (w' :: r)).
  unfold split_ws at 1. rewrite split_by_app_sep, filter_app by done.
  fold (split_ws w) (split_ws (join [32] (w' :: r))). by rewrite Hs, IH.
Qed.

(** ** Sums over lists, for request counts *)

Lemma sum_list_with_cons {A} (f : A -> nat) (x : A) (l : list A) :
  sum_list_with f (x :: l) = (f x + sum_list_with f l)%nat.
Proof. done. Qed.

Lemma sum_list_with_const {A} (k : nat) (l : list A) : sum_list_with (fun _ => k) l = (k * length l)%nat.
Proof. induction l as [|x l IH]; simpl; lia. Qed.

Lemma sum_list_with_ext_Forall {A} (f g : A -> nat) (l : list A) :
  Forall (fun x => f x = g x) l -> sum_list_with f l = sum_list_with g l.
Proof. induction 1; simpl; lia. Qed.

Lemma length_flat_map_sum {A B} (f : A -> list B) (l : list A) :
  length (flat_map f l) = sum_list_with (fun x => length (f x)) l.
Proof. induction l as [|x l IH]; [done|]. simpl. by rewrite length_app, IH. Qed.

Lemma sum_list_with_add {A} (f g : A -> nat) (l : list A) :
  sum_list_with (fun x => f x + g x)%nat l = (sum_list_with f l + sum_list_with g l)%nat.
Proof. induction l as [|x l IH]; simpl; lia. Qed.

(** ** Decimal printing is injective *)

(** The value of a little-endian list of decimal digits. *)
Fixpoint digits_value (l : ustr) : N :=
  match l with [] => 0 | c :: r => (c - 48) + 10 * digits_value r end.

Lemma digits_rev_value (f : nat) (n : N) : (N.to_nat n < f)%nat -> digits_value (digits_rev f n) = n.
Proof.
  revert n. induction f as [|f IH]; intros n Hn; [lia|]. simpl.
  pose proof (N.div_mod n 10 ltac:(lia)) as Hd. pose proof (N.mod_lt n 10 ltac:(lia)).
  destruct (n <? 10) eqn:Hlt.
  - apply N.ltb_lt in Hlt. rewrite N.mod_small by done. simpl. lia.
  - apply N.ltb_ge in Hlt. assert (n / 10 < n) by (apply N.div_lt; lia).
    rewrite IH by lia. set (q := n / 10) in *. set (r := n mod 10) in *. clearbody q r. lia.
Qed.

Lemma dec_inj (a b : N) : dec a = dec b -> a = b.
Proof.
  unfold dec. intros H. apply (f_equal (@rev N)) in H. rewrite !rev_involutive in H.
  rewrite <- (digits_rev_value (N.to_nat a + 1) a), <- (digits_rev_value (N.to_nat b + 1) b) by lia.
  by rewrite H.
Qed.
