(* ===== verification/Cell.v ===== *)
(** * Spreadsheet cells as openpyxl reports them

    The extractor reads [cell.value] and [cell.fill] of openpyxl cells.  A
    value is one of the Python objects openpyxl returns for a cell loaded
    with [data_only=False] (formulas arrive as their text, a [str]); the
    fill is the [PatternFill] whose [fill_type] and [start_color.rgb] the
    colour classifier reads.  This file also models the two Python
    operations the extractor applies to values: truthiness ([if not v]) and
    [str(v)]. *)

From Stdlib Require Import NArith ZArith Lia String.
From stdpp Require Import base list sets.
From S2P Require Import Prelude.

Open Scope N_scope.

Module Cell.

(** A [datetime.datetime]; openpyxl produces these for date-formatted
    numeric cells. *)
Record DateTime := mkDateTime {
  dt_year : N; dt_month : N; dt_day : N;
  dt_hour : N; dt_minute : N; dt_second : N; dt_microsecond : N
}.

(** The cell values the extractor meets.  Float cells are left out (see
    the root header). *)
Inductive CellValue :=
| VNone
| VStr (s : ustr)
| VInt (z : Z)
| VBool (b : bool)
| VDate (y m d : N)
| VDateTime (dt : DateTime).

(** [bool(v)] *)
Definition truthy (v : CellValue) : bool :=
  match v with
  | VNone => false
  | VStr s => bool_decide (s <> [])
  | VInt z => negb (Z.eqb z 0)
  | VBool b => b
  | VDate _ _ _ | VDateTime _ => true
  end.

(** [date.isoformat()], the [str] of a [date]. *)
Definition iso_date (y m d : N) : ustr :=
  pad_dec 4 y ++ [45] ++ pad_dec 2 m ++ [45] ++ pad_dec 2 d.

(** [str(v)] *)
Definition py_str (v : CellValue) : ustr :=
  match v with
  | VNone => u "None"
  | VStr s => s
  | VInt z => (if (z <? 0)%Z then [45] else []) ++ dec (Z.abs_N z)
  | VBool b => if b then u "True" else u "False"
  | VDate y m d => iso_date y m d
  | VDateTime dt =>
      iso_date (dt_year dt) (dt_month dt) (dt_day dt) ++ [32] ++
      pad_dec 2 (dt_hour dt) ++ [58] ++ pad_dec 2 (dt_minute dt) ++ [58] ++
      pad_dec 2 (dt_second dt) ++
      (if dt_microsecond dt =? 0 then [] else [46] ++ pad_dec 6 (dt_microsecond dt))
  end.

(** The two attributes of [cell.fill] the colour classifier reads:
    [fill.fill_type] ([None] or a pattern name such as ["solid"]) and
    [fill.start_color.rgb] (an ARGB string such as ["FF92D050"]). *)
Record Fill := mkFill { fill_type : option ustr; start_color_rgb : ustr }.

(** openpyxl's default fill: no pattern, colour ["00000000"]. *)
Definition no_fill : Fill := mkFill None (u "00000000").

Record Cell := mkCell { value : CellValue; fill : Fill }.

End Cell.
