(* ===== verification/Color.v ===== *)
(** * The colour classifier: [detect_attendance_from_color]

    [src/excel_to_json_converter.py], lines 24-45.  A solid fill whose
    colour string, upper-cased, contains one of four green codes gives
    ["attended"]; otherwise one containing one of three red codes gives
    ["not_attended"]; anything else gives ["unknown"].  Matching is the
    Python [in] operator, a substring test on the whole ARGB string. *)

From Stdlib Require Import NArith Lia String.
From stdpp Require Import base list sets.
From S2P Require Import Prelude Cell.
Import Cell.

Open Scope N_scope.

Module Color.

Definition attended : ustr := u "attended".
Definition not_attended : ustr := u "not_attended".
Definition unknown : ustr := u "unknown".

(** The green and red variations of the code, in their order. *)
Definition greens : list ustr := [u "92D050"; u "00FF00"; u "C6EFCE"; u "90EE90"].
Definition reds : list ustr := [u "FF0000"; u "FFC7CE"; u "FFB3BA"].

(** [any(code in hex_color for code in codes)] *)
Definition any_in (codes : list ustr) (hex_color : ustr) : bool :=
  existsb (fun code => py_in code hex_color) codes.

(** The value read from [start_color.rgb] is a [str], which has no [rgb]
    attribute, so the code always takes [str(color).upper()]. *)
Definition detect_attendance_from_color (c : Cell) : ustr :=
  let f := fill c in
  if bool_decide (fill_type f = Some (u "solid")) then
    let color := start_color_rgb f in
    if bool_decide (color <> []) then
      let hex_color := upper color in
      if any_in greens hex_color then attended
      else if any_in reds hex_color then not_attended
      else unknown
    else unknown
  else unknown.

(** The cell with its colour string replaced, the rest unchanged. *)
Definition with_rgb (c : Cell) (rgb : ustr) : Cell :=
  mkCell (value c) (mkFill (fill_type (fill c)) rgb).

(** ** Lemmas *)

Lemma any_in_spec (codes : list ustr) (s : ustr) :
  any_in codes s = true <-> exists code, code ∈ codes /\ py_in code s = true.
Proof. unfold any_in. rewrite existsb_exists. setoid_rewrite list_elem_of_In. done. Qed.

Lemma py_in_nil_r (n : ustr) : n <> [] -> py_in n [] = false.
Proof. destruct n; [done|]. reflexivity. Qed.

Lemma greens_not_nil (g : ustr) : g ∈ greens -> g <> [].
Proof.
  intros Hg ->. assert (Hd : bool_decide ([] ∈ greens) = false) by reflexivity.
  by rewrite bool_decide_eq_true_2 in Hd.
Qed.

Lemma reds_not_nil (r : ustr) : r ∈ reds -> r <> [].
Proof.
  intros Hr ->. assert (Hd : bool_decide ([] ∈ reds) = false) by reflexivity.
  by rewrite bool_decide_eq_true_2 in Hd.
Qed.

(** A code that occurs in [upper s] forces [s] to be non-empty. *)
Lemma py_in_upper_not_nil (code s : ustr) :
  code <> [] -> py_in code (upper s) = true -> s <> [].
Proof. intros Hc Hin ->. by rewrite py_in_nil_r in Hin. Qed.

(** On a solid fill with a colour, the classifier is the two ordered tests. *)
Lemma detect_solid (c : Cell) :
  fill_type (fill c) = Some (u "solid") -> start_color_rgb (fill c) <> [] ->
  detect_attendance_from_color c =
    if any_in greens (upper (start_color_rgb (fill c))) then attended
    else if any_in reds (upper (start_color_rgb (fill c))) then not_attended
    else unknown.
Proof.
  intros Hs Hc. unfold detect_attendance_from_color.
  rewrite Hs, bool_decide_eq_true_2, bool_decide_eq_true_2 by done. done.
Qed.

Lemma upper_lower (s : ustr) : upper (lower s) = upper s.
Proof.
  unfold upper, lower. rewrite map_map. apply map_ext. intros c.
  unfold ascii_upper, ascii_lower.
  destruct ((65 <=? c) && (c <=? 90)) eqn:E1;
    destruct ((97 <=? c) && (c <=? 122)) eqn:E2;
    rewrite ?andb_true_iff, ?andb_false_iff, ?N.leb_le, ?N.leb_gt in E1, E2;
    repeat (case_match; rewrite ?andb_true_iff, ?andb_false_iff, ?N.leb_le, ?N.leb_gt in *);
    lia.
Qed.

Lemma lower_nil (s : ustr) : lower s = [] <-> s = [].
Proof. unfold lower. destruct s; simpl; split; congruence. Qed.

Definition attendance_values : list ustr := [attended; not_attended; unknown].

Lemma detect_attendance_values (c : Cell) :
  detect_attendance_from_color c ∈ attendance_values.
Proof. unfold detect_attendance_from_color, attendance_values. repeat case_match; set_solver. Qed.

#[export] Hint Resolve greens_not_nil reds_not_nil : pystr.

(** ** Properties of the classifier *)

(** C1: A cell with a solid fill whose upper-cased colour string contains
    one of the listed green codes is classified "attended". *)
Theorem detect_green (c : Cell) (g : ustr) :
  fill_type (fill c) = Some (u "solid") -> g ∈ greens ->
  py_in g (upper (start_color_rgb (fill c))) = true ->
  detect_attendance_from_color c = attended.
Proof.
  intros Hs Hg Hin.
  rewrite detect_solid by eauto using py_in_upper_not_nil with pystr.
  by rewrite (proj2 (any_in_spec _ _)) by eauto.
Qed.

Lemma detect_green_witness :
  detect_attendance_from_color (mkCell VNone (mkFill (Some (u "solid")) (u "FF92D050"))) = attended.
Proof. apply (detect_green _ (u "92D050")); [reflexivity|by_eval|reflexivity]. Defined.

(** C2: A solid fill whose colour contains a listed red code and no green
    code is classified "not_attended". *)
Theorem detect_red (c : Cell) (r : ustr) :
  fill_type (fill c) = Some (u "solid") -> r ∈ reds ->
  py_in r (upper (start_color_rgb (fill c))) = true ->
  any_in greens (upper (start_color_rgb (fill c))) = false ->
  detect_attendance_from_color c = not_attended.
Proof.
  intros Hs Hr Hin Hg.
  rewrite detect_solid by eauto using py_in_upper_not_nil with pystr.
  by rewrite Hg, (proj2 (any_in_spec _ _)) by eauto.
Qed.

Lemma detect_red_witness :
  detect_attendance_from_color (mkCell VNone (mkFill (Some (u "solid")) (u "FFFFC7CE"))) = not_attended.
Proof. apply (detect_red _ (u "FFC7CE")); [reflexivity|by_eval|reflexivity|reflexivity]. Defined.

(** A cell whose fill is not solid (including openpyxl's default fill)
    is classified "unknown", whatever its colour. *)
Theorem detect_not_solid (c : Cell) :
  fill_type (fill c) <> Some (u "solid") -> detect_attendance_from_color c = unknown.
Proof. intros Hs. unfold detect_attendance_from_color. by rewrite bool_decide_eq_false_2. Qed.

Lemma detect_not_solid_witness :
  detect_attendance_from_color (mkCell (VStr (u "2024-01-10")) no_fill) = unknown.
Proof. apply detect_not_solid. discriminate. Defined.

(** The classifier is case-insensitive: lower-casing the colour string
    does not change the outcome. *)
Theorem detect_case_insensitive (c : Cell) :
  detect_attendance_from_color (with_rgb c (lower (start_color_rgb (fill c)))) =
  detect_attendance_from_color c.
Proof.
  unfold detect_attendance_from_color, with_rgb. simpl. rewrite upper_lower.
  destruct (start_color_rgb (fill c)); reflexivity.
Qed.

(** Every listed code written as an opaque ARGB colour ("FF" followed by
    the code) gets its intended class: greens "attended", reds
    "not_attended". *)
Theorem detect_listed_codes (v : CellValue) :
  Forall (fun g => detect_attendance_from_color
                     (mkCell v (mkFill (Some (u "solid")) (u "FF" ++ g))) = attended) greens /\
  Forall (fun r => detect_attendance_from_color
                     (mkCell v (mkFill (Some (u "solid")) (u "FF" ++ r))) = not_attended) reds.
Proof. split; repeat constructor. Qed.

(** The alpha-padded pure red "00FF0000", the form in which openpyxl
    stores a six-digit colour "FF0000", is classified "attended": the
    green code "00FF00" occurs in it at offset 0 and greens are tested
    first. *)
Theorem detect_padded_red_is_attended (v : CellValue) :
  detect_attendance_from_color (mkCell v (mkFill (Some (u "solid")) (u "00FF0000"))) = attended.
Proof. reflexivity. Qed.

End Color.
