(* ===== verification/Emoji.v ===== *)
(** * Glyph classifier, text cleaner and commitment-cell parser

    [src/excel_to_json_converter.py], lines 48-75 and 111-133.  The two
    glyph literals of the source file are the three-code-point strings
    U+201A U+00FA U+00D6 ("check") and U+201A U+00F9 U+00E5 ("cross"),
    which is what the UTF-8 bytes of the two emoji look like when read as
    Mac Roman.  The cleaner's pattern [^[...]\s*] is a character class over
    the six code points between the brackets, so it removes one code point. *)

From Stdlib Require Import NArith Lia String.
From stdpp Require Import base list sets.
From S2P Require Import Prelude Cell.
Import Cell.

Open Scope N_scope.

Module Emoji.

(** The literals of lines 57 and 59 (and 74, 169). *)
Definition CHECK : ustr := [8218; 250; 214].
Definition CROSS : ustr := [8218; 249; 229].

Definition fulfilled_true : ustr := u "true".
Definition fulfilled_false : ustr := u "false".
Definition fulfilled_unknown : ustr := u "unknown".

(** [detect_fulfillment_from_emoji] on the [str] lines it is called with. *)
Definition detect_fulfillment_from_emoji (text : ustr) : ustr :=
  if bool_decide (text = []) then fulfilled_unknown
  else
    let t := strip text in
    if startswith t CHECK then fulfilled_true
    else if startswith t CROSS then fulfilled_false
    else fulfilled_unknown.

(** The members of the bracket expression [[‚úÖ‚ùå]] of line 74. *)
Definition glyph_class : list N := CHECK ++ CROSS.

(** [re.sub(r'^[‚úÖ‚ùå]\s*', '', t)]: the anchor matches at the start only,
    one class member is removed, then the greedy [\s*]. *)
Definition sub_leading_glyph (t : ustr) : ustr :=
  match t with
  | c :: r => if bool_decide (c ∈ glyph_class) then lstrip r else t
  | [] => []
  end.

Definition clean_commitment_text (text : ustr) : ustr :=
  if bool_decide (text = []) then []
  else strip (sub_leading_glyph (strip text)).

(** A commitment of the intermediate document: [{"text": .., "fulfilled": ..}]. *)
Record Commitment := mkCommitment { text : ustr; fulfilled : ustr }.

(** The body of the loop of lines 121-131, on one line of the cell. *)
Definition parse_line (line : ustr) : option Commitment :=
  let line := strip line in
  if bool_decide (line = []) then None
  else
    let fulfillment := detect_fulfillment_from_emoji line in
    let clean_text := clean_commitment_text line in
    if bool_decide (clean_text = []) then None
    else Some (mkCommitment clean_text fulfillment).

(** The loop: lines are visited in order and kept commitments appended. *)
Fixpoint parse_lines (lines : list ustr) : list Commitment :=
  match lines with
  | [] => []
  | line :: rest =>
      match parse_line line with
      | Some cm => cm :: parse_lines rest
      | None => parse_lines rest
      end
  end.

Definition parse_commitments_column (c : Cell) : list Commitment :=
  if negb (truthy (value c)) then []
  else parse_lines (split_on 10 (py_str (value c))).

(** ** Lemmas *)

Definition fulfillment_values : list ustr := [fulfilled_true; fulfilled_false; fulfilled_unknown].

Lemma rstrip_CHECK (s : ustr) : rstrip (CHECK ++ s) = CHECK ++ rstrip s.
Proof. exact (rstrip_app_nonspace [8218; 250] s 214 eq_refl). Qed.

Lemma rstrip_CROSS (s : ustr) : rstrip (CROSS ++ s) = CROSS ++ rstrip s.
Proof. exact (rstrip_app_nonspace [8218; 249] s 229 eq_refl). Qed.

Lemma strip_CHECK (s : ustr) : strip (CHECK ++ s) = CHECK ++ rstrip s.
Proof. exact (strip_wrapped 8218 [250] 214 s eq_refl eq_refl). Qed.

Lemma strip_CROSS (s : ustr) : strip (CROSS ++ s) = CROSS ++ rstrip s.
Proof. exact (strip_wrapped 8218 [249] 229 s eq_refl eq_refl). Qed.

Lemma rstrip_cons_nonspace (c : N) (s : ustr) :
  py_isspace c = false -> rstrip (c :: s) = c :: rstrip s.
Proof. intros Hc. exact (rstrip_app_nonspace [] s c Hc). Qed.

Lemma detect_fulfillment_values (t : ustr) :
  detect_fulfillment_from_emoji t ∈ fulfillment_values.
Proof.
  unfold detect_fulfillment_from_emoji, fulfillment_values.
  repeat case_match; set_solver.
Qed.

Lemma clean_commitment_text_stripped (t : ustr) : stripped (clean_commitment_text t).
Proof. unfold clean_commitment_text. case_bool_decide; [done|apply strip_idem]. Qed.

(** What a kept line contributes. *)
Lemma parse_line_wf (l : ustr) (cm : Commitment) :
  parse_line l = Some cm ->
  text cm <> [] /\ stripped (text cm) /\ fulfilled cm ∈ fulfillment_values.
Proof.
  unfold parse_line. repeat case_bool_decide; intros; simplify_eq; simpl.
  auto using clean_commitment_text_stripped, detect_fulfillment_values.
Qed.

(** ** Properties *)

(** C3: A line whose first non-space characters are the check glyph of the
    source is fulfilled "true", and one that begins with the cross glyph
    "false". *)
Theorem detect_glyph_prefix (t s : ustr) :
  (lstrip t = CHECK ++ s -> detect_fulfillment_from_emoji t = fulfilled_true) /\
  (lstrip t = CROSS ++ s -> detect_fulfillment_from_emoji t = fulfilled_false).
Proof.
  unfold detect_fulfillment_from_emoji, strip.
  split; intros Ht; rewrite Ht, bool_decide_eq_false_2 by (intros E; rewrite E in Ht; discriminate Ht).
  - by rewrite rstrip_CHECK, startswith_app.
  - rewrite rstrip_CROSS, startswith_app. reflexivity.
Qed.

Lemma detect_glyph_prefix_witness :
  lstrip (u " " ++ CHECK ++ u " Finish report") = CHECK ++ u " Finish report" /\
  detect_fulfillment_from_emoji (u " " ++ CHECK ++ u " Finish report") = fulfilled_true.
Proof.
  split; [reflexivity|].
  apply (proj1 (detect_glyph_prefix _ (u " Finish report"))). reflexivity.
Defined.

(** C4: The cleaner removes only the first code point of either glyph: the
    check glyph leaves U+00FA U+00D6 in front of the text and the cross
    glyph U+00F9 U+00E5, so "<check> Finish report" is cleaned to
    "\u00fa\u00d6 Finish report", not "Finish report". *)
Theorem clean_keeps_glyph_tail (s : ustr) :
  clean_commitment_text (CHECK ++ s) = [250; 214] ++ rstrip s /\
  clean_commitment_text (CROSS ++ s) = [249; 229] ++ rstrip s.
Proof.
  unfold clean_commitment_text.
  rewrite !bool_decide_eq_false_2 by (intros ?; discriminate).
  rewrite strip_CHECK, strip_CROSS. simpl.
  split; etrans.
  - exact (strip_wrapped 250 [] 214 (rstrip s) eq_refl eq_refl).
  - simpl. by rewrite rstrip_idem.
  - exact (strip_wrapped 249 [] 229 (rstrip s) eq_refl eq_refl).
  - simpl. by rewrite rstrip_idem.
Qed.

(** C5: A line that starts with any other non-space code point, the real
    emoji U+2705 and U+274C included, has fulfilment "unknown" and is
    left as it is by the cleaner (up to trailing spaces). *)
Theorem non_glyph_untouched (c : N) (s : ustr) :
  py_isspace c = false -> c ∉ glyph_class ->
  detect_fulfillment_from_emoji (c :: s) = fulfilled_unknown /\
  clean_commitment_text (c :: s) = c :: rstrip s.
Proof.
  intros Hs Hg.
  assert (Hne : c <> 8218) by (intros ->; apply Hg; by_eval).
  unfold detect_fulfillment_from_emoji, clean_commitment_text.
  rewrite bool_decide_eq_false_2 by done.
  rewrite strip_cons_nonspace, rstrip_cons_nonspace by done.
  cbn [startswith CHECK CROSS sub_leading_glyph].
  rewrite (proj2 (N.eqb_neq 8218 c)) by congruence. cbn [andb].
  rewrite bool_decide_eq_false_2 by done.
  rewrite strip_cons_nonspace, rstrip_cons_nonspace, rstrip_idem by done. done.
Qed.

Lemma non_glyph_untouched_witness :
  detect_fulfillment_from_emoji (9989 :: u " Ship feature") = fulfilled_unknown /\
  clean_commitment_text (9989 :: u " Ship feature") = 9989 :: u " Ship feature".
Proof. apply (non_glyph_untouched 9989 (u " Ship feature")); [reflexivity|by_eval]. Defined.

(** C6: Every commitment parsed from a cell has non-empty text without
    surrounding whitespace and a fulfilment among "true", "false",
    "unknown". *)
Theorem parse_commitments_wf (c : Cell) :
  Forall (fun cm => text cm <> [] /\ stripped (text cm) /\ fulfilled cm ∈ fulfillment_values)
         (parse_commitments_column c).
Proof.
  unfold parse_commitments_column. destruct (negb _); [constructor|].
  induction (split_on 10 (py_str (value c))) as [|l ls IH]; simpl; [constructor|].
  destruct (parse_line l) eqn:E; [constructor; eauto using parse_line_wf|]; done.
Qed.

(** On the spec's end-to-end cell, written with the real emoji
    U+2705 and U+274C, the parser keeps the emoji in the text and reports
    both commitments as "unknown" (the spec expects "Ship feature"/"true"
    and "Write tests"/"false"). *)
Theorem spec_scenario_commitments (f : Fill) :
  parse_commitments_column
    (mkCell (VStr ([9989] ++ u " Ship feature" ++ [10] ++ [10060] ++ u " Write tests")) f) =
  [mkCommitment (9989 :: u " Ship feature") fulfilled_unknown;
   mkCommitment (10060 :: u " Write tests") fulfilled_unknown].
Proof. reflexivity. Qed.

End Emoji.
