(* ===== verification/DateParse.v ===== *)
(** * The date parser: [parse_date_cell]

    [src/excel_to_json_converter.py], lines 78-108.  A [datetime] value is
    printed with [strftime('%Y-%m-%d')]; anything else is turned into a
    stripped [str] and tried against four [strptime] formats in order.

    [datetime.strptime(s, fmt)] is modelled as CPython 3.11's [_strptime]
    does it: the format is compiled to a regex ([TimeRE.pattern]: each
    directive becomes its named group, each run of whitespace [\s+]), the
    regex is matched at the start of [s] by a backtracking matcher that
    tries alternatives in order, the match must reach the end of [s]
    ("unconverted data remains" otherwise), the groups are converted with
    [int], and the date and time must pass the range checks of
    [datetime.date] and [datetime.datetime].  Every failure is the
    [ValueError] that [parse_date_cell] catches, here [None]. *)

From Stdlib Require Import NArith Lia String.
From stdpp Require Import base list sets.
From S2P Require Import Prelude Cell.
Import Cell.

Open Scope N_scope.

Module DateParse.

(** ** The regex fragment of [_strptime] *)

(** A one-character class: [\d], a literal, or a range [[lo-hi]]. *)
Inductive cls := CDigit | CChar (c : N) | CRange (lo hi : N).

Definition cls_match (k : cls) (c : N) : bool :=
  match k with
  | CDigit => py_isdigit c
  | CChar d => c =? d
  | CRange lo hi => (lo <=? c) && (c <=? hi)
  end.

(** The directives the four formats use. *)
Inductive directive := DY | Dm | Dd | DH | DM | DS.

#[export] Instance directive_eq_dec : EqDecision directive.
Proof. solve_decision. Defined.

(** The groups of [TimeRE], alternatives in the order of the source:
    [%d] is [3[0-1]|[1-2]\d|0[1-9]|[1-9]| [1-9]], [%m] is
    [1[0-2]|0[1-9]|[1-9]], [%Y] is [\d\d\d\d], [%H] is
    [2[0-3]|[0-1]\d|\d], [%M] is [[0-5]\d|\d], [%S] is
    [6[0-1]|[0-5]\d|\d]. *)
Definition alts (d : directive) : list (list cls) :=
  match d with
  | DY => [[CDigit; CDigit; CDigit; CDigit]]
  | Dm => [[CChar 49; CRange 48 50]; [CChar 48; CRange 49 57]; [CRange 49 57]]
  | Dd => [[CChar 51; CRange 48 49]; [CRange 49 50; CDigit]; [CChar 48; CRange 49 57];
           [CRange 49 57]; [CChar 32; CRange 49 57]]
  | DH => [[CChar 50; CRange 48 51]; [CRange 48 49; CDigit]; [CDigit]]
  | DM => [[CRange 48 53; CDigit]; [CDigit]]
  | DS => [[CChar 54; CRange 48 49]; [CRange 48 53; CDigit]; [CDigit]]
  end.

(** An element of a compiled pattern. *)
Inductive item := ILit (c : N) | IWs | IGroup (d : directive).

Definition directive_of (c : N) : option directive :=
  if c =? 89 then Some DY else if c =? 109 then Some Dm else if c =? 100 then Some Dd
  else if c =? 72 then Some DH else if c =? 77 then Some DM else if c =? 83 then Some DS
  else None.

(** [TimeRE.pattern]: [%x] becomes the group of [x], a run of whitespace
    one [\s+], any other character itself.  An unknown directive is the
    [KeyError] that [strptime] reports as a bad directive. *)
Fixpoint compile_format (in_ws : bool) (f : ustr) : option (list item) :=
  match f with
  | [] => Some []
  | c :: r =>
      if c =? 37 then
        match r with
        | x :: r' =>
            match directive_of x, compile_format false r' with
            | Some d, Some its => Some (IGroup d :: its)
            | _, _ => None
            end
        | [] => None
        end
      else if py_isspace c then
        if in_ws then compile_format true r
        else option_map (cons IWs) (compile_format true r)
      else option_map (cons (ILit c)) (compile_format false r)
  end.

(** One alternative: a fixed sequence of classes. *)
Fixpoint match_seq (k : list cls) (s : ustr) : option ustr :=
  match k, s with
  | [], _ => Some s
  | c :: k', x :: s' => if cls_match c x then match_seq k' s' else None
  | _ :: _, [] => None
  end.

(** The first alternative that succeeds. *)
Fixpoint first_some {A B} (f : A -> option B) (l : list A) : option B :=
  match l with
  | [] => None
  | x :: r => match f x with Some b => Some b | None => first_some f r end
  end.

(** The longest run of whitespace at the start of [s]. *)
Fixpoint ws_run (s : ustr) : nat :=
  match s with c :: r => if py_isspace c then S (ws_run r) else O | [] => O end.

(** Captured groups, in the order of the pattern. *)
Abbreviation captures := (list (directive * ustr)).

(** [re.match]: backtracking, alternatives in order, [\s+] greedy; the
    result is the first match and what is left of the input. *)
Fixpoint match_items (its : list item) (s : ustr) (caps : captures) : option (captures * ustr) :=
  match its with
  | [] => Some (caps, s)
  | ILit c :: rest =>
      match s with
      | x :: s' => if c =? x then match_items rest s' caps else None
      | [] => None
      end
  | IWs :: rest =>
      first_some (fun k => match_items rest (drop k s) caps) (rev (seq 1 (ws_run s)))
  | IGroup d :: rest =>
      first_some (fun alt =>
        match match_seq alt s with
        | Some s' => match_items rest s' (caps ++ [(d, firstn (length alt) s)])
        | None => None
        end) (alts d)
  end.

(** ** [datetime] range checks *)

(** [_is_leap] and [_days_in_month] of CPython's [datetime]. *)
Definition is_leap (y : N) : bool :=
  (y mod 4 =? 0) && (negb (y mod 100 =? 0) || (y mod 400 =? 0)).

Definition days_before_table : list N := [0; 31; 28; 31; 30; 31; 30; 31; 31; 30; 31; 30; 31].

Definition days_in_month (y m : N) : N :=
  if (m =? 2) && is_leap y then 29 else nth (N.to_nat m) days_before_table 0.

(** [_check_date_fields]: [MINYEAR <= year <= MAXYEAR], [1 <= month <= 12],
    [1 <= day <= days_in_month]. *)
Definition valid_date (y m d : N) : bool :=
  (1 <=? y) && (y <=? 9999) && (1 <=? m) && (m <=? 12) &&
  (1 <=? d) && (d <=? days_in_month y m).

(** ** [datetime.strptime] *)

Definition group_value (caps : captures) (d : directive) : option N :=
  match find (fun p => bool_decide (p.1 = d)) caps with
  | Some (_, s) => Some (int_of_digits s)
  | None => None
  end.

Definition strptime (data fmt : ustr) : option DateTime :=
  match compile_format false fmt with
  | None => None
  | Some its =>
      match match_items its data [] with
      | Some (caps, []) =>
          let month := default 1 (group_value caps Dm) in
          let day := default 1 (group_value caps Dd) in
          let year := match group_value caps DY with
                      | Some y => y
                      | None => if (month =? 2) && (day =? 29) then 1904 else 1900
                      end in
          let hour := default 0 (group_value caps DH) in
          let minute := default 0 (group_value caps DM) in
          let second := default 0 (group_value caps DS) in
          if valid_date year month day && (hour <? 24) && (minute <? 60) && (second <? 60)
          then Some (mkDateTime year month day hour minute second 0)
          else None
      | _ => None
      end
  end.

(** ** [parse_date_cell] *)

(** The formats of lines 94-99, in their order. *)
Definition date_patterns : list ustr :=
  [u "%Y-%m-%d %H:%M:%S"; u "%Y-%m-%d"; u "%m/%d/%Y"; u "%d/%m/%Y"].

(** [strftime('%Y-%m-%d')] as CPython passes it to the C library on
    glibc: [%Y] is the year in decimal without padding, [%m] and [%d] two
    digits with a leading zero.  (The C library of macOS pads [%Y] to four
    digits; the two agree from year 1000 on.) *)
Definition ymd (y m d : N) : ustr := dec y ++ [45] ++ pad_dec 2 m ++ [45] ++ pad_dec 2 d.

Definition strftime_ymd (dt : DateTime) : ustr := ymd (dt_year dt) (dt_month dt) (dt_day dt).

Definition parse_date_cell (v : CellValue) : option ustr :=
  if negb (truthy v) then None
  else
    match v with
    | VDateTime dt => Some (strftime_ymd dt)
    | _ =>
        let date_str := strip (py_str v) in
        if bool_decide (date_str = []) || bool_decide (lower date_str ∈ [u "nan"; u "none"; []])
        then None
        else first_some (fun pattern => option_map strftime_ymd (strptime date_str pattern))
                        date_patterns
    end.

(** The invariants of the Python objects a cell can hold: [date] and
    [datetime] values are valid dates and times. *)
Definition value_wf (v : CellValue) : Prop :=
  match v with
  | VDate y m d => valid_date y m d = true
  | VDateTime dt =>
      valid_date (dt_year dt) (dt_month dt) (dt_day dt) = true /\
      dt_hour dt < 24 /\ dt_minute dt < 60 /\ dt_second dt < 60 /\ dt_microsecond dt < 1000000
  | _ => True
  end.

(** ** Lemmas *)

Lemma first_some_Some {A B} (f : A -> option B) (l : list A) (b : B) :
  first_some f l = Some b -> exists x, x ∈ l /\ f x = Some b.
Proof.
  induction l as [|x l IH]; simpl; [discriminate|].
  destruct (f x) eqn:E; [intros [= <-]; exists x; split; [set_solver|done]|].
  intros H. destruct (IH H) as (y & ? & ?). exists y. split; [set_solver|done].
Qed.

Lemma first_some_None {A B} (f : A -> option B) (l : list A) :
  (forall x, x ∈ l -> f x = None) -> first_some f l = None.
Proof.
  induction l as [|x l IH]; simpl; [done|]. intros Hl.
  rewrite Hl by set_solver. apply IH. set_solver.
Qed.

Lemma strptime_valid (data fmt : ustr) (dt : DateTime) :
  strptime data fmt = Some dt -> valid_date (dt_year dt) (dt_month dt) (dt_day dt) = true.
Proof.
  unfold strptime. intros H.
  repeat case_match; simplify_eq; simpl; rewrite !andb_true_iff in *; tauto.
Qed.

Lemma match_seq_suffix (k : list cls) (s s' : ustr) :
  match_seq k s = Some s' -> exists p, s = p ++ s'.
Proof.
  revert s. induction k as [|c k IH]; intros [|x s]; simpl; try discriminate.
  - intros [= <-]. by exists [].
  - intros [= <-]. by exists [].
  - destruct (cls_match c x); [|discriminate].
    intros (p & ->)%IH. by exists (x :: p).
Qed.

(** A pattern with a [\s+] never matches a string without whitespace. *)
Lemma match_items_no_ws (its : list item) (s : ustr) (caps : captures) :
  no_space s -> IWs ∈ its -> match_items its s caps = None.
Proof.
  revert s caps. induction its as [|it its IH]; intros s caps Hs Hin; [set_solver|].
  apply elem_of_cons in Hin. destruct it as [c| |d]; simpl.
  - destruct Hin as [?|Hin]; [discriminate|]. destruct s as [|x s]; [done|].
    inv Hs. case_match; [by apply IH|done].
  - destruct s as [|x s]; [done|]. inv Hs. simpl. by rewrite H1.
  - destruct Hin as [?|Hin]; [discriminate|]. apply first_some_None. intros alt _.
    destruct (match_seq alt s) as [s'|] eqn:E; [|done].
    apply match_seq_suffix in E as [p ->]. apply IH; [|done].
    by apply Forall_app in Hs as [_ ?].
Qed.

(** The group of [%Y] takes a four-digit year. *)
Lemma match_year (y : N) (rest : list item) (r : ustr) (caps : captures) res :
  1000 <= y <= 9999 ->
  match_items rest r (caps ++ [(DY, dec y)]) = Some res ->
  match_items (IGroup DY :: rest) (dec y ++ r) caps = Some res.
Proof.
  intros Hy Hr. destruct (dec_four_digits y Hy) as (a & b & c & d & Ha & Hb & Hc & Hd & Hdec & _).
  rewrite Hdec in *. cbn [match_items first_some alts match_seq cls_match app firstn length].
  rewrite (proj1 (ascii_digit a Ha)), (proj1 (ascii_digit b Hb)),
    (proj1 (ascii_digit c Hc)), (proj1 (ascii_digit d Hd)).
  cbn. by rewrite firstn_O, Hr.
Qed.

(** The groups of [%m] and [%d] take a two-digit month or day when the
    rest of the pattern then matches. *)
Lemma match_month (m : N) (rest : list item) (r : ustr) (caps : captures) res :
  1 <= m <= 12 ->
  match_items rest r (caps ++ [(Dm, pad_dec 2 m)]) = Some res ->
  match_items (IGroup Dm :: rest) (pad_dec 2 m ++ r) caps = Some res.
Proof.
  intros Hm. revert rest r caps res.
  enum_range m 1 12%nat ltac:(intros ???? Hr; eval_pad; cbn in *; eval_isdigit; cbn; by rewrite ?firstn_O, Hr).
Qed.

Lemma match_day (d : N) (rest : list item) (r : ustr) (caps : captures) res :
  1 <= d <= 31 ->
  match_items rest r (caps ++ [(Dd, pad_dec 2 d)]) = Some res ->
  match_items (IGroup Dd :: rest) (pad_dec 2 d ++ r) caps = Some res.
Proof.
  intros Hd. revert rest r caps res.
  enum_range d 1 31%nat ltac:(intros ???? Hr; eval_pad; cbn in *; eval_isdigit; cbn; by rewrite ?firstn_O, Hr).
Qed.

(** A day from 13 on is not a month: the one-digit alternative of [%m]
    leaves a digit where the pattern wants a slash. *)
Lemma month_rejects (a : N) (rest : list item) (r : ustr) (caps : captures) :
  13 <= a <= 31 ->
  match_items (IGroup Dm :: ILit 47 :: rest) (pad_dec 2 a ++ [47] ++ r) caps = None.
Proof.
  intros Ha. revert rest r caps.
  enum_range a 13 19%nat ltac:(intros ???; eval_pad; cbn; eval_isdigit; reflexivity).
Qed.

(** [%Y] needs four digits and a two-digit field is followed by a slash. *)
Lemma year_rejects (a : N) (rest : list item) (r : ustr) (caps : captures) :
  1 <= a <= 31 -> match_items (IGroup DY :: rest) (pad_dec 2 a ++ [47] ++ r) caps = None.
Proof.
  intros Ha. revert rest r caps.
  enum_range a 1 31%nat ltac:(intros ???; eval_pad; cbn; eval_isdigit; reflexivity).
Qed.

Lemma match_lit (c : N) (rest : list item) (s : ustr) (caps : captures) :
  match_items (ILit c :: rest) (c :: s) caps = match_items rest s caps.
Proof. cbn. by rewrite N.eqb_refl. Qed.

Lemma int_of_pad (n : N) : 1 <= n <= 31 -> int_of_digits (pad_dec 2 n) = n.
Proof. intros Hn. enum_range n 1 31%nat ltac:(vm_compute; reflexivity). Qed.

Lemma int_of_dec_year (y : N) : 1000 <= y <= 9999 -> int_of_digits (dec y) = y.
Proof.
  intros Hy. destruct (dec_four_digits y Hy) as (a & b & c & d & ? & ? & ? & ? & Hd & Hv).
  rewrite Hd, Hv. by apply int_of_four_digits.
Qed.

Lemma valid_date_bounds (y m d : N) :
  valid_date y m d = true -> 1 <= y <= 9999 /\ 1 <= m <= 12 /\ 1 <= d <= 31.
Proof.
  unfold valid_date. rewrite !andb_true_iff, !N.leb_le. intros (((((? & ?) & ?) & ?) & ?) & Hd).
  split_and!; try lia.
  enough (days_in_month y m <= 31) by lia.
  unfold days_in_month. destruct (_ && _); [lia|].
  destruct (nth_in_or_default (N.to_nat m) days_before_table 0) as [Hin| ->]; [|lia].
  cbn [In days_before_table] in Hin. repeat (destruct Hin as [<-|Hin]; [lia|]). contradiction.
Qed.

(** The characters of printed dates: digits, '-' and '/'. *)
Definition date_chars (s : ustr) : Prop := Forall (fun c => 45 <= c < 58) s.

Lemma date_chars_props (s : ustr) :
  date_chars s -> no_space s /\ Forall (fun c => c < 65) s.
Proof.
  intros Hs. split; eapply Forall_impl; eauto; simpl; intros c Hc; [|lia].
  enum_range c 45 13%nat ltac:(reflexivity).
Qed.

Lemma date_chars_pad (n : N) : 1 <= n <= 31 -> date_chars (pad_dec 2 n).
Proof. intros Hn. enum_range n 1 31%nat ltac:(eval_pad; repeat constructor; lia). Qed.

Lemma date_chars_year (y : N) : 1000 <= y <= 9999 -> date_chars (dec y).
Proof.
  intros Hy. destruct (dec_four_digits y Hy) as (a & b & c & d & ? & ? & ? & ? & -> & _).
  repeat constructor; lia.
Qed.

#[export] Hint Resolve date_chars_pad date_chars_year : pystr.

Lemma date_chars_app (s t : ustr) : date_chars s -> date_chars t -> date_chars (s ++ t).
Proof. apply Forall_app_2. Qed.

Lemma date_chars_sep (c : N) : 45 <= c < 58 -> date_chars [c].
Proof. repeat constructor; lia. Qed.

(** A string of date characters that begins with a digit passes the
    checks of [parse_date_cell] that come before the formats. *)
Lemma parse_date_cell_str (s : ustr) (c : N) (r : ustr) :
  s = c :: r -> 48 <= c < 58 -> date_chars s ->
  parse_date_cell (VStr s) =
  first_some (fun pattern => option_map strftime_ymd (strptime s pattern)) date_patterns.
Proof.
  intros Hs Hc (Hns & Hlow)%date_chars_props. unfold parse_date_cell. cbn [truthy py_str].
  rewrite bool_decide_eq_true_2 by (rewrite Hs; discriminate). cbn [negb].
  rewrite strip_no_space, lower_small by done.
  rewrite bool_decide_eq_false_2 by (rewrite Hs; discriminate).
  rewrite bool_decide_eq_false_2; [done|].
  rewrite Hs, !elem_of_cons, elem_of_nil. intros [H|[H|[H|[]]]]; first [discriminate H | injection H as H' _; lia].
Qed.

Lemma strptime_no_ws (data fmt : ustr) (its : list item) :
  compile_format false fmt = Some its -> IWs ∈ its -> no_space data -> strptime data fmt = None.
Proof. intros Hc Hin Hs. unfold strptime. by rewrite Hc, match_items_no_ws. Qed.

Lemma strptime_date (data fmt : ustr) (its : list item) (caps : captures) (y m d : N) :
  compile_format false fmt = Some its -> match_items its data [] = Some (caps, []) ->
  group_value caps DY = Some y -> group_value caps Dm = Some m -> group_value caps Dd = Some d ->
  group_value caps DH = None -> group_value caps DM = None -> group_value caps DS = None ->
  valid_date y m d = true -> strptime data fmt = Some (mkDateTime y m d 0 0 0 0).
Proof.
  intros Hc Hm Hy Hmo Hd HH HM HS Hv. unfold strptime.
  rewrite Hc, Hm, Hy, Hmo, Hd, HH, HM, HS. cbn [default id]. by rewrite Hv.
Qed.

Lemma parse_date_cell_shape (v : CellValue) (s : ustr) :
  value_wf v -> parse_date_cell v = Some s ->
  exists y m d, valid_date y m d = true /\ s = ymd y m d.
Proof.
  intros Hwf. unfold parse_date_cell.
  destruct (negb (truthy v)); [discriminate|].
  destruct v; try (destruct (_ || _); [discriminate|];
    intros (pat & _ & Hp)%first_some_Some;
    destruct (strptime _ pat) as [dt|] eqn:E; [|discriminate];
    injection Hp as <-; eexists _, _, _; split; [eapply strptime_valid; eauto|done]).
  intros [= <-]. destruct Hwf as [Hv _]. eauto.
Qed.

(** C7: Whatever the cell holds, a date that [parse_date_cell] returns is
    the printed form of a valid Gregorian date with a year in 1..9999. *)
Theorem parse_date_cell_valid (v : CellValue) (s : ustr) :
  value_wf v -> parse_date_cell v = Some s ->
  exists y m d, valid_date y m d = true /\ s = ymd y m d.
Proof. apply parse_date_cell_shape. Qed.

Lemma parse_date_cell_valid_witness :
  exists y m d, valid_date y m d = true /\ u "2024-03-05" = ymd y m d.
Proof. apply (parse_date_cell_valid (VStr (u "03/05/2024"))); [exact I|reflexivity]. Defined.

(** ** The three date shapes *)

(** A date written with slashes, two-digit fields first. *)
Definition slash (a b y : N) : ustr := pad_dec 2 a ++ [47] ++ pad_dec 2 b ++ [47] ++ dec y.

Lemma compile_patterns :
  map (compile_format false) date_patterns =
  [Some [IGroup DY; ILit 45; IGroup Dm; ILit 45; IGroup Dd; IWs;
         IGroup DH; ILit 58; IGroup DM; ILit 58; IGroup DS];
   Some [IGroup DY; ILit 45; IGroup Dm; ILit 45; IGroup Dd];
   Some [IGroup Dm; ILit 47; IGroup Dd; ILit 47; IGroup DY];
   Some [IGroup Dd; ILit 47; IGroup Dm; ILit 47; IGroup DY]].
Proof. reflexivity. Qed.

Lemma strptime_fail (data fmt : ustr) (its : list item) :
  compile_format false fmt = Some its -> match_items its data [] = None -> strptime data fmt = None.
Proof. intros Hc Hm. unfold strptime. by rewrite Hc, Hm. Qed.

Lemma match_ymd (y m d : N) :
  1000 <= y <= 9999 -> 1 <= m <= 12 -> 1 <= d <= 31 ->
  match_items [IGroup DY; ILit 45; IGroup Dm; ILit 45; IGroup Dd] (ymd y m d) [] =
  Some ([(DY, dec y); (Dm, pad_dec 2 m); (Dd, pad_dec 2 d)], []).
Proof.
  intros. unfold ymd. apply match_year; [lia|]. cbn [app]. rewrite match_lit.
  apply match_month; [lia|]. cbn [app]. rewrite match_lit.
  rewrite <- (app_nil_r (pad_dec 2 d)) at 1. by apply match_day; [lia|].
Qed.

Lemma match_mdy (a b y : N) :
  1 <= a <= 12 -> 1 <= b <= 31 -> 1000 <= y <= 9999 ->
  match_items [IGroup Dm; ILit 47; IGroup Dd; ILit 47; IGroup DY] (slash a b y) [] =
  Some ([(Dm, pad_dec 2 a); (Dd, pad_dec 2 b); (DY, dec y)], []).
Proof.
  intros. unfold slash. apply match_month; [lia|]. cbn [app]. rewrite match_lit.
  apply match_day; [lia|]. cbn [app]. rewrite match_lit.
  rewrite <- (app_nil_r (dec y)) at 1. by apply match_year; [lia|].
Qed.

Lemma match_dmy (a b y : N) :
  1 <= a <= 31 -> 1 <= b <= 12 -> 1000 <= y <= 9999 ->
  match_items [IGroup Dd; ILit 47; IGroup Dm; ILit 47; IGroup DY] (slash a b y) [] =
  Some ([(Dd, pad_dec 2 a); (Dm, pad_dec 2 b); (DY, dec y)], []).
Proof.
  intros. unfold slash. apply match_day; [lia|]. cbn [app]. rewrite match_lit.
  apply match_month; [lia|]. cbn [app]. rewrite match_lit.
  rewrite <- (app_nil_r (dec y)) at 1. by apply match_year; [lia|].
Qed.

(** Reads a group out of the captures of a date match. *)
Ltac solve_group :=
  first [assumption | unfold group_value; simpl];
  first [assumption | reflexivity | rewrite int_of_dec_year by lia; reflexivity
        | rewrite int_of_pad by lia; reflexivity].

(** [strptime] returns the date of a matched date-only format. *)
Ltac strptime_ok its mlemma y m d :=
  erewrite (strptime_date _ _ its _ y m d); [| reflexivity | apply mlemma; lia | solve_group ..].

(** Date characters of a concatenation of printed fields and separators. *)
Ltac date_chars_tac :=
  repeat first [ apply date_chars_pad; lia | apply date_chars_year; lia
               | apply date_chars_sep; lia | apply date_chars_app ].

Lemma ymd_head (y m d : N) :
  1000 <= y <= 9999 -> exists c r, ymd y m d = c :: r /\ 48 <= c < 58.
Proof.
  intros Hy. destruct (dec_four_digits y Hy) as (a & b & c & d' & ? & ? & ? & ? & Hd & _).
  unfold ymd. rewrite Hd. eexists _, _. split; [reflexivity|lia].
Qed.

Lemma date_chars_ymd (y m d : N) :
  1000 <= y <= 9999 -> 1 <= m <= 12 -> 1 <= d <= 31 -> date_chars (ymd y m d).
Proof.
  intros. unfold ymd. date_chars_tac.
Qed.

Lemma slash_head (a b y : N) : 1 <= a <= 31 -> exists c r, slash a b y = c :: r /\ 48 <= c < 58.
Proof.
  intros Ha. unfold slash. revert b y.
  enum_range a 1 31%nat ltac:(intros b y; eval_pad; eexists _, _; split; [reflexivity|lia]).
Qed.

Lemma date_chars_slash (a b y : N) :
  1 <= a <= 31 -> 1 <= b <= 31 -> 1000 <= y <= 9999 -> date_chars (slash a b y).
Proof.
  intros. unfold slash. date_chars_tac.
Qed.

(** ** Properties of the date parser *)

(** C8: Print/parse round trip: a valid date from year 1000 on, printed as
    [parse_date_cell] prints it, is parsed back to itself; so every such
    output of [parse_date_cell] is a fixed point of it. *)
Theorem parse_date_cell_roundtrip (y m d : N) :
  1000 <= y -> valid_date y m d = true ->
  parse_date_cell (VStr (ymd y m d)) = Some (ymd y m d).
Proof.
  intros Hy1 Hv. destruct (valid_date_bounds y m d Hv) as (Hy & Hm & Hd).
  destruct (ymd_head y m d) as (c & r & Hs & Hc); [lia|].
  pose proof (date_chars_ymd y m d ltac:(lia) Hm Hd) as Hch.
  rewrite (parse_date_cell_str _ c r) by done. cbn [first_some date_patterns].
  rewrite (strptime_no_ws _ _ (IGroup DY :: ILit 45 :: IGroup Dm :: ILit 45 :: IGroup Dd ::
    IWs :: IGroup DH :: ILit 58 :: IGroup DM :: ILit 58 :: IGroup DS :: []));
    [|reflexivity|set_solver|exact (proj1 (date_chars_props _ Hch))].
  cbn [option_map]. strptime_ok (IGroup DY :: ILit 45 :: IGroup Dm :: ILit 45 :: IGroup Dd :: [])
    match_ymd y m d; done.
Qed.

Lemma parse_date_cell_roundtrip_witness :
  parse_date_cell (VStr (ymd 2024 1 10)) = Some (u "2024-01-10").
Proof. apply (parse_date_cell_roundtrip 2024 1 10); [lia|reflexivity]. Defined.

(** Slash dates are read month first: when the first field can be a
    month, "MM/DD/YYYY" wins, so "03/05/2024" is 5 March 2024. *)
Theorem parse_date_cell_month_first (a b y : N) :
  1 <= a <= 12 -> 1000 <= y -> valid_date y a b = true ->
  parse_date_cell (VStr (slash a b y)) = Some (ymd y a b).
Proof.
  intros Ha Hy1 Hv. destruct (valid_date_bounds y a b Hv) as (Hy & _ & Hb).
  destruct (slash_head a b y) as (c & r & Hs & Hc); [lia|].
  rewrite (parse_date_cell_str _ c r) by (done || apply date_chars_slash; lia).
  cbn [first_some date_patterns].
  rewrite !(strptime_fail (slash a b y) _ (IGroup DY :: _)) by
    (reflexivity || (unfold slash; apply year_rejects; lia)).
  cbn [option_map]. strptime_ok (IGroup Dm :: ILit 47 :: IGroup Dd :: ILit 47 :: IGroup DY :: [])
    match_mdy y a b; done.
Qed.

Lemma parse_date_cell_month_first_witness :
  parse_date_cell (VStr (u "03/05/2024")) = Some (u "2024-03-05").
Proof. apply (parse_date_cell_month_first 3 5 2024); [lia|lia|reflexivity]. Defined.

(** The day-first format is the fallback: a slash date whose first
    field is 13 to 31 is read as DD/MM/YYYY. *)
Theorem parse_date_cell_day_first (a b y : N) :
  13 <= a -> 1000 <= y -> valid_date y b a = true ->
  parse_date_cell (VStr (slash a b y)) = Some (ymd y b a).
Proof.
  intros Ha Hy1 Hv. destruct (valid_date_bounds y b a Hv) as (Hy & Hb & Ha').
  destruct (slash_head a b y) as (c & r & Hs & Hc); [lia|].
  rewrite (parse_date_cell_str _ c r) by (done || apply date_chars_slash; lia).
  cbn [first_some date_patterns].
  rewrite !(strptime_fail (slash a b y) _ (IGroup DY :: _)) by
    (reflexivity || (unfold slash; apply year_rejects; lia)).
  rewrite (strptime_fail (slash a b y) _ (IGroup Dm :: ILit 47 :: IGroup Dd :: ILit 47 :: IGroup DY :: []))
    by (reflexivity || (unfold slash; apply month_rejects; lia)).
  cbn [option_map]. strptime_ok (IGroup Dd :: ILit 47 :: IGroup Dm :: ILit 47 :: IGroup DY :: [])
    match_dmy y b a; done.
Qed.

Lemma parse_date_cell_day_first_witness :
  parse_date_cell (VStr (u "13/05/2024")) = Some (u "2024-05-13").
Proof. apply (parse_date_cell_day_first 13 5 2024); [lia|lia|reflexivity]. Defined.

(** Before year 1000 the printed date leaves the YYYY-MM-DD form:
    "0999-12-31" is printed "999-12-31", which the parser itself rejects. *)
Theorem parse_date_cell_short_year :
  parse_date_cell (VStr (u "0999-12-31")) = Some (u "999-12-31") /\
  parse_date_cell (VStr (u "999-12-31")) = None.
Proof. split; reflexivity. Qed.

End DateParse.
