(* ===== verification/Sheet.v ===== *)
(** * Worksheets and the column and start-row sniffers

    [src/excel_to_json_converter.py], lines 136-173.  A worksheet is what
    the sniffers read of an openpyxl sheet: [max_row], [max_column] and
    [cell(row, col)].  [find_data_start_row] scans rows 1..19 and columns
    1..9 row by row and returns the first row with a parsable date, or 5.
    [find_date_and_commitment_columns] scans columns 1..9 and rows 1..9
    column by column, keeping the first column that holds a date and the
    first that holds a long commitment-like string. *)

From Stdlib Require Import NArith Lia String.
From stdpp Require Import base list sets.
From S2P Require Import Prelude Cell Emoji DateParse.
Import Cell Emoji DateParse.

Open Scope N_scope.

Module Sheet.

Record Worksheet := mkWorksheet {
  max_row : nat; max_column : nat; cell : nat -> nat -> Cell
}.

(** Python's [range(a, b)]. *)
Definition range (a b : nat) : list nat := seq a (b - a).

(** [if parse_date_cell(value):] *)
Definition date_found (v : CellValue) : bool :=
  match parse_date_cell v with Some s => bool_decide (s <> []) | None => false end.

Definition start_rows (ws : Worksheet) : list nat := range 1 (Nat.min 20 (max_row ws + 1)).
Definition window_cols (ws : Worksheet) : list nat := range 1 (Nat.min 10 (max_column ws + 1)).

(** The first row of the scan with a date in one of the scanned columns. *)
Definition first_date_row (ws : Worksheet) : option nat :=
  find (fun r => existsb (fun c => date_found (value (cell ws r c))) (window_cols ws))
       (start_rows ws).

Definition find_data_start_row (ws : Worksheet) : nat :=
  match first_date_row ws with Some r => r | None => 5%nat end.

(** The commitment test of lines 167-170. *)
Definition commitment_like (v : CellValue) : bool :=
  match v with
  | VStr s => bool_decide (s <> []) && (50 <? length s)%nat && (py_in CHECK s || py_in CROSS s)
  | _ => false
  end.

Definition window_rows (ws : Worksheet) : list nat := range 1 (Nat.min 10 (max_row ws + 1)).

(** One iteration of the inner loop at [(col, row)]: the two [if]s. *)
Definition sniff_step (ws : Worksheet) (st : option nat * option nat) (cr : nat * nat) :
    option nat * option nat :=
  let '(col, row) := cr in
  let v := value (cell ws row col) in
  let date_col := if date_found v && negb (bool_decide (is_Some st.1)) then Some col else st.1 in
  let commitment_col :=
    if commitment_like v && negb (bool_decide (is_Some st.2)) then Some col else st.2 in
  (date_col, commitment_col).

(** Columns outer, rows inner, as the two [for] loops. *)
Definition find_date_and_commitment_columns (ws : Worksheet) : option nat * option nat :=
  fold_left (sniff_step ws) (list_prod (window_cols ws) (window_rows ws)) (None, None).

(** ** Lemmas *)

Lemma find_pair_map (p : nat -> nat -> bool) (c : nat) (rs : list nat) :
  find (fun cr => p cr.1 cr.2) (map (fun r => (c, r)) rs) =
  match find (p c) rs with Some r => Some (c, r) | None => None end.
Proof. induction rs as [|r rs IH]; simpl; [done|]. by destruct (p c r). Qed.

Lemma existsb_find {A} (p : A -> bool) (l : list A) :
  existsb p l = match find p l with Some _ => true | None => false end.
Proof. induction l as [|x l IH]; simpl; [done|]. by destruct (p x). Qed.

(** The first hit of a row-inner scan of [list_prod] is in the first column
    that has a hit. *)
Lemma find_list_prod (p : nat -> nat -> bool) (cs rs : list nat) :
  option_map fst (find (fun cr => p cr.1 cr.2) (list_prod cs rs)) =
  find (fun c => existsb (p c) rs) cs.
Proof.
  induction cs as [|c cs IH]; simpl; [done|].
  rewrite find_app, find_pair_map, existsb_find. by destruct (find (p c) rs).
Qed.

(** The fold keeps the first column found for each category. *)
Lemma fold_sniff (ws : Worksheet) (l : list (nat * nat)) (st : option nat * option nat) :
  fold_left (sniff_step ws) l st =
  (match st.1 with
   | Some c => Some c
   | None => option_map fst (find (fun cr => date_found (value (cell ws cr.2 cr.1))) l)
   end,
   match st.2 with
   | Some c => Some c
   | None => option_map fst (find (fun cr => commitment_like (value (cell ws cr.2 cr.1))) l)
   end).
Proof.
  revert st. induction l as [|[c r] l IH]; intros [d k]; [by destruct d, k|].
  cbn [fold_left]. rewrite IH. unfold sniff_step.
  destruct d, k; simpl;
    destruct (date_found (value (cell ws r c))), (commitment_like (value (cell ws r c))); done.
Qed.

Lemma find_seq_le (p : nat -> bool) (a n r0 : nat) :
  p r0 = true -> (a <= r0 < a + n)%nat -> exists r, find p (seq a n) = Some r /\ (a <= r <= r0)%nat.
Proof.
  revert a. induction n as [|n IH]; intros a Hp Hr; [lia|]. simpl.
  destruct (p a) eqn:E; [exists a; split; [done|lia]|].
  destruct (decide (r0 = a)) as [->|Hne]; [congruence|].
  destruct (IH (S a)) as (r & ? & ?); [done|lia|]. exists r. split; [done|lia].
Qed.

Lemma find_in_range (p : nat -> bool) (a b r : nat) :
  find p (range a b) = Some r -> (a <= r < b)%nat /\ p r = true.
Proof.
  unfold range. intros H. destruct (find_some _ _ H) as [Hin Hp].
  apply in_seq in Hin. split; [lia|done].
Qed.

(** ** Properties of the sniffers *)

(** C9: The column sniffer's loop computes, for each category, the first
    column of the window (1..min(9, max_column)) in which some row of
    1..min(9, max_row) qualifies: a date for the date column, a long
    commitment-like string for the commitment column. *)
Theorem find_columns_first_hit (ws : Worksheet) :
  find_date_and_commitment_columns ws =
  (find (fun c => existsb (fun r => date_found (value (cell ws r c))) (window_rows ws)) (window_cols ws),
   find (fun c => existsb (fun r => commitment_like (value (cell ws r c))) (window_rows ws)) (window_cols ws)).
Proof.
  unfold find_date_and_commitment_columns. rewrite fold_sniff. simpl.
  by rewrite !(find_list_prod (fun c r => _ (value (cell ws r c)))).
Qed.

(** C10: The sniffers stay in their windows: a date or commitment column is
    in 1..9 and at most [max_column]; a start row found by the scan is in
    1..19 and at most [max_row]; otherwise the start row is 5. *)
Theorem sniffer_bounds (ws : Worksheet) :
  (forall c, (find_date_and_commitment_columns ws).1 = Some c ->
     (1 <= c <= 9 /\ c <= max_column ws)%nat) /\
  (forall c, (find_date_and_commitment_columns ws).2 = Some c ->
     (1 <= c <= 9 /\ c <= max_column ws)%nat) /\
  (find_data_start_row ws = 5%nat \/
   exists r, first_date_row ws = Some r /\ find_data_start_row ws = r /\
     (1 <= r <= 19 /\ r <= max_row ws)%nat).
Proof.
  rewrite find_columns_first_hit. simpl. split_and!.
  - intros c (? & _)%find_in_range. lia.
  - intros c (? & _)%find_in_range. lia.
  - unfold find_data_start_row. destruct (first_date_row ws) as [r|] eqn:E; [right|by left].
    exists r. do 2 (split; [done|]). unfold first_date_row, start_rows in E.
    apply find_in_range in E. lia.
Qed.

Lemma sniffer_bounds_witness :
  let ws := mkWorksheet 3 2 (fun r c => mkCell (if (r =? 2)%nat && (c =? 1)%nat
                                                 then VStr (u "2024-01-10") else VNone) no_fill) in
  (find_date_and_commitment_columns ws).1 = Some 1%nat /\ (1 <= 1 <= 9 /\ 1 <= max_column ws)%nat.
Proof.
  intros ws. split; [reflexivity|].
  apply (proj1 (sniffer_bounds ws) 1%nat). reflexivity.
Defined.

(** On a sheet with a date column the start-row scan always succeeds
    within rows 1..9, so the fallback row 5 of [find_data_start_row] is only
    taken on sheets the converter skips. *)
Theorem start_row_found (ws : Worksheet) (c : nat) :
  (find_date_and_commitment_columns ws).1 = Some c ->
  exists r, first_date_row ws = Some r /\ find_data_start_row ws = r /\ (1 <= r <= 9)%nat.
Proof.
  rewrite find_columns_first_hit. simpl. intros Hc.
  destruct (find_some _ _ Hc) as [Hcin Hex]. apply existsb_exists in Hex as (r0 & Hr0 & Hd).
  unfold window_rows, window_cols, range in *. apply in_seq in Hr0, Hcin.
  destruct (find_seq_le (fun r => existsb (fun c => date_found (value (cell ws r c)))
                                   (window_cols ws)) 1 (Nat.min 20 (max_row ws + 1) - 1) r0)
    as (r & Hr & ?).
  - apply existsb_exists. exists c. split; [unfold window_cols, range; apply in_seq; lia|done].
  - lia.
  - exists r. unfold find_data_start_row, first_date_row, start_rows, range. rewrite Hr. split_and!; done || lia.
Qed.

Lemma start_row_found_witness :
  let ws := mkWorksheet 3 2 (fun r c => mkCell (if (r =? 2)%nat && (c =? 1)%nat
                                                 then VStr (u "2024-01-10") else VNone) no_fill) in
  exists r, first_date_row ws = Some r /\ find_data_start_row ws = r /\ (1 <= r <= 9)%nat.
Proof. intros ws. apply (start_row_found ws 1%nat). reflexivity. Defined.

(** A sheet whose only dates are in column 10 (row 1) and in row 20
    (column 1). *)
Definition edge_sheet : Worksheet :=
  mkWorksheet 20 10 (fun r c =>
    mkCell (if ((r =? 1) && (c =? 10)) || ((r =? 20) && (c =? 1)) then VStr (u "2024-01-10")
            else VNone)%nat no_fill).

(** A search's result depends only on the predicate on the list. *)
Lemma find_ext_in {A} (p q : A -> bool) (l : list A) :
  (forall x, In x l -> p x = q x) -> find p l = find q l.
Proof.
  induction l as [|x l IH]; intros H; simpl; [done|]. rewrite (H x) by (by left).
  destruct (q x); [done|]. apply IH. intros y Hy. apply H. by right.
Qed.

Lemma existsb_ext_in {A} (p q : A -> bool) (l : list A) :
  (forall x, In x l -> p x = q x) -> existsb p l = existsb q l.
Proof.
  induction l as [|x l IH]; intros H; simpl; [done|]. rewrite (H x) by (by left).
  f_equal. apply IH. intros y Hy. apply H. by right.
Qed.

Lemma in_range (a b x : nat) : In x (range a b) -> (a <= x < b)%nat.
Proof. unfold range. rewrite in_seq. lia. Qed.

(** C11: The sniffers read only rows 1..19 and columns 1..9 (rows 1..9
    for the column search): two sheets of the same dimensions whose cell
    values agree there get the same date and commitment columns and the
    same start row, whatever their other cells hold.  A date in column 10
    or in row 20, which the spec's "first 10 columns" and "first 20 rows"
    include, is never seen. *)
Theorem sniffers_read_window (ws ws' : Worksheet) :
  max_row ws = max_row ws' -> max_column ws = max_column ws' ->
  (forall r c, (1 <= r <= 19)%nat -> (1 <= c <= 9)%nat -> value (cell ws r c) = value (cell ws' r c)) ->
  find_date_and_commitment_columns ws = find_date_and_commitment_columns ws' /\
  find_data_start_row ws = find_data_start_row ws'.
Proof.
  intros Hr Hc Hv. split.
  - rewrite !find_columns_first_hit. unfold window_cols, window_rows. rewrite Hr, Hc.
    f_equal; apply find_ext_in; intros c Hin; apply existsb_ext_in; intros r Hin';
      apply in_range in Hin, Hin'; by rewrite Hv by lia.
  - unfold find_data_start_row, first_date_row, start_rows, window_cols. rewrite Hr, Hc.
    erewrite find_ext_in; [done|]. intros r Hin. apply existsb_ext_in. intros c Hin'.
    apply in_range in Hin, Hin'. by rewrite Hv by lia.
Qed.

(** [edge_sheet] with its two dates removed. *)
Definition blank_sheet : Worksheet := mkWorksheet 20 10 (fun _ _ => mkCell VNone no_fill).

Lemma sniffers_read_window_witness :
  find_date_and_commitment_columns edge_sheet = find_date_and_commitment_columns blank_sheet /\
  find_data_start_row edge_sheet = find_data_start_row blank_sheet.
Proof.
  apply sniffers_read_window; [done|done|]. intros r c Hr Hc. simpl.
  rewrite (proj2 (Nat.eqb_neq c 10)), (proj2 (Nat.eqb_neq r 20)) by lia. by rewrite !andb_false_r.
Defined.

End Sheet.
