(* ===== verification/Converter.v ===== *)
(** * The sheet walker: [convert_excel_to_json]

    [src/excel_to_json_converter.py], lines 176-228.  For each sheet, in
    workbook order: sniff the columns, skip the sheet when there is no date
    column, find the start row, and walk the rows from there to [max_row];
    a row whose date cell parses contributes
    [user_data[date_str] = {"attendance": .., "commitments": [..]}], with
    attendance from the colour of the date cell and commitments from the
    commitment column when there is one.  A sheet with entries is stored
    under its name.  Both dicts are insertion-ordered; assigning an existing
    key replaces its value in place. *)

From Stdlib Require Import NArith Lia String.
From stdpp Require Import base list sets.
From S2P Require Import Prelude Cell Color Emoji DateParse Sheet.
Import Cell Emoji DateParse Sheet.

Open Scope N_scope.

Module Converter.

(** [{"attendance": .., "commitments": [..]}] *)
Record DayEntry := mkDayEntry { attendance : ustr; commitments : list Commitment }.

Abbreviation user_data := (list (ustr * DayEntry)).

(** What one row contributes: its date key and entry, or [None] for
    [continue]. *)
Definition row_entry (ws : Worksheet) (date_col : nat) (commitment_col : option nat) (row : nat) :
    option (ustr * DayEntry) :=
  let date_cell := cell ws row date_col in
  match parse_date_cell (value date_cell) with
  | Some date_str =>
      if bool_decide (date_str = []) then None
      else
        let attendance := Color.detect_attendance_from_color date_cell in
        let commitments :=
          match commitment_col with
          | Some cc => parse_commitments_column (cell ws row cc)
          | None => []
          end in
        Some (date_str, mkDayEntry attendance commitments)
  | None => None
  end.

(** The loop of lines 201-220. *)
Definition process_rows (ws : Worksheet) (date_col : nat) (commitment_col : option nat)
    (rows : list nat) : user_data :=
  fold_left (fun ud row =>
    match row_entry ws date_col commitment_col row with
    | Some (k, e) => dict_set k e ud
    | None => ud
    end) rows [].

(** The body of the sheet loop: [None] for a sheet that is skipped. *)
Definition convert_sheet (ws : Worksheet) : option user_data :=
  let '(date_col, commitment_col) := find_date_and_commitment_columns ws in
  match date_col with
  | None => None
  | Some dc =>
      let data_start_row := find_data_start_row ws in
      let ud := process_rows ws dc commitment_col (range data_start_row (max_row ws + 1)) in
      if bool_decide (ud = []) then None else Some ud
  end.

(** A workbook: its sheets in [workbook.sheetnames] order. *)
Abbreviation Workbook := (list (ustr * Worksheet)).

Definition convert_excel_to_json (wb : Workbook) : list (ustr * user_data) :=
  fold_left (fun result '(sheet_name, ws) =>
    match convert_sheet ws with
    | Some ud => dict_set sheet_name ud result
    | None => result
    end) wb [].

(** Every cell of the sheet holds a valid Python value. *)
Definition ws_wf (ws : Worksheet) : Prop := forall r c, value_wf (value (cell ws r c)).

(** An entry of the document: a printed valid date and one of the three
    attendance strings. *)
Definition entry_wf (p : ustr * DayEntry) : Prop :=
  (exists y m d, valid_date y m d = true /\ p.1 = ymd y m d) /\
  attendance p.2 ∈ Color.attendance_values.

(** ** Lemmas *)

Lemma process_rows_set_all (ws : Worksheet) (dc : nat) (cc : option nat) (rows : list nat) :
  process_rows ws dc cc rows = dict_set_all [] (omap (row_entry ws dc cc) rows).
Proof.
  unfold process_rows, dict_set_all. generalize (@nil (ustr * DayEntry)).
  induction rows as [|r rows IH]; intros d; [done|]. simpl.
  destruct (row_entry ws dc cc r) as [[k e]|]; simpl; apply IH.
Qed.

Lemma row_entry_wf (ws : Worksheet) (dc : nat) (cc : option nat) (r : nat) p :
  ws_wf ws -> row_entry ws dc cc r = Some p -> entry_wf p.
Proof.
  intros Hwf. unfold row_entry.
  destruct (parse_date_cell _) as [k|] eqn:E; [|discriminate].
  case_bool_decide; [discriminate|]. intros [= <-]. split.
  - simpl. eapply parse_date_cell_shape; [apply Hwf|exact E].
  - apply Color.detect_attendance_values.
Qed.

Lemma convert_sheet_some (ws : Worksheet) (ud : user_data) :
  convert_sheet ws = Some ud ->
  exists dc cc, find_date_and_commitment_columns ws = (Some dc, cc) /\ ud <> [] /\
    ud = dict_set_all [] (omap (row_entry ws dc cc) (range (find_data_start_row ws) (max_row ws + 1))).
Proof.
  unfold convert_sheet. destruct (find_date_and_commitment_columns ws) as [[dc|] cc]; [|discriminate].
  case_bool_decide; [discriminate|]. intros [= <-]. exists dc, cc.
  rewrite process_rows_set_all in *. split_and!; done.
Qed.

(** ** Properties of the converter *)

(** C12: The entries of a converted sheet form a non-empty dict whose
    dates are distinct, each the printed form of a valid date, and whose
    attendance is one of "attended", "not_attended", "unknown". *)
Theorem convert_sheet_wf (ws : Worksheet) (ud : user_data) :
  ws_wf ws -> convert_sheet ws = Some ud ->
  ud <> [] /\ NoDup (map fst ud) /\ Forall entry_wf ud.
Proof.
  intros Hwf (dc & cc & _ & Hne & ->)%convert_sheet_some.
  split_and!; [done|apply dict_set_all_NoDup; constructor|].
  apply Forall_forall. intros p [Hp|Hp]%dict_set_all_elem; [set_solver|].
  apply list_elem_of_omap in Hp as (r & _ & Hr). by eapply row_entry_wf.
Qed.

(** The spec's one-sheet workbook: "Jane Doe" with a green date cell
    2024-01-10 and the commitment cell "<U+2705> Ship feature\n<U+274C>
    Write tests" beside it. *)
Definition jane_sheet : Worksheet :=
  mkWorksheet 1 2 (fun r c =>
    if (c =? 1)%nat then mkCell (VStr (u "2024-01-10")) (mkFill (Some (u "solid")) (u "FF92D050"))
    else mkCell (VStr ([9989] ++ u " Ship feature" ++ [10] ++ [10060] ++ u " Write tests")) no_fill).

Lemma convert_sheet_wf_witness :
  convert_sheet jane_sheet = Some [(u "2024-01-10", mkDayEntry Color.attended [])] /\
  NoDup (map fst [(u "2024-01-10", mkDayEntry Color.attended [])]).
Proof.
  split; [reflexivity|].
  apply (convert_sheet_wf jane_sheet); [intros ??; unfold jane_sheet; simpl; by case_match|reflexivity].
Defined.

(** C13: A date that several rows carry gets the entry of the last of
    them: assigning [user_data[date_str]] again replaces the earlier entry
    (the spec requires distinct dates but says nothing of repeated ones). *)
Theorem convert_sheet_last_row (ws : Worksheet) (ud : user_data) (dc : nat) (cc : option nat) (k : ustr) :
  find_date_and_commitment_columns ws = (Some dc, cc) -> convert_sheet ws = Some ud ->
  dict_get k ud =
  option_map snd (find (fun p => bool_decide (p.1 = k))
    (rev (omap (row_entry ws dc cc) (range (find_data_start_row ws) (max_row ws + 1))))).
Proof.
  intros Hc (dc' & cc' & Hc' & _ & ->)%convert_sheet_some.
  rewrite Hc in Hc'. injection Hc' as <- <-.
  rewrite dict_get_set_all. by destruct (find _ _).
Qed.

(** Two rows with the same date, the second not filled. *)
Definition dup_sheet : Worksheet :=
  mkWorksheet 2 1 (fun r c =>
    mkCell (VStr (u "2024-01-10"))
           (if (r =? 1)%nat then mkFill (Some (u "solid")) (u "FF92D050") else no_fill)).

Lemma convert_sheet_last_row_witness :
  dict_get (u "2024-01-10") [(u "2024-01-10", mkDayEntry Color.unknown [])] =
  Some (mkDayEntry Color.unknown []).
Proof.
  rewrite (convert_sheet_last_row dup_sheet _ 1 None); reflexivity.
Defined.

Definition kept_sheets (wb : Workbook) : list (ustr * user_data) :=
  omap (fun p => (fun ud => (p.1, ud)) <$> convert_sheet p.2) wb.

Lemma fold_convert (wb : Workbook) (d : list (ustr * user_data)) :
  fold_left (fun result '(sheet_name, ws) =>
    match convert_sheet ws with
    | Some ud => dict_set sheet_name ud result
    | None => result
    end) wb d = dict_set_all d (kept_sheets wb).
Proof.
  unfold kept_sheets. revert d. induction wb as [|[n ws] wb IH]; intros d; [done|].
  simpl. destruct (convert_sheet ws); simpl; apply IH.
Qed.

Lemma kept_sheets_keys (wb : Workbook) (k : ustr) :
  k ∈ map fst (kept_sheets wb) -> k ∈ map fst wb.
Proof.
  unfold kept_sheets. induction wb as [|[n ws] wb IH]; simpl; [done|].
  destruct (convert_sheet ws); simpl; rewrite ?elem_of_cons; naive_solver.
Qed.

Lemma kept_sheets_NoDup (wb : Workbook) : NoDup (map fst wb) -> NoDup (map fst (kept_sheets wb)).
Proof.
  induction wb as [|[n ws] wb IH]; simpl; [constructor|]. intros [Hn Hnd]%NoDup_cons.
  unfold kept_sheets in *. simpl. destruct (convert_sheet ws); simpl; [|by apply IH].
  constructor; [|by apply IH]. intros Hk. by apply Hn, kept_sheets_keys.
Qed.

(** For a workbook (sheet names are distinct), the document holds, in
    sheet order, exactly the sheets that [convert_sheet] keeps, each under
    its name. *)
Theorem convert_excel_to_json_sheets (wb : Workbook) :
  NoDup (map fst wb) -> convert_excel_to_json wb = kept_sheets wb.
Proof.
  intros Hnd. unfold convert_excel_to_json. rewrite fold_convert.
  apply dict_set_all_fresh. by apply kept_sheets_NoDup.
Qed.

Lemma convert_excel_to_json_sheets_witness :
  convert_excel_to_json [(u "Jane Doe", jane_sheet); (u "Edge", edge_sheet)] =
  [(u "Jane Doe", [(u "2024-01-10", mkDayEntry Color.attended [])])].
Proof. rewrite convert_excel_to_json_sheets; [reflexivity|by_eval]. Defined.

(** On the spec's end-to-end workbook the commitment cell is shorter
    than the 51 code points the sniffer requires, so no commitment column
    is found and the entry has no commitments (the spec expects "Ship
    feature" and "Write tests"). *)
Theorem spec_scenario_document :
  convert_excel_to_json [(u "Jane Doe", jane_sheet)] =
  [(u "Jane Doe", [(u "2024-01-10", mkDayEntry Color.attended [])])].
Proof. vm_compute. reflexivity. Qed.

(** ** The converter against a declarative reading

    The spec (section 4.5) reads a workbook as: for each sheet, its dated
    rows from the start row on, each date once with the entry of its
    last row, a sheet without a date column or without dated rows left
    out.  [convert_reference] states this without the dict updates of
    the code ([collapse] is the declarative reading of a run of dict
    assignments, [Prelude]). *)

(** The entries the row loop meets, in row order, repetitions included;
    none for a sheet without a date column. *)
Definition dated_rows (ws : Worksheet) : list (ustr * DayEntry) :=
  match find_date_and_commitment_columns ws with
  | (Some dc, cc) => omap (row_entry ws dc cc) (range (find_data_start_row ws) (max_row ws + 1))
  | (None, _) => []
  end.

Definition convert_reference (wb : Workbook) : list (ustr * user_data) :=
  omap (fun p => match collapse (dated_rows p.2) with [] => None | ud => Some (p.1, ud) end) wb.

Lemma convert_sheet_reference (ws : Worksheet) :
  convert_sheet ws = match collapse (dated_rows ws) with [] => None | ud => Some ud end.
Proof.
  unfold convert_sheet, dated_rows. destruct (find_date_and_commitment_columns ws) as [[dc|] cc]; [|done].
  rewrite process_rows_set_all, dict_set_all_collapse.
  by destruct (collapse _); [rewrite bool_decide_eq_true_2|rewrite bool_decide_eq_false_2].
Qed.

(** C14: the workbook loop with its dict updates computes the
    declarative reading: for a workbook (its sheet names are distinct),
    the document holds, in sheet order, one item per sheet that has a
    date column and a dated row, under the sheet's name, whose dates are
    the dated rows' dates, each once in the order of its first row, with
    the entry of its last row. *)
Theorem convert_excel_to_json_reference (wb : Workbook) :
  NoDup (map fst wb) -> convert_excel_to_json wb = convert_reference wb.
Proof.
  intros Hnd. rewrite convert_excel_to_json_sheets by done. unfold kept_sheets, convert_reference.
  apply list_omap_ext, Forall_Forall2_diag, Forall_forall. intros [n ws] _. cbn [fst snd].
  rewrite convert_sheet_reference. by destruct (collapse _).
Qed.

Lemma convert_excel_to_json_reference_witness :
  convert_excel_to_json [(u "Jane Doe", jane_sheet); (u "Edge", edge_sheet)] =
  convert_reference [(u "Jane Doe", jane_sheet); (u "Edge", edge_sheet)].
Proof. apply convert_excel_to_json_reference. by_eval. Defined.

End Converter.
