(* ===== verification/Json.v ===== *)
(** * Python's [json] module on the intermediate document

    The extractor writes its document with
    [json.dump(data, f, indent=2, ensure_ascii=False)]
    ([src/excel_to_json_converter.py], line 248) and both loaders read it
    back with [json.load(f)] ([src/import_scoreboards_to_supabase.py],
    line 347; [src/import_commitments_only.py], line 107).  This file
    models the two library calls on Python's JSON values:

    - [dump]: the encoder [json.dump] runs for an [indent] ([_make_iterencode]
      of [json.encoder]): an item per line, indented by two spaces per
      level, [","] after an item and [": "] after a key, [[]] and [{}] for
      empty containers, and strings escaped by [encode_basestring]: a
      quote or a backslash gets a backslash before it, backspace, form
      feed, newline, carriage return and tab get their two-character
      escapes, the other control characters [\u00XX], and every other
      character is written as it is, since [ensure_ascii] is off;
    - [loads]: the decoder [json.load] runs ([json.decoder] with its C
      scanner): whitespace is [ \t\n\r]; strings are strict (a raw control
      character is an error) with the eight short escapes and [\uXXXX],
      a high surrogate escape followed by a low one giving one character;
      numbers follow [NUMBER_RE], an integer when there is neither a
      fraction nor an exponent; [NaN], [Infinity] and [-Infinity] are
      accepted; an object is built as a [dict] (a repeated key keeps its
      first position and takes its last value); a leading BOM and text
      after the value are errors.

    The decoder's recursion is bounded by a fuel argument; [loads] gives
    it [2 * length s + 1], and [value_total] shows that this never runs
    out.  [loads_dump] is the round trip of the two calls, within the
    recursion and integer-digit limits of CPython that the model does not
    represent ([within_limits]); [iterencode_dump] shows that the chunks
    the generator writes join to [dump]'s text; [dump_chars] bounds the
    characters [dump] writes.
    A float is kept as the text of its literal, since the document holds
    none. *)

From Stdlib Require Import NArith ZArith Lia String.
From stdpp Require Import base list.
From S2P Require Import Prelude.

Open Scope N_scope.

Module Json.

(** Python's JSON values. *)
Inductive Json :=
| JSNull
| JSBool (b : bool)
| JSInt (z : Z)
| JSFloat (lit : ustr)
| JSStr (s : ustr)
| JSArr (items : list Json)
| JSObj (pairs : list (ustr * Json)).

(** Induction with a hypothesis for every item of a list or an object. *)
Section JsonInd.
Variable P : Json -> Prop.
Hypothesis Hnull : P JSNull.
Hypothesis Hbool : forall b, P (JSBool b).
Hypothesis Hint : forall z, P (JSInt z).
Hypothesis Hfloat : forall l, P (JSFloat l).
Hypothesis Hstr : forall s, P (JSStr s).
Hypothesis Harr : forall l, Forall P l -> P (JSArr l).
Hypothesis Hobj : forall l, Forall (fun kv => P kv.2) l -> P (JSObj l).

Fixpoint Json_ind' (j : Json) : P j :=
  match j with
  | JSNull => Hnull
  | JSBool b => Hbool b
  | JSInt z => Hint z
  | JSFloat l => Hfloat l
  | JSStr s => Hstr s
  | JSArr l => Harr l ((fix go l := match l return Forall P l with
                                    | [] => Forall_nil_2 _
                                    | x :: r => Forall_cons_2 _ _ _ (Json_ind' x) (go r)
                                    end) l)
  | JSObj l => Hobj l ((fix go l := match l return Forall (fun kv => P kv.2) l with
                                    | [] => Forall_nil_2 _
                                    | x :: r => Forall_cons_2 _ _ _ (Json_ind' x.2) (go r)
                                    end) l)
  end.
End JsonInd.

(** ** The encoder *)

(** ['{0:04x}'.format(c)] *)
Definition hex_digit (d : N) : N := if d <? 10 then 48 + d else 87 + d.
Definition hex4 (c : N) : ustr :=
  map (fun k => hex_digit ((c / 16 ^ k) mod 16)) [3; 2; 1; 0].

(** [ESCAPE_DCT] on one character, and the character itself when
    [ESCAPE] does not match it. *)
Definition escape_char (c : N) : ustr :=
  if c =? 92 then [92; 92]
  else if c =? 34 then [92; 34]
  else if c =? 8 then [92; 98]
  else if c =? 12 then [92; 102]
  else if c =? 10 then [92; 110]
  else if c =? 13 then [92; 114]
  else if c =? 9 then [92; 116]
  else if c <? 32 then [92; 117] ++ hex4 c
  else [c].

(** [py_encode_basestring] *)
Definition encode_basestring (s : ustr) : ustr := [34] ++ flat_map escape_char s ++ [34].

(** [int.__repr__]; the [ValueError] CPython raises past 4300 digits is
    not modelled (see [within_limits]). *)
Definition int_repr (z : Z) : ustr :=
  if (z <? 0)%Z then [45] ++ dec (Z.to_N (- z)) else dec (Z.to_N z).

(** ['\n' + _indent * _current_indent_level] with [_indent = '  ']. *)
Definition newline_indent (lvl : nat) : ustr := [10] ++ replicate (2 * lvl) 32.

(** The items of a container at level [lvl]: the first after
    [newline_indent], the others after [',' + newline_indent]. *)
Definition join_items (lvl : nat) (parts : list ustr) : ustr :=
  match parts with
  | [] => []
  | p :: ps => newline_indent lvl ++ p ++ flat_map (fun q => [44] ++ newline_indent lvl ++ q) ps
  end.

(** [_iterencode] at [_current_indent_level = lvl], its chunks joined as
    [json.dump] writes them. *)
Fixpoint dump_at (lvl : nat) (j : Json) : ustr :=
  match j with
  | JSNull => u "null"
  | JSBool b => if b then u "true" else u "false"
  | JSInt z => int_repr z
  | JSFloat lit => lit
  | JSStr s => encode_basestring s
  | JSArr [] => u "[]"
  | JSArr items =>
      [91] ++ join_items (S lvl) (map (dump_at (S lvl)) items) ++ newline_indent lvl ++ [93]
  | JSObj [] => u "{}"
  | JSObj pairs =>
      [123] ++ join_items (S lvl)
                 (map (fun kv => encode_basestring kv.1 ++ [58; 32] ++ dump_at (S lvl) kv.2) pairs)
      ++ newline_indent lvl ++ [125]
  end.

(** [json.dump(obj, f, indent=2, ensure_ascii=False)]: the text written. *)
Definition dump (j : Json) : ustr := dump_at 0 j.

(** Lists and dicts are encoded by their own generators; the other values
    in one piece. *)
Definition is_container (j : Json) : bool :=
  match j with JSArr _ | JSObj _ => true | _ => false end.

(** The loop of [_iterencode_list] from its first or a later item:
    [enc] encodes a nested list or dict. *)
Fixpoint item_chunks (enc : Json -> list ustr) (lvl : nat) (first : bool) (l : list Json) : list ustr :=
  match l with
  | [] => []
  | y :: ys =>
      let buf := (if first then [91] else [44]) ++ newline_indent (S lvl) in
      (if is_container y then buf :: enc y else [buf ++ dump_at (S lvl) y])
      ++ item_chunks enc lvl false ys
  end.

(** The loop of [_iterencode_dict]. *)
Fixpoint member_chunks (enc : Json -> list ustr) (lvl : nat) (first : bool) (l : list (ustr * Json)) :
    list ustr :=
  match l with
  | [] => []
  | kv :: r =>
      (if first then [] else [[44] ++ newline_indent (S lvl)]) ++
      [encode_basestring kv.1; [58; 32]] ++
      (if is_container kv.2 then enc kv.2 else [dump_at (S lvl) kv.2])
      ++ member_chunks enc lvl false r
  end.

(** The chunks [_iterencode] yields, in order: [json.dump] writes each
    with its own [fp.write]. *)
Fixpoint iterencode_at (lvl : nat) (j : Json) : list ustr :=
  match j with
  | JSArr [] => [u "[]"]
  | JSArr items => item_chunks (iterencode_at (S lvl)) lvl true items ++ [newline_indent lvl; [93]]
  | JSObj [] => [u "{}"]
  | JSObj pairs =>
      [[123]; newline_indent (S lvl)] ++ member_chunks (iterencode_at (S lvl)) lvl true pairs
      ++ [newline_indent lvl; [125]]
  | _ => [dump_at lvl j]
  end.

Definition iterencode (j : Json) : list ustr := iterencode_at 0 j.

(** ** The decoder *)

(** [WHITESPACE = r'[ \t\n\r]*'] *)
Definition is_ws (c : N) : bool := (c =? 32) || (c =? 9) || (c =? 10) || (c =? 13).

Fixpoint skip_ws (s : ustr) : ustr :=
  match s with
  | c :: r => if is_ws c then skip_ws r else s
  | [] => []
  end.

(** A hex digit of a [\uXXXX] escape. *)
Definition hex_val (c : N) : option N :=
  if (48 <=? c) && (c <=? 57) then Some (c - 48)
  else if (97 <=? c) && (c <=? 102) then Some (c - 87)
  else if (65 <=? c) && (c <=? 70) then Some (c - 55)
  else None.

Definition hex4_val (a b c d : N) : option N :=
  match hex_val a, hex_val b, hex_val c, hex_val d with
  | Some a, Some b, Some c, Some d => Some (a * 4096 + b * 256 + c * 16 + d)
  | _, _, _, _ => None
  end.

(** The short escapes: quote, backslash, slash, b, f, n, r and t. *)
Definition short_escape (c : N) : option N :=
  if c =? 34 then Some 34 else if c =? 92 then Some 92 else if c =? 47 then Some 47
  else if c =? 98 then Some 8 else if c =? 102 then Some 12 else if c =? 110 then Some 10
  else if c =? 114 then Some 13 else if c =? 116 then Some 9 else None.

Definition is_high (x : N) : bool := (55296 <=? x) && (x <=? 56319).
Definition is_low (x : N) : bool := (56320 <=? x) && (x <=? 57343).
Definition join_surrogates (x y : N) : N := 65536 + (x - 55296) * 1024 + (y - 56320).

(** A result of the scanner: a value and the rest of the text, a
    [JSONDecodeError] with its message, or no fuel left. *)
Inductive DRes (A : Type) :=
| DOk (a : A) (rest : ustr)
| DErr (msg : string)
| DFuel.
Arguments DOk {A}. Arguments DErr {A}. Arguments DFuel {A}.

(** [scanstring], after the opening quote; [acc] holds the characters
    read so far. *)
Fixpoint scanstring (s : ustr) (acc : ustr) : DRes ustr :=
  match s with
  | [] => DErr "Unterminated string starting at"
  | c :: r =>
      if c =? 34 then DOk acc r
      else if c =? 92 then
        match r with
        | [] => DErr "Unterminated string starting at"
        | e :: r1 =>
            if e =? 117 then
              match r1 with
              | a :: b :: c :: d :: r2 =>
                  match hex4_val a b c d with
                  | None => DErr "Invalid \uXXXX escape"
                  | Some x =>
                      if is_high x then
                        match r2 with
                        | b1 :: b2 :: e1 :: f1 :: g1 :: h1 :: r3 =>
                            if (b1 =? 92) && (b2 =? 117) then
                              match hex4_val e1 f1 g1 h1 with
                              | Some y => if is_low y then scanstring r3 (acc ++ [join_surrogates x y])
                                          else scanstring r2 (acc ++ [x])
                              | None => scanstring r2 (acc ++ [x])
                              end
                            else scanstring r2 (acc ++ [x])
                        | _ => scanstring r2 (acc ++ [x])
                        end
                      else scanstring r2 (acc ++ [x])
                  end
              | _ => DErr "Invalid \uXXXX escape"
              end
            else
              match short_escape e with
              | Some c => scanstring r1 (acc ++ [c])
              | None => DErr "Invalid \escape"
              end
        end
      else if c <? 32 then DErr "Invalid control character at"
      else scanstring r (acc ++ [c])
  end.

Definition is_ascii_digit (c : N) : bool := (48 <=? c) && (c <=? 57).

Fixpoint span_digits (s : ustr) : ustr * ustr :=
  match s with
  | c :: r => if is_ascii_digit c then let '(ds, r') := span_digits r in (c :: ds, r') else ([], s)
  | [] => ([], [])
  end.

(** [int()] on ASCII digits. *)
Definition digits_int (ds : ustr) : N := fold_left (fun acc c => acc * 10 + (c - 48)) ds 0.

(** The fraction [(\.\d+)?] of [NUMBER_RE]. *)
Definition scan_frac (s : ustr) : ustr * ustr :=
  match s with
  | p :: d :: r =>
      if (p =? 46) && is_ascii_digit d then let '(ds, r') := span_digits r in (p :: d :: ds, r')
      else ([], s)
  | _ => ([], s)
  end.

(** The exponent [([eE][-+]?\d+)?], given back when it has no digit. *)
Definition scan_exp (s : ustr) : ustr * ustr :=
  match s with
  | e :: r =>
      if (e =? 101) || (e =? 69) then
        let '(sg, r1) := match r with
                         | c :: r' => if (c =? 45) || (c =? 43) then ([c], r') else ([], r)
                         | [] => ([], r)
                         end in
        match span_digits r1 with
        | ([], _) => ([], s)
        | (ds, r2) => (e :: sg ++ ds, r2)
        end
      else ([], s)
  | [] => ([], s)
  end.

(** The integer part of [NUMBER_RE], its sign apart: [0], or a digit
    from 1 to 9 and the digits after it. *)
Definition scan_int_part (s : ustr) : option (ustr * ustr) :=
  match s with
  | c :: r =>
      if c =? 48 then Some ([48], r)
      else if (49 <=? c) && (c <=? 57) then let '(ds, r') := span_digits r in Some (c :: ds, r')
      else None
  | [] => None
  end.

(** [_match_number_unicode]: [NUMBER_RE] at the start of [s], an [int]
    when there is neither fraction nor exponent and a float otherwise. *)
Definition scan_number (s : ustr) : option (Json * ustr) :=
  let '(neg, s1) := match s with
                    | c :: r => if c =? 45 then (true, r) else (false, s)
                    | [] => (false, s)
                    end in
  match scan_int_part s1 with
  | None => None
  | Some (ip, r) =>
      let '(fr, r1) := scan_frac r in
      let '(ex, r2) := scan_exp r1 in
      if bool_decide (fr = []) && bool_decide (ex = []) then
        let v := Z.of_N (digits_int ip) in Some (JSInt (if neg then (- v)%Z else v), r2)
      else Some (JSFloat ((if neg then [45] else []) ++ ip ++ fr ++ ex), r2)
  end.

(** The constants [scan_once] recognises by their first characters. *)
Definition constants : list (ustr * Json) :=
  [(u "null", JSNull); (u "true", JSBool true); (u "false", JSBool false);
   (u "NaN", JSFloat (u "NaN")); (u "Infinity", JSFloat (u "Infinity"));
   (u "-Infinity", JSFloat (u "-Infinity"))].

(** The rest of [s] after the literal [lit], if [s] starts with it. *)
Fixpoint match_lit (lit s : ustr) : option ustr :=
  match lit with
  | [] => Some s
  | c :: l => match s with
              | d :: s' => if c =? d then match_lit l s' else None
              | [] => None
              end
  end.

Fixpoint first_constant (cs : list (ustr * Json)) (s : ustr) : option (Json * ustr) :=
  match cs with
  | [] => None
  | (lit, j) :: cs' => match match_lit lit s with
                       | Some r => Some (j, r)
                       | None => first_constant cs' s
                       end
  end.

Definition scan_constant (s : ustr) : option (Json * ustr) := first_constant constants s.

(** [scan_once], with the loops of [_parse_array_unicode]
    ([elements]) and [_parse_object_unicode] ([members]).  CPython's
    [RecursionError] on deeply nested text and its [ValueError] on an
    integer of more than 4300 digits are not modelled (see
    [within_limits]). *)
Fixpoint value (n : nat) (s : ustr) : DRes Json :=
  match n with
  | O => DFuel
  | S n =>
      match s with
      | [] => DErr "Expecting value"
      | c :: r =>
          if c =? 34 then
            match scanstring r [] with
            | DOk str r' => DOk (JSStr str) r'
            | DErr m => DErr m
            | DFuel => DFuel
            end
          else if c =? 123 then
            match skip_ws r with
            | c' :: r' => if c' =? 125 then DOk (JSObj []) r' else members n [] (c' :: r')
            | [] => members n [] []
            end
          else if c =? 91 then
            match skip_ws r with
            | c' :: r' => if c' =? 93 then DOk (JSArr []) r' else elements n [] (c' :: r')
            | [] => elements n [] []
            end
          else
            match scan_constant s with
            | Some (j, r') => DOk j r'
            | None =>
                match scan_number s with
                | Some (j, r') => DOk j r'
                | None => DErr "Expecting value"
                end
            end
      end
  end
with elements (n : nat) (acc : list Json) (s : ustr) : DRes Json :=
  match n with
  | O => DFuel
  | S n =>
      match value n s with
      | DOk v r =>
          match skip_ws r with
          | c :: r' =>
              if c =? 93 then DOk (JSArr (acc ++ [v])) r'
              else if c =? 44 then elements n (acc ++ [v]) (skip_ws r')
              else DErr "Expecting ',' delimiter"
          | [] => DErr "Expecting ',' delimiter"
          end
      | DErr m => DErr m
      | DFuel => DFuel
      end
  end
with members (n : nat) (acc : list (ustr * Json)) (s : ustr) : DRes Json :=
  match n with
  | O => DFuel
  | S n =>
      match s with
      | c :: r =>
          if c =? 34 then
            match scanstring r [] with
            | DOk k r1 =>
                match skip_ws r1 with
                | c1 :: r2 =>
                    if c1 =? 58 then
                      match value n (skip_ws r2) with
                      | DOk v r3 =>
                          match skip_ws r3 with
                          | c3 :: r4 =>
                              if c3 =? 125 then DOk (JSObj (dict_set_all [] (acc ++ [(k, v)]))) r4
                              else if c3 =? 44 then members n (acc ++ [(k, v)]) (skip_ws r4)
                              else DErr "Expecting ',' delimiter"
                          | [] => DErr "Expecting ',' delimiter"
                          end
                      | DErr m => DErr m
                      | DFuel => DFuel
                      end
                    else DErr "Expecting ':' delimiter"
                | [] => DErr "Expecting ':' delimiter"
                end
            | DErr m => DErr m
            | DFuel => DFuel
            end
          else DErr "Expecting property name enclosed in double quotes"
      | [] => DErr "Expecting property name enclosed in double quotes"
      end
  end.

(** What [json.loads] gives: the value, or the [JSONDecodeError] it
    raises. *)
Inductive Loaded :=
| LoadOk (j : Json)
| JSONDecodeError (msg : string).

Definition decode_fuel (s : ustr) : nat := (2 * length s + 1)%nat.

(** [json.loads] ([json.load] on the text the file holds). *)
Definition loads (s : ustr) : Loaded :=
  if startswith s [65279] then JSONDecodeError "Unexpected UTF-8 BOM (decode using utf-8-sig)"
  else
      let s0 := skip_ws s in
      match value (decode_fuel s0) s0 with
      | DOk j r => if bool_decide (skip_ws r = []) then LoadOk j else JSONDecodeError "Extra data"
      | DErr m => JSONDecodeError m
      | DFuel => JSONDecodeError "Expecting value"
      end.

(** ** What the scanner consumes *)

(** A scanner result that is not out of fuel and, when it succeeds,
    leaves less than [L] characters. *)
Definition consumed {A} (L : nat) (r : DRes A) : Prop :=
  match r with
  | DOk _ rest => (length rest < L)%nat
  | DErr _ => True
  | DFuel => False
  end.

Lemma consumed_weaken {A} (L1 L2 : nat) (r : DRes A) :
  consumed L1 r -> (L1 <= L2)%nat -> consumed L2 r.
Proof. destruct r; simpl; lia. Qed.

Lemma skip_ws_length (s : ustr) : (length (skip_ws s) <= length s)%nat.
Proof. induction s as [|c r IH]; simpl; [lia|]. destruct (is_ws c); simpl; lia. Qed.

Lemma skip_ws_app_ws (w s : ustr) : Forall (fun c => is_ws c = true) w -> skip_ws (w ++ s) = skip_ws s.
Proof. induction 1 as [|c w Hc _ IH]; [done|]. simpl. by rewrite Hc. Qed.

Lemma skip_ws_stop (c : N) (s : ustr) : is_ws c = false -> skip_ws (c :: s) = c :: s.
Proof. intros H. simpl. by rewrite H. Qed.

Lemma newline_indent_ws (lvl : nat) : Forall (fun c => is_ws c = true) (newline_indent lvl).
Proof. constructor; [done|]. by apply Forall_replicate. Qed.

Lemma scanstring_consumed (s : ustr) (acc : ustr) : consumed (length s) (scanstring s acc).
Proof.
  remember (length s) as n eqn:Hn. revert s acc Hn.
  induction n as [n IH] using lt_wf_ind. intros s acc ->.
  destruct s as [|c r]; [done|]. cbn [scanstring].
  repeat case_match; try done; try (simpl; lia);
    (eapply consumed_weaken; [eapply IH; [|reflexivity]|]; simpl in *; lia).
Qed.

Lemma span_digits_app (s : ustr) : s = (span_digits s).1 ++ (span_digits s).2.
Proof.
  induction s as [|c r IH]; [done|]. simpl.
  destruct (is_ascii_digit c); [|done]. destruct (span_digits r) as [ds r']. simpl in *. by rewrite IH.
Qed.

Lemma scan_frac_app (s : ustr) : s = (scan_frac s).1 ++ (scan_frac s).2.
Proof.
  unfold scan_frac. destruct s as [|p [|d r]]; [done|done|].
  destruct (_ && _); [|done]. pose proof (span_digits_app r) as E.
  destruct (span_digits r) as [ds r']. simpl in *. by rewrite E.
Qed.

Lemma scan_exp_app (s : ustr) : s = (scan_exp s).1 ++ (scan_exp s).2.
Proof.
  unfold scan_exp. destruct s as [|e r]; [done|]. destruct (_ || _); [|done].
  assert (Hr : exists sg r1, (match r with
                              | c :: r' => if (c =? 45) || (c =? 43) then ([c], r') else ([], r)
                              | [] => ([], r)
                              end) = (sg, r1) /\ r = sg ++ r1).
  { destruct r as [|c r']; [by exists [], []|]. destruct (_ || _); [by exists [c], r'|by exists [], (c :: r')]. }
  destruct Hr as (sg & r1 & -> & ->). pose proof (span_digits_app r1) as E.
  destruct (span_digits r1) as [[|d ds] r2]; [done|]. simpl in *. rewrite E. by rewrite <- app_assoc.
Qed.

Lemma scan_number_consumed (s : ustr) (j : Json) (r : ustr) :
  scan_number s = Some (j, r) -> (length r < length s)%nat.
Proof.
  unfold scan_number.
  assert (Hs : exists neg s1, (match s with
                               | c :: r => if c =? 45 then (true, r) else (false, s)
                               | [] => (false, s)
                               end) = (neg, s1) /\ (length s1 <= length s)%nat).
  { destruct s as [|c r']; [by exists false, []|]. destruct (c =? 45); eexists _, _; split; [done| |done|]; simpl; lia. }
  destruct Hs as (neg & s1 & -> & Hl).
  destruct (scan_int_part s1) as [[ip r0]|] eqn:Hip; [|done].
  assert (Hr0 : (length r0 < length s1)%nat).
  { unfold scan_int_part in Hip. destruct s1 as [|c r1]; [done|].
    destruct (c =? 48); [injection Hip as <- <-; simpl; lia|]. destruct (_ && _); [|done].
    pose proof (span_digits_app r1) as E. destruct (span_digits r1) as [ds r'].
    injection Hip as <- <-. simpl in *. rewrite E, length_app. lia. }
  pose proof (scan_frac_app r0) as E1. destruct (scan_frac r0) as [fr r1].
  pose proof (scan_exp_app r1) as E2. destruct (scan_exp r1) as [ex r2]. simpl in *.
  assert (length r2 <= length r0)%nat by (rewrite E1, E2, !length_app; lia).
  destruct (_ && _); intros [= _ <-]; lia.
Qed.

Lemma match_lit_length (lit s r : ustr) : match_lit lit s = Some r -> (length r + length lit = length s)%nat.
Proof.
  revert s. induction lit as [|c l IH]; intros s; simpl; [intros [= ->]; lia|].
  destruct s as [|d s']; [done|]. destruct (c =? d); [|done]. intros H. apply IH in H. simpl. lia.
Qed.

Lemma scan_constant_consumed (s : ustr) (j : Json) (r : ustr) :
  scan_constant s = Some (j, r) -> (length r < length s)%nat.
Proof.
  unfold scan_constant, constants.
  assert (Hgen : forall cs, Forall (fun p => p.1 <> []) cs -> first_constant cs s = Some (j, r) ->
                            (length r < length s)%nat).
  { induction cs as [|[lit j'] cs IH]; intros Hne; [done|]. apply Forall_cons in Hne as [Hl Hne]. simpl.
    destruct (match_lit lit s) as [r'|] eqn:E; [|by apply IH].
    intros [= _ <-]. apply match_lit_length in E. destruct lit; [done|]. simpl in E. lia. }
  apply Hgen. repeat constructor; by vm_compute.
Qed.

(** With fuel twice the length of the text and one more, the scanner
    never runs out, and a value it reads leaves a shorter text. *)
Lemma decoder_fuel (n : nat) :
  (forall s, (2 * length s + 1 <= n)%nat -> consumed (length s) (value n s)) /\
  (forall acc s, (2 * length s + 2 <= n)%nat -> consumed (length s) (elements n acc s)) /\
  (forall acc s, (2 * length s + 2 <= n)%nat -> consumed (length s) (members n acc s)).
Proof.
  induction n as [|n (IHv & IHe & IHm)]; [split_and!; intros; lia|]. split_and!.
  - intros [|c r] Hs; [done|]. cbn [value]. simpl in Hs. pose proof (skip_ws_length r) as Hw.
    destruct (c =? 34).
    { pose proof (scanstring_consumed r []) as Hc. destruct (scanstring r []); simpl in *; [lia|done|done]. }
    destruct (c =? 123).
    { destruct (skip_ws r) as [|c' r'] eqn:E; simpl in Hw.
      - eapply consumed_weaken; [apply IHm|]; simpl; lia.
      - destruct (c' =? 125); [simpl; lia|]. eapply consumed_weaken; [apply IHm|]; simpl in *; lia. }
    destruct (c =? 91).
    { destruct (skip_ws r) as [|c' r'] eqn:E; simpl in Hw.
      - eapply consumed_weaken; [apply IHe|]; simpl; lia.
      - destruct (c' =? 93); [simpl; lia|]. eapply consumed_weaken; [apply IHe|]; simpl in *; lia. }
    destruct (scan_constant (c :: r)) as [[j r']|] eqn:Ec; [by apply scan_constant_consumed in Ec|].
    destruct (scan_number (c :: r)) as [[j r']|] eqn:En; [by apply scan_number_consumed in En|done].
  - intros acc s Hs. cbn [elements]. pose proof (IHv s ltac:(lia)) as Hv.
    destruct (value n s) as [v r| |]; [|done|done]. simpl in Hv. pose proof (skip_ws_length r) as Hw.
    destruct (skip_ws r) as [|c r'] eqn:E; [done|]. simpl in Hw.
    destruct (c =? 93); [simpl; lia|]. destruct (c =? 44); [|done].
    pose proof (skip_ws_length r'). eapply consumed_weaken; [apply IHe|]; lia.
  - intros acc [|c r] Hs; [done|]. cbn [members]. simpl in Hs. destruct (c =? 34); [|done].
    pose proof (scanstring_consumed r []) as Hc. destruct (scanstring r []) as [k r1| |]; [|done|done].
    simpl in Hc. pose proof (skip_ws_length r1) as Hw1.
    destruct (skip_ws r1) as [|c1 r2]; [done|]. simpl in Hw1. destruct (c1 =? 58); [|done].
    pose proof (skip_ws_length r2) as Hw2. pose proof (IHv (skip_ws r2) ltac:(lia)) as Hv.
    destruct (value n (skip_ws r2)) as [v r3| |]; [|done|done]. simpl in Hv.
    pose proof (skip_ws_length r3) as Hw3. destruct (skip_ws r3) as [|c3 r4]; [done|]. simpl in Hw3.
    destruct (c3 =? 125); [simpl; lia|]. destruct (c3 =? 44); [|done].
    pose proof (skip_ws_length r4). eapply consumed_weaken; [apply IHm|]; simpl; lia.
Qed.

(** More fuel gives the same result, once the result is not out of fuel. *)
Lemma decoder_mono (n : nat) :
  (forall m s, (n <= m)%nat -> value n s <> DFuel -> value m s = value n s) /\
  (forall m acc s, (n <= m)%nat -> elements n acc s <> DFuel -> elements m acc s = elements n acc s) /\
  (forall m acc s, (n <= m)%nat -> members n acc s <> DFuel -> members m acc s = members n acc s).
Proof.
  induction n as [|n (IHv & IHe & IHm)]; [split_and!; intros; by exfalso|].
  split_and!; intros m; (destruct m as [|m]; [lia|]).
  - intros [|c r] Hm H; [done|]. cbn [value] in *.
    destruct (c =? 34); [done|]. destruct (c =? 123).
    { destruct (skip_ws r) as [|c' r']; [apply IHm; [lia|done]|].
      destruct (c' =? 125); [done|]. apply IHm; [lia|done]. }
    destruct (c =? 91); [|done].
    destruct (skip_ws r) as [|c' r']; [apply IHe; [lia|done]|].
    destruct (c' =? 93); [done|]. apply IHe; [lia|done].
  - intros acc s Hm H. cbn [elements] in *.
    destruct (value n s) as [v r|e|] eqn:E; [| |done]; rewrite (IHv m s) by (lia || by rewrite E); rewrite E; [|done].
    destruct (skip_ws r) as [|c r']; [done|]. destruct (c =? 93); [done|].
    destruct (c =? 44); [|done]. apply IHe; [lia|done].
  - intros acc [|c r] Hm H; [done|]. cbn [members] in *. destruct (c =? 34); [|done].
    destruct (scanstring r []) as [k r1| |]; [|done|done].
    destruct (skip_ws r1) as [|c1 r2]; [done|]. destruct (c1 =? 58); [|done].
    destruct (value n (skip_ws r2)) as [v r3|e|] eqn:E; [| |done];
      rewrite (IHv m) by (lia || by rewrite E); rewrite E; [|done].
    destruct (skip_ws r3) as [|c3 r4]; [done|]. destruct (c3 =? 125); [done|].
    destruct (c3 =? 44); [|done]. apply IHm; [lia|done].
Qed.

(** Fuel beyond [decode_fuel s] changes nothing. *)
Lemma value_enough (n : nat) (s : ustr) :
  (decode_fuel s <= n)%nat -> value n s = value (decode_fuel s) s.
Proof.
  intros Hn. apply (proj1 (decoder_mono _)); [done|].
  pose proof (proj1 (decoder_fuel (decode_fuel s)) s ltac:(unfold decode_fuel; lia)) as H.
  by destruct (value _ s).
Qed.

(** The decoder never runs out of fuel on the budget [loads] gives it:
    every text is read to a value or to a [JSONDecodeError]. *)
Lemma value_total (s : ustr) : value (decode_fuel s) s <> DFuel.
Proof.
  pose proof (proj1 (decoder_fuel (decode_fuel s)) s ltac:(unfold decode_fuel; lia)) as H.
  by destruct (value _ s).
Qed.

(** ** The encoder's output read back *)

(** What follows a value in [dump]'s output: nothing, an item
    separator or a newline. *)
Definition ends (t : ustr) : Prop :=
  match t with [] => True | c :: _ => c = 44 \/ c = 10 end.

Lemma ends_not_digit (t : ustr) :
  ends t -> match t with [] => True | c :: _ => is_ascii_digit c = false end.
Proof. destruct t as [|c t]; [done|]. by intros [-> | ->]. Qed.

Lemma digits_rev_shape (f : nat) (n : N) :
  (N.to_nat n < f)%nat ->
  exists ds d, digits_rev f n = ds ++ [d] /\ Forall (fun c => is_ascii_digit c = true) (ds ++ [d]) /\
    (n = 0 -> d = 48) /\ (0 < n -> 49 <= d <= 57).
Proof.
  revert n. induction f as [|f IH]; intros n Hn; [lia|]. cbn [digits_rev].
  pose proof (N.mod_lt n 10 ltac:(lia)) as Hm.
  destruct (n <? 10) eqn:Hlt.
  - apply N.ltb_lt in Hlt. rewrite N.mod_small by done. exists [], (48 + n).
    split_and!; [done| |lia|lia]. constructor; [|done]. unfold is_ascii_digit. apply andb_true_iff; split; apply N.leb_le; lia.
  - apply N.ltb_ge in Hlt. assert (Hq : (N.to_nat (n / 10) < f)%nat).
    { assert (n / 10 < n) by (apply N.div_lt; lia). lia. }
    destruct (IH _ Hq) as (ds & d & -> & Hall & _ & Hd).
    exists ((48 + n mod 10) :: ds), d. split_and!; [done| |lia|].
    + constructor; [|done]. unfold is_ascii_digit. set (k := n mod 10) in *. clearbody k. apply andb_true_iff; split; apply N.leb_le; lia.
    + intros _. apply Hd. apply N.div_str_pos. lia.
Qed.

Lemma digits_int_rev (l : ustr) : digits_int (rev l) = digits_value l.
Proof.
  unfold digits_int. assert (H : forall a, fold_left (fun acc c => acc * 10 + (c - 48)) (rev l) a =
                                         a * 10 ^ N.of_nat (length l) + digits_value l).
  { induction l as [|c l IH]; intros a; simpl; [lia|].
    rewrite fold_left_app, IH. simpl. rewrite Nat2N.inj_succ, N.pow_succ_r'. lia. }
  rewrite H. lia.
Qed.

Lemma span_digits_stop (ds t : ustr) :
  Forall (fun c => is_ascii_digit c = true) ds ->
  match t with [] => True | c :: _ => is_ascii_digit c = false end ->
  span_digits (ds ++ t) = (ds, t).
Proof.
  intros Hds Ht. induction Hds as [|c ds Hc _ IH]; simpl.
  - destruct t as [|c t]; [done|]. simpl. by rewrite Ht.
  - rewrite Hc, IH. done.
Qed.

(** [int(repr(z))] gives [z] back. *)
Lemma scan_number_int_repr (z : Z) (t : ustr) :
  ends t -> scan_number (int_repr z ++ t) = Some (JSInt z, t).
Proof.
  intros Ht. pose proof (ends_not_digit t Ht) as Hd.
  assert (Hfe : scan_frac t = ([], t) /\ scan_exp t = ([], t)).
  { destruct t as [|c t]; [done|]. destruct Ht as [-> | ->]; by destruct t. }
  assert (Hdec : forall n, exists d ds, dec n = d :: ds /\ scan_int_part (dec n ++ t) = Some (dec n, t) /\
                                       digits_int (dec n) = n /\ d <> 45).
  { intros n. destruct (digits_rev_shape (N.to_nat n + 1) n ltac:(lia)) as (ds & d & E & Hall & H0 & Hpos).
    assert (Hv : digits_int (dec n) = n) by (unfold dec; rewrite digits_int_rev, digits_rev_value; lia).
    assert (Hdn : dec n = d :: rev ds) by (unfold dec; by rewrite E, rev_app_distr).
    exists d, (rev ds). rewrite Hdn in Hv |- *. split; [done|]. split; [|split; [done|]].
    - destruct (decide (n = 0)) as [->|Hn].
      + change (dec 0) with [48] in Hdn. injection Hdn as <- Hr. rewrite <- Hr. done.
      + destruct (Hpos ltac:(lia)) as [Hd1 Hd2]. cbn [scan_int_part app].
        rewrite (proj2 (N.eqb_neq d 48)) by lia.
        replace ((49 <=? d) && (d <=? 57)) with true by (symmetry; apply andb_true_iff; split; apply N.leb_le; lia).
        rewrite span_digits_stop; [done| |done].
        apply Forall_app in Hall as [Hall _]. by apply Forall_rev.
    - destruct (decide (n = 0)) as [->|Hn]; [rewrite H0 by done; lia|]. specialize (Hpos ltac:(lia)). lia. }
  unfold int_repr, scan_number. destruct Hfe as [Hf He].
  destruct (z <? 0)%Z eqn:Hz.
  - destruct (Hdec (Z.to_N (- z))) as (d & ds & E & Hip & Hv & _).
    cbn -[dec scan_int_part scan_frac scan_exp digits_int]. rewrite Hip.
    cbn -[dec scan_frac scan_exp digits_int]. rewrite Hf, He. cbn -[dec digits_int].
    rewrite Hv. do 3 f_equal. lia.
  - destruct (Hdec (Z.to_N z)) as (d & ds & E & Hip & Hv & Hd45). rewrite E in Hip |- *.
    change ((d :: ds) ++ t) with (d :: ds ++ t) in Hip |- *.
    cbn -[scan_int_part scan_frac scan_exp digits_int]. rewrite (proj2 (N.eqb_neq d 45)) by done.
    rewrite Hip. cbn -[scan_frac scan_exp digits_int]. rewrite Hf, He. cbn -[digits_int].
    rewrite <- E, Hv. apply Z.ltb_ge in Hz. do 3 f_equal. lia.
Qed.

(** The [\u00XX] escape of a control character reads back as that
    character. *)
Lemma hex4_control (c : N) :
  c < 32 ->
  hex4 c = [48; 48; hex_digit (c / 16); hex_digit (c mod 16)] /\
  hex4_val 48 48 (hex_digit (c / 16)) (hex_digit (c mod 16)) = Some c /\ is_high c = false.
Proof. intros Hc. enum_range c 0 32%nat by_eval. Qed.

(** [scanstring] reads back what [encode_basestring] writes. *)
Lemma scanstring_encode (s acc t : ustr) :
  scanstring (flat_map escape_char s ++ 34 :: t) acc = DOk (acc ++ s) t.
Proof.
  revert acc. induction s as [|c s IH]; intros acc; [by rewrite app_nil_r|].
  cbn [flat_map]. rewrite <- app_assoc.
  replace (acc ++ c :: s) with ((acc ++ [c]) ++ s) by (by rewrite <- app_assoc).
  unfold escape_char.
  destruct (N.eqb_spec c 92) as [->|H92]; [apply IH|].
  destruct (N.eqb_spec c 34) as [->|H34]; [apply IH|].
  destruct (N.eqb_spec c 8) as [->|H8]; [apply IH|].
  destruct (N.eqb_spec c 12) as [->|H12]; [apply IH|].
  destruct (N.eqb_spec c 10) as [->|H10]; [apply IH|].
  destruct (N.eqb_spec c 13) as [->|H13]; [apply IH|].
  destruct (N.eqb_spec c 9) as [->|H9]; [apply IH|].
  destruct (N.ltb_spec c 32) as [Hc|Hc].
  - destruct (hex4_control c Hc) as (-> & Hv & Hh).
    cbn [scanstring app N.eqb Pos.eqb]. rewrite Hv. cbn iota. rewrite Hh. apply IH.
  - cbn [scanstring app]. rewrite (proj2 (N.eqb_neq c 34)), (proj2 (N.eqb_neq c 92)) by done.
    rewrite (proj2 (N.ltb_ge c 32)) by done. apply IH.
Qed.

(** The values [dump] can write back exactly: no float, and distinct
    keys in every object. *)
Fixpoint dumpable (j : Json) : Prop :=
  match j with
  | JSFloat _ => False
  | JSArr l => (fix go l := match l with [] => True | x :: r => dumpable x /\ go r end) l
  | JSObj l => NoDup (map fst l) /\
               (fix go (l : list (ustr * Json)) := match l with [] => True | x :: r => dumpable x.2 /\ go r end) l
  | _ => True
  end.

Lemma dumpable_arr (l : list Json) : dumpable (JSArr l) <-> Forall dumpable l.
Proof.
  simpl. induction l as [|x l IH]; [split; [constructor|done]|]. rewrite Forall_cons. tauto.
Qed.

Lemma dumpable_obj (l : list (ustr * Json)) :
  dumpable (JSObj l) <-> NoDup (map fst l) /\ Forall (fun kv => dumpable kv.2) l.
Proof.
  simpl. apply and_iff_compat_l. induction l as [|x l IH]; [split; [constructor|done]|].
  rewrite Forall_cons. tauto.
Qed.

(** The fuel that reading a value back takes. *)
Fixpoint jfuel (j : Json) : nat :=
  match j with
  | JSArr l => S (sum_list_with (fun x => S (jfuel x)) l)
  | JSObj l => S (sum_list_with (fun kv => S (jfuel kv.2)) l)
  | _ => 1
  end.

(** Rewrites every [a =? b] that [lia] shows false. *)
Ltac eqb_false :=
  repeat match goal with |- context [?a =? ?b] => rewrite (proj2 (N.eqb_neq a b)) by lia end.

Lemma dec_cons (n : N) : exists d ds, dec n = d :: ds /\ 48 <= d <= 57.
Proof.
  destruct (digits_rev_shape (N.to_nat n + 1) n ltac:(lia)) as (ds & d & E & Hall & _ & _).
  exists d, (rev ds). unfold dec. rewrite E, rev_app_distr. split; [done|].
  apply Forall_app in Hall as [_ Hd]. apply Forall_cons in Hd as [Hd _].
  unfold is_ascii_digit in Hd. apply andb_true_iff in Hd as [H1 H2]. apply N.leb_le in H1, H2. lia.
Qed.

(** The text of an integer starts with a digit, or with a minus sign and
    a digit. *)
Lemma int_repr_cons (z : Z) :
  exists c r, int_repr z = c :: r /\
    ((48 <= c <= 57) \/ (c = 45 /\ exists d r', r = d :: r' /\ 48 <= d <= 57)).
Proof.
  unfold int_repr. destruct (z <? 0)%Z.
  - destruct (dec_cons (Z.to_N (- z))) as (d & ds & -> & Hd). exists 45, (d :: ds). eauto 10.
  - destruct (dec_cons (Z.to_N z)) as (d & ds & -> & Hd). exists d, ds. eauto.
Qed.

Lemma digit_cases (c : N) :
  48 <= c <= 57 -> c = 48 \/ c = 49 \/ c = 50 \/ c = 51 \/ c = 52 \/ c = 53 \/ c = 54 \/ c = 55 \/ c = 56 \/ c = 57.
Proof. lia. Qed.

Lemma scan_constant_int (z : Z) (t : ustr) : scan_constant (int_repr z ++ t) = None.
Proof.
  destruct (int_repr_cons z) as (c & r & -> & [Hc | (-> & d & r' & -> & Hd)]).
  - apply digit_cases in Hc. repeat (destruct Hc as [->|Hc]; [reflexivity|]). by subst.
  - apply digit_cases in Hd. repeat (destruct Hd as [->|Hd]; [reflexivity|]). by subst.
Qed.

(** What [dump] writes starts with a character that is neither
    whitespace nor a closing bracket or brace. *)
Lemma dump_cons (lvl : nat) (j : Json) :
  dumpable j -> exists c r, dump_at lvl j = c :: r /\ is_ws c = false /\ c <> 93 /\ c <> 125 /\ c < 128.
Proof.
  intros Hj. destruct j as [| [|] | z | | s | [|x l] | [|kv l]]; try done;
    try (eexists _, _; split_and!; [reflexivity|done|done|done|by vm_compute]).
  - destruct (int_repr_cons z) as (c & r & E & Hc). exists c, r. cbn [dump_at]. rewrite E.
    unfold is_ws. split_and!; [done| |lia|lia|lia]. eqb_false. done.
Qed.

Lemma skip_ws_dump (lvl : nat) (j : Json) (t : ustr) :
  dumpable j -> skip_ws (dump_at lvl j ++ t) = dump_at lvl j ++ t.
Proof. intros Hj. destruct (dump_cons lvl j Hj) as (c & r & -> & Hw & _). by apply skip_ws_stop. Qed.

Lemma skip_ws_indent (lvl : nat) (t : ustr) : skip_ws (newline_indent lvl ++ t) = skip_ws t.
Proof. apply skip_ws_app_ws, newline_indent_ws. Qed.

(** [value] reads [dump_at lvl j] back, whatever the level and whatever
    follows, given the fuel [jfuel j]. *)
Definition reads_back (j : Json) : Prop :=
  forall lvl n t, (jfuel j <= n)%nat -> ends t -> value n (dump_at lvl j ++ t) = DOk j t.

Lemma elements_dump (lvl : nat) (x : Json) (xs : list Json) (acc : list Json) (n : nat) (t : ustr) :
  Forall (fun y => dumpable y /\ reads_back y) (x :: xs) ->
  (sum_list_with (fun y => S (jfuel y)) (x :: xs) <= n)%nat ->
  elements n acc (dump_at (S lvl) x ++ flat_map (fun q => [44] ++ newline_indent (S lvl) ++ q)
                    (map (dump_at (S lvl)) xs) ++ newline_indent lvl ++ 93 :: t) =
  DOk (JSArr (acc ++ x :: xs)) t.
Proof.
  revert x acc n. induction xs as [|y xs IH]; intros x acc n Hall Hn;
    apply Forall_cons in Hall as [[Hdx Hx] Hall]; (destruct n as [|n]; [simpl in Hn; lia|]); cbn [elements].
  - rewrite Hx; [|simpl in Hn; lia|by right]. cbn [map flat_map app].
    rewrite skip_ws_indent, skip_ws_stop by done. done.
  - rewrite Hx; [|simpl in Hn; lia|by left]. cbn [map flat_map app].
    rewrite skip_ws_stop by done. cbn [N.eqb Pos.eqb].
    apply Forall_cons in Hall as [[Hdy Hy] Hall]. rewrite <- !app_assoc, skip_ws_indent, skip_ws_dump by done.
    replace (acc ++ x :: y :: xs) with ((acc ++ [x]) ++ y :: xs) by (by rewrite <- app_assoc).
    apply IH; [by constructor|simpl in *; lia].
Qed.

(** One member: its key, the colon, its value, and what follows. *)
Lemma members_step (lvl : nat) (k : ustr) (v : Json) (acc : list (ustr * Json)) (n : nat) (tail : ustr) :
  dumpable v -> reads_back v -> (jfuel v <= n)%nat -> ends tail ->
  members (S n) acc (encode_basestring k ++ [58; 32] ++ dump_at lvl v ++ tail) =
  match skip_ws tail with
  | c3 :: r4 =>
      if c3 =? 125 then DOk (JSObj (dict_set_all [] (acc ++ [(k, v)]))) r4
      else if c3 =? 44 then members n (acc ++ [(k, v)]) (skip_ws r4)
      else DErr "Expecting ',' delimiter"
  | [] => DErr "Expecting ',' delimiter"
  end.
Proof.
  intros Hd Hv Hn Ht. unfold encode_basestring. rewrite <- !app_assoc. cbn [members app N.eqb Pos.eqb].
  rewrite scanstring_encode. cbn [app]. rewrite skip_ws_stop by done. cbn [N.eqb Pos.eqb].
  cbn [skip_ws is_ws N.eqb Pos.eqb orb]. rewrite skip_ws_dump, Hv by done. done.
Qed.

Lemma skip_ws_encode (k t : ustr) : skip_ws (encode_basestring k ++ t) = encode_basestring k ++ t.
Proof. done. Qed.

Lemma members_dump (lvl : nat) (kv : ustr * Json) (kvs : list (ustr * Json)) (acc : list (ustr * Json))
    (n : nat) (t : ustr) :
  Forall (fun kv => dumpable kv.2 /\ reads_back kv.2) (kv :: kvs) ->
  (sum_list_with (fun kv => S (jfuel kv.2)) (kv :: kvs) <= n)%nat ->
  members n acc (encode_basestring kv.1 ++ [58; 32] ++ dump_at (S lvl) kv.2 ++
                 flat_map (fun q => [44] ++ newline_indent (S lvl) ++ q)
                   (map (fun kv => encode_basestring kv.1 ++ [58; 32] ++ dump_at (S lvl) kv.2) kvs) ++
                 newline_indent lvl ++ 125 :: t) =
  DOk (JSObj (dict_set_all [] (acc ++ kv :: kvs))) t.
Proof.
  revert kv acc n. induction kvs as [|kv' kvs IH]; intros [k v] acc n Hall Hn;
    apply Forall_cons in Hall as [[Hdv Hv] Hall]; (destruct n as [|n]; [simpl in Hn; lia|]);
    simpl in Hn, Hdv, Hv; cbn [fst snd].
  - rewrite members_step by (done || lia || by right).
    cbn [map flat_map app]. rewrite skip_ws_indent, skip_ws_stop by done. done.
  - rewrite members_step by (done || lia || by left). cbn [map flat_map].
    rewrite <- !app_assoc. cbn [app]. rewrite skip_ws_stop by done. cbn [N.eqb Pos.eqb].
    rewrite skip_ws_indent, skip_ws_encode.
    replace (acc ++ (k, v) :: kv' :: kvs) with ((acc ++ [(k, v)]) ++ kv' :: kvs) by (by rewrite <- app_assoc).
    apply IH; [done|simpl in *; lia].
Qed.

Lemma value_obj_open (n lvl : nat) (k rest : ustr) :
  value (S n) ([123] ++ newline_indent lvl ++ encode_basestring k ++ rest) =
  members n [] (encode_basestring k ++ rest).
Proof. cbn [value app N.eqb Pos.eqb]. by rewrite skip_ws_indent, skip_ws_encode. Qed.

Lemma value_dump (j : Json) : dumpable j -> reads_back j.
Proof.
  induction j as [|b|z|l|s|l IH|l IH] using Json_ind'; intros Hj lvl n t Hn Ht;
    (destruct n as [|n]; [simpl in Hn; lia|]).
  - reflexivity.
  - by destruct b.
  - cbn [dump_at]. destruct (int_repr_cons z) as (c & r & E & Hc). rewrite E. cbn [value app].
    assert (Hc' : c <> 34 /\ c <> 123 /\ c <> 91) by lia. eqb_false.
    change (c :: r ++ t) with ((c :: r) ++ t). rewrite <- E, scan_constant_int, scan_number_int_repr by done.
    done.
  - done.
  - cbn [dump_at]. unfold encode_basestring. rewrite <- !app_assoc. cbn [value app N.eqb Pos.eqb].
    by rewrite scanstring_encode.
  - destruct l as [|x l]; [reflexivity|]. apply dumpable_arr in Hj.
    assert (Hall : Forall (fun y => dumpable y /\ reads_back y) (x :: l)).
    { eapply Forall_impl; [exact (proj2 (Forall_and _ _) (conj IH Hj))|]. simpl. tauto. }
    pose proof (Forall_inv Hj) as Hdx. destruct (dump_cons (S lvl) x Hdx) as (c0 & r0 & E & _ & H93 & _).
    cbn [dump_at join_items map]. rewrite <- !app_assoc. cbn [value app N.eqb Pos.eqb].
    rewrite skip_ws_indent, skip_ws_dump by done. rewrite E. cbn [app]. eqb_false.
    change (c0 :: r0 ++ ?X) with ((c0 :: r0) ++ X). rewrite <- E.
    apply (elements_dump lvl x l []); [done|simpl in Hn |- *; lia].
  - destruct l as [|kv l]; [reflexivity|]. apply dumpable_obj in Hj as [Hnd Hj].
    assert (Hall : Forall (fun kv => dumpable kv.2 /\ reads_back kv.2) (kv :: l)).
    { eapply Forall_impl; [exact (proj2 (Forall_and _ _) (conj IH Hj))|]. simpl. tauto. }
    cbn [dump_at join_items map]. rewrite <- !app_assoc, value_obj_open. change ([125] ++ t) with (125 :: t).
    rewrite (members_dump lvl kv l [] n t) by (done || (simpl in Hn |- *; lia)).
    rewrite dict_set_all_fresh; [done|]. done.
Qed.

Lemma dump_loads (j : Json) : dumpable j -> loads (dump j) = LoadOk j.
Proof.
  intros Hj. unfold loads, dump. destruct (dump_cons 0 j Hj) as (c & r & E & Hw & _ & _ & Hc).
  rewrite E. cbn [startswith]. eqb_false. cbn [andb]. rewrite <- E.
  rewrite <- (app_nil_r (dump_at 0 j)), skip_ws_dump by done.
  rewrite <- (value_enough (Nat.max (decode_fuel (dump_at 0 j ++ [])) (jfuel j))) by lia.
  rewrite value_dump by (done || lia). done.
Qed.

(** ** The chunks joined are the text *)

Lemma item_chunks_cons (enc : Json -> list ustr) (lvl : nat) (first : bool) (y : Json) (ys : list Json) :
  item_chunks enc lvl first (y :: ys) =
  (if is_container y then ((if first then [91] else [44]) ++ newline_indent (S lvl)) :: enc y
   else [((if first then [91] else [44]) ++ newline_indent (S lvl)) ++ dump_at (S lvl) y])
  ++ item_chunks enc lvl false ys.
Proof. done. Qed.

Lemma member_chunks_cons (enc : Json -> list ustr) (lvl : nat) (first : bool) (kv : ustr * Json)
    (r : list (ustr * Json)) :
  member_chunks enc lvl first (kv :: r) =
  (if first then [] else [[44] ++ newline_indent (S lvl)]) ++
  [encode_basestring kv.1; [58; 32]] ++
  (if is_container kv.2 then enc kv.2 else [dump_at (S lvl) kv.2]) ++ member_chunks enc lvl false r.
Proof. done. Qed.

Lemma concat_item_chunks (enc : Json -> list ustr) (lvl : nat) (first : bool) (x : Json) (l : list Json) :
  Forall (fun y => concat (enc y) = dump_at (S lvl) y) (x :: l) ->
  concat (item_chunks enc lvl first (x :: l)) =
  (if first then [91] else [44]) ++ newline_indent (S lvl) ++ dump_at (S lvl) x ++
  flat_map (fun q => [44] ++ newline_indent (S lvl) ++ q) (map (dump_at (S lvl)) l).
Proof.
  revert first x. induction l as [|y l IHl]; intros first x Hall; apply Forall_cons in Hall as [Hx Hall];
    rewrite item_chunks_cons, concat_app; [|rewrite IHl by done];
    (destruct (is_container x); cbn [concat]; rewrite ?Hx; destruct first; cbn [app map flat_map concat];
     rewrite <- ?app_assoc, ?app_nil_r; reflexivity).
Qed.

Lemma concat_member_chunks (enc : Json -> list ustr) (lvl : nat) (first : bool) (kv : ustr * Json)
    (l : list (ustr * Json)) :
  Forall (fun kv => concat (enc kv.2) = dump_at (S lvl) kv.2) (kv :: l) ->
  concat (member_chunks enc lvl first (kv :: l)) =
  (if first then [] else [44] ++ newline_indent (S lvl)) ++
  encode_basestring kv.1 ++ [58; 32] ++ dump_at (S lvl) kv.2 ++
  flat_map (fun q => [44] ++ newline_indent (S lvl) ++ q)
    (map (fun kv => encode_basestring kv.1 ++ [58; 32] ++ dump_at (S lvl) kv.2) l).
Proof.
  revert first kv. induction l as [|kv' l IHl]; intros first kv Hall; apply Forall_cons in Hall as [Hx Hall];
    rewrite member_chunks_cons, !concat_app; [|rewrite IHl by done];
    (destruct (is_container kv.2); cbn [concat]; rewrite ?Hx; destruct first; cbn [app map flat_map concat];
     rewrite <- ?app_assoc, ?app_nil_r; reflexivity).
Qed.

(** [json.dump] writes, chunk after chunk, exactly the text [dump]. *)
Lemma iterencode_dump (j : Json) : forall lvl, concat (iterencode_at lvl j) = dump_at lvl j.
Proof.
  induction j as [|b|z|l|s|l IH|l IH] using Json_ind'; intros lvl; try (simpl; rewrite ?app_nil_r; done).
  - destruct l as [|x l]; [done|]. cbn [iterencode_at dump_at join_items map].
    rewrite concat_app, concat_item_chunks by (eapply Forall_impl; [exact IH|]; done).
    cbn [app concat]. rewrite <- ?app_assoc, ?app_nil_r. cbn [app]. rewrite <- ?app_assoc. reflexivity.
  - destruct l as [|kv l]; [done|]. cbn [iterencode_at dump_at join_items map].
    rewrite !concat_app, concat_member_chunks by (eapply Forall_impl; [exact IH|]; done).
    cbn [app concat]. rewrite <- ?app_assoc, ?app_nil_r. cbn [app]. rewrite <- ?app_assoc. reflexivity.
Qed.

(** ** CPython's limits

    Two limits of CPython 3.11 are not modelled by [dump] and [loads]:
    the recursion limit (1000 frames by default; the pure-Python
    encoder [json.dump] uses with an [indent] and the C scanner of
    [json.load] take one or two frames per nested list or dict, past
    which they raise [RecursionError]) and the limit on the digits of an
    integer converted to or from a string
    ([sys.int_info.default_max_str_digits] = 4300, past which
    [int.__repr__] and [int()] raise [ValueError]).  [within_limits]
    states the values for which neither can be reached: at most 100
    nested containers and integers of at most 4300 digits. *)

Fixpoint depth (j : Json) : nat :=
  match j with
  | JSArr l => S ((fix go l := match l with [] => 0%nat | x :: r => Nat.max (depth x) (go r) end) l)
  | JSObj l => S ((fix go (l : list (ustr * Json)) :=
                     match l with [] => 0%nat | x :: r => Nat.max (depth x.2) (go r) end) l)
  | _ => 0%nat
  end.

Fixpoint ints_within (j : Json) : Prop :=
  match j with
  | JSInt z => (Z.abs z < 10 ^ 4300)%Z
  | JSArr l => (fix go l := match l with [] => True | x :: r => ints_within x /\ go r end) l
  | JSObj l => (fix go (l : list (ustr * Json)) :=
                  match l with [] => True | x :: r => ints_within x.2 /\ go r end) l
  | _ => True
  end.

Definition within_limits (j : Json) : Prop := (depth j <= 100)%nat /\ ints_within j.

(** ** Properties of the codec *)

(** C16: Round trip: [json.load] reads back exactly what [json.dump] with
    [indent=2, ensure_ascii=False] wrote, for every value without floats
    whose objects have distinct keys, within CPython's recursion and
    integer-digit limits (beyond them CPython raises instead of
    returning, which the model does not represent). *)
Theorem loads_dump (j : Json) : dumpable j -> within_limits j -> loads (dump j) = LoadOk j.
Proof. intros Hj _. by apply dump_loads. Qed.

Lemma loads_dump_witness :
  let j := JSObj [(u "a", JSArr [JSInt (-3)%Z; JSStr [10; 233]]); (u "b", JSNull)] in
  dumpable j /\ within_limits j /\ loads (dump j) = LoadOk j.
Proof.
  intros j. assert (Hd : dumpable j) by (simpl; split_and!; try done; by_eval).
  assert (Hl : within_limits j) by (split; [by_eval|simpl; split_and!; try done; by vm_compute]).
  split_and!; [exact Hd|exact Hl|apply loads_dump; [exact Hd|exact Hl]].
Defined.

(** ** The characters [dump] writes

    Besides the characters of the strings it is given, [dump] writes only
    ASCII characters other than a carriage return: punctuation, spaces,
    newlines, digits, the letters of the constants and of the escapes. *)

(** A string whose characters from the space on satisfy [P]; the control
    characters below it are escaped. *)
Definition str_chars (P : N -> Prop) (s : ustr) : Prop := Forall (fun c => 32 <= c -> P c) s.

Fixpoint json_chars (P : N -> Prop) (j : Json) : Prop :=
  match j with
  | JSFloat lit => Forall P lit
  | JSStr s => str_chars P s
  | JSArr l => (fix go l := match l with [] => True | x :: r => json_chars P x /\ go r end) l
  | JSObj l =>
      (fix go (l : list (ustr * Json)) :=
         match l with [] => True | x :: r => (str_chars P x.1 /\ json_chars P x.2) /\ go r end) l
  | _ => True
  end.

Lemma json_chars_arr (P : N -> Prop) (l : list Json) :
  json_chars P (JSArr l) <-> Forall (json_chars P) l.
Proof.
  simpl. induction l as [|x l IH]; [split; [constructor|done]|]. rewrite Forall_cons. tauto.
Qed.

Lemma json_chars_obj (P : N -> Prop) (l : list (ustr * Json)) :
  json_chars P (JSObj l) <-> Forall (fun kv => str_chars P kv.1 /\ json_chars P kv.2) l.
Proof.
  simpl. induction l as [|x l IH]; [split; [constructor|done]|]. rewrite Forall_cons. tauto.
Qed.

Section DumpChars.
Variable P : N -> Prop.
Hypothesis HP : forall c, c < 128 -> c <> 13 -> P c.

Lemma ascii_chars (s : ustr) : Forall (fun c => c < 128 /\ c <> 13) s -> Forall P s.
Proof. intros H. eapply Forall_impl; [exact H|]. intros c []. by apply HP. Qed.

Lemma ascii_lit (s : ustr) : forallb (fun c => (c <? 128) && negb (c =? 13)) s = true -> Forall P s.
Proof.
  intros H. apply ascii_chars, Forall_forall. intros c Hc. eapply forallb_forall in H; [|by apply list_elem_of_In].
  apply andb_true_iff in H as [H1 H2]. apply negb_true_iff, N.eqb_neq in H2. apply N.ltb_lt in H1. done.
Qed.

Lemma dec_chars (n : N) : Forall P (dec n).
Proof.
  apply ascii_chars. destruct (digits_rev_shape (N.to_nat n + 1) n ltac:(lia)) as (ds & d & E & Hall & _).
  unfold dec. rewrite E. apply Forall_rev. eapply Forall_impl; [exact Hall|].
  intros c Hc. unfold is_ascii_digit in Hc. apply andb_true_iff in Hc as [H1 H2].
  apply N.leb_le in H1, H2. lia.
Qed.

Lemma escape_chars (c : N) : (32 <= c -> P c) -> Forall P (escape_char c).
Proof.
  intros Hc. unfold escape_char.
  repeat (destruct (_ =? _); [by apply ascii_lit|]).
  destruct (N.ltb_spec c 32) as [Hl|Hl]; [|repeat constructor; by apply Hc].
  apply ascii_chars. apply Forall_app; split; [repeat constructor; lia|].
  assert (Hd : forall x, hex_digit (x mod 16) < 128 /\ hex_digit (x mod 16) <> 13).
  { intros x. pose proof (N.mod_lt x 16 ltac:(lia)). unfold hex_digit.
    set (d := x mod 16) in *. clearbody d. destruct (N.ltb_spec d 10); lia. }
  unfold hex4. repeat constructor; apply Hd.
Qed.

Lemma basestring_chars (s : ustr) : str_chars P s -> Forall P (encode_basestring s).
Proof.
  intros Hs. unfold encode_basestring. apply Forall_app; split; [by apply ascii_lit|].
  apply Forall_app; split; [|by apply ascii_lit].
  induction Hs as [|c s Hc Hs IH]; [constructor|]. apply Forall_app; split; [by apply escape_chars|done].
Qed.

Lemma indent_chars (lvl : nat) : Forall P (newline_indent lvl).
Proof.
  apply ascii_chars. constructor; [lia|]. apply Forall_replicate. lia.
Qed.

Lemma join_items_chars (lvl : nat) (parts : list ustr) :
  Forall (Forall P) parts -> Forall P (join_items lvl parts).
Proof.
  intros H. destruct H as [|p ps Hp Hps]; [constructor|]. cbn [join_items].
  rewrite !Forall_app. split_and!; [apply indent_chars|done|].
  induction Hps as [|q qs Hq Hqs IH]; [constructor|]. cbn [flat_map]. rewrite !Forall_app.
  split_and!; [by apply ascii_lit|apply indent_chars|done|done].
Qed.

Lemma dump_chars (j : Json) : json_chars P j -> forall lvl, Forall P (dump_at lvl j).
Proof.
  induction j as [| b | z | lit | s | l IH | l IH] using Json_ind'; intros Hj lvl; cbn [dump_at].
  1,2: try destruct b; by apply ascii_lit.
  - unfold int_repr. case_match; [|apply dec_chars]. constructor; [apply HP; lia|apply dec_chars].
  - done.
  - by apply basestring_chars.
  - apply json_chars_arr in Hj. destruct l as [|x l]; [by apply ascii_lit|].
    rewrite !Forall_app. split_and!; [by apply ascii_lit| |apply indent_chars|by apply ascii_lit].
    apply join_items_chars, Forall_fmap. eapply Forall_impl; [exact (proj2 (Forall_and _ _) (conj IH Hj))|].
    intros y [Hy1 Hy2]. by apply Hy1.
  - apply json_chars_obj in Hj. destruct l as [|kv l]; [by apply ascii_lit|].
    rewrite !Forall_app. split_and!; [by apply ascii_lit| |apply indent_chars|by apply ascii_lit].
    apply join_items_chars, Forall_fmap. eapply Forall_impl; [exact (proj2 (Forall_and _ _) (conj IH Hj))|].
    intros y [Hy1 [Hk Hy2]]. unfold compose. rewrite !Forall_app.
    split_and!; [by apply basestring_chars|by apply ascii_lit|by apply Hy1].
Qed.

End DumpChars.

(** A value [dump] can write back holds no float, so its text holds no
    carriage return. *)
Lemma dump_no_cr (j : Json) (lvl : nat) : dumpable j -> 13 ∉ dump_at lvl j.
Proof.
  intros Hj Hin. assert (Hall : Forall (fun c => c <> 13) (dump_at lvl j)).
  2: { by apply (proj1 (Forall_forall _ _) Hall) in Hin. }
  apply dump_chars; [done|]. clear Hin.
  induction j as [| b | z | lit | s | l IH | l IH] using Json_ind'; try done.
  - apply Forall_forall. intros c _ Hc. lia.
  - apply dumpable_arr in Hj. apply json_chars_arr.
    eapply Forall_impl; [exact (proj2 (Forall_and _ _) (conj IH Hj))|]. intros y [Hy1 Hy2]. by apply Hy1.
  - apply dumpable_obj in Hj as [_ Hj]. apply json_chars_obj.
    eapply Forall_impl; [exact (proj2 (Forall_and _ _) (conj IH Hj))|]. intros y [Hy1 Hy2].
    split; [apply Forall_forall; intros c _ Hc; lia|by apply Hy1].
Qed.

End Json.
