(* ===== verification/Utf8.v ===== *)
(** * The bytes on disk: UTF-8 and text-mode files

    The extractor opens its output with [open(output_file, 'w',
    encoding='utf-8')] ([src/excel_to_json_converter.py], line 247); the
    loaders open the same file with [open('tpm_scoreboards_data.json', 'r')]
    ([src/import_scoreboards_to_supabase.py], line 346;
    [src/import_commitments_only.py], line 106), that is with the locale's
    preferred encoding and universal newlines.  This file models:

    - [encode_char]/[encode]: CPython's UTF-8 encoder with
      [errors='strict'] ([utf8_encoder] in [Objects/stringlib/codecs.h]):
      one to four bytes by the code point's range, a surrogate an
      [UnicodeEncodeError];
    - [decode]: CPython's strict UTF-8 decoder ([utf8_decode]): the
      well-formed byte sequences of the Unicode standard, anything else an
      [UnicodeDecodeError];
    - [decode_latin1]: the ISO-8859-1 codec, for a locale whose preferred
      encoding is not UTF-8;
    - [write_chunks]: a text file opened for writing receives each
      [write] call's text encoded as a whole; an encoding error stops the
      writes, and what was written before stays in the file;
    - [translate_newlines]: universal newlines on reading.

    [decode_encode] shows that decoding gives back every string of
    Unicode scalar values the encoder accepts. *)

From Stdlib Require Import NArith Lia.
From stdpp Require Import base list.
From S2P Require Import Prelude.

Open Scope N_scope.

Module Utf8.

(** A byte, as its value 0..255. *)
Abbreviation bytes := (list N).

Definition is_surrogate (c : N) : bool := (55296 <=? c) && (c <=? 57343).

(** [utf8_encoder] on one code point; [None] for [UnicodeEncodeError]. *)
Definition encode_char (c : N) : option bytes :=
  if c <? 128 then Some [c]
  else if c <? 2048 then
    Some [N.lor 192 (N.shiftr c 6); N.lor 128 (N.land c 63)]
  else if is_surrogate c then None
  else if c <? 65536 then
    Some [N.lor 224 (N.shiftr c 12); N.lor 128 (N.land (N.shiftr c 6) 63); N.lor 128 (N.land c 63)]
  else if c <? 1114112 then
    Some [N.lor 240 (N.shiftr c 18); N.lor 128 (N.land (N.shiftr c 12) 63);
          N.lor 128 (N.land (N.shiftr c 6) 63); N.lor 128 (N.land c 63)]
  else None.

(** [str.encode('utf-8')]. *)
Fixpoint encode (s : ustr) : option bytes :=
  match s with
  | [] => Some []
  | c :: r => match encode_char c, encode r with
              | Some b, Some rb => Some (b ++ rb)
              | _, _ => None
              end
  end.

(** The code points the encoder accepts: the Unicode scalar values. *)
Definition is_scalar (c : N) : bool := (c <? 1114112) && negb (is_surrogate c).

Definition is_cont (b : N) : bool := (128 <=? b) && (b <? 192).

(** [utf8_decode] with [errors='strict']: the lead byte gives the length,
    the second byte's range excludes overlong forms, surrogates and code
    points above U+10FFFF, and every continuation byte is 0x80..0xBF. *)
Fixpoint decode (bs : bytes) : option ustr :=
  match bs with
  | [] => Some []
  | b1 :: r1 =>
      if b1 <? 128 then option_map (cons b1) (decode r1)
      else if b1 <? 194 then None
      else if b1 <? 224 then
        match r1 with
        | b2 :: r2 =>
            if is_cont b2 then option_map (cons (N.shiftl b1 6 + b2 - (N.shiftl 192 6 + 128))) (decode r2)
            else None
        | [] => None
        end
      else if b1 <? 240 then
        match r1 with
        | b2 :: b3 :: r3 =>
            if is_cont b2 && is_cont b3 &&
               negb ((b1 =? 224) && (b2 <? 160)) && negb ((b1 =? 237) && (160 <=? b2)) then
              option_map (cons (N.shiftl b1 12 + N.shiftl b2 6 + b3
                                - (N.shiftl 224 12 + N.shiftl 128 6 + 128))) (decode r3)
            else None
        | _ => None
        end
      else if b1 <? 245 then
        match r1 with
        | b2 :: b3 :: b4 :: r4 =>
            if is_cont b2 && is_cont b3 && is_cont b4 &&
               negb ((b1 =? 240) && (b2 <? 144)) && negb ((b1 =? 244) && (144 <=? b2)) then
              option_map (cons (N.shiftl b1 18 + N.shiftl b2 12 + N.shiftl b3 6 + b4
                                - (N.shiftl 240 18 + N.shiftl 128 12 + N.shiftl 128 6 + 128))) (decode r4)
            else None
        | _ => None
        end
      else None
  end.

(** The ISO-8859-1 codec: each byte is the code point of its value. *)
Definition decode_latin1 (bs : bytes) : ustr := bs.

(** The writes of a text file opened with an encoder: the bytes of the
    chunks written before the first that fails to encode, and whether
    one failed. *)
Fixpoint write_chunks (enc : ustr -> option bytes) (chunks : list ustr) : bytes * bool :=
  match chunks with
  | [] => ([], true)
  | c :: cs => match enc c with
               | Some b => let '(rest, ok) := write_chunks enc cs in (b ++ rest, ok)
               | None => ([], false)
               end
  end.

(** Universal newlines on reading: [\r\n] and a lone [\r] become [\n]. *)
Fixpoint translate_newlines (s : ustr) : ustr :=
  match s with
  | [] => []
  | c :: r =>
      if c =? 13 then
        match r with
        | d :: r' => if d =? 10 then 10 :: translate_newlines r' else 10 :: translate_newlines r
        | [] => [10]
        end
      else c :: translate_newlines r
  end.

(** ** Bits as arithmetic *)

Lemma lor_add (a x k : N) : a mod 2 ^ k = 0 -> x < 2 ^ k -> N.lor a x = a + x.
Proof.
  intros Ha Hx. assert (Hl : N.land a x = 0).
  { rewrite <- (N.mod_small x (2 ^ k)) by done.
    rewrite <- N.land_ones, (N.land_comm x), N.land_assoc, N.land_ones, Ha. apply N.land_0_l. }
  by rewrite N.add_nocarry_lxor, N.lxor_lor.
Qed.

Lemma land_63 (x : N) : N.land x 63 = x mod 64.
Proof. change 63 with (N.ones 6). by rewrite N.land_ones. Qed.

Lemma shiftr_pow (x k : N) : N.shiftr x k = x / 2 ^ k.
Proof. apply N.shiftr_div_pow2. Qed.

Lemma shiftl_pow (x k : N) : N.shiftl x k = x * 2 ^ k.
Proof. apply N.shiftl_mul_pow2. Qed.

(** A number below [64 * m] is [64] times its quotient plus its
    remainder. *)
Lemma split64 (c : N) : c = 64 * (c / 64) + c mod 64 /\ c mod 64 < 64.
Proof. split; [apply N.div_mod; lia|apply N.mod_lt; lia]. Qed.

(** Rewrites every comparison of the goal that [lia] decides. *)
Ltac decide_cmp :=
  repeat match goal with
  | |- context [?a <? ?b] =>
      first [rewrite (proj2 (N.ltb_lt a b)) by lia | rewrite (proj2 (N.ltb_ge a b)) by lia]
  | |- context [?a <=? ?b] =>
      first [rewrite (proj2 (N.leb_le a b)) by lia | rewrite (proj2 (N.leb_gt a b)) by lia]
  | |- context [?a =? ?b] =>
      first [rewrite (proj2 (N.eqb_eq a b)) by lia | rewrite (proj2 (N.eqb_neq a b)) by lia]
  end; cbn [andb orb negb].

(** [decide_cmp], splitting on the equalities [lia] cannot decide alone. *)
Ltac decide_all :=
  decide_cmp;
  repeat (match goal with |- context [?a =? ?b] => destruct (N.eqb_spec a b) end; decide_cmp).

(** ** Decoding what was encoded *)

Lemma decode_encode_char (c : N) (b rest : bytes) :
  encode_char c = Some b -> decode (b ++ rest) = option_map (cons c) (decode rest).
Proof.
  unfold encode_char, is_surrogate. intros H.
  destruct (N.ltb_spec c 128) as [H1|H1].
  { injection H as <-. cbn [app decode]. by decide_cmp. }
  destruct (N.ltb_spec c 2048) as [H2|H2].
  { injection H as <-. rewrite land_63, shiftr_pow. change (2 ^ 6) with 64.
    destruct (split64 c) as [Ec Hr]. set (q := c / 64) in *. set (r := c mod 64) in *. clearbody q r.
    rewrite (lor_add 192 q 6), (lor_add 128 r 6) by (done || change (2 ^ 6) with 64; lia).
    cbn [app decode]. unfold is_cont. decide_cmp. rewrite !shiftl_pow. f_equal. f_equal. simpl. lia. }
  destruct ((55296 <=? c) && (c <=? 57343)) eqn:Hs; [done|].
  apply andb_false_iff in Hs as [Hs|Hs]; [apply N.leb_gt in Hs|apply N.leb_gt in Hs].
  all: destruct (N.ltb_spec c 65536) as [H3|H3].
  1,3: injection H as <-; rewrite !land_63, !shiftr_pow; change (2 ^ 6) with 64; change (2 ^ 12) with 4096;
       destruct (split64 c) as [Ec Hr]; destruct (split64 (c / 64)) as [Eq Hm];
       rewrite N.Div0.div_div in Eq by lia; change (64 * 64) with 4096 in Eq;
       set (q := c / 4096) in *; set (m := (c / 64) mod 64) in *; set (r := c mod 64) in *;
       set (p := c / 64) in *; clearbody q m r p;
       rewrite (lor_add 224 q 5), (lor_add 128 m 6), (lor_add 128 r 6)
         by (done || (change (2 ^ 6) with 64; lia) || (change (2 ^ 5) with 32; lia));
       cbn [app decode]; unfold is_cont; decide_all; rewrite !shiftl_pow; f_equal; f_equal; simpl; lia.
  all: destruct (N.ltb_spec c 1114112) as [H4|H4]; [|done].
  all: try (exfalso; lia).
  all: injection H as <-; rewrite !land_63, !shiftr_pow; change (2 ^ 6) with 64; change (2 ^ 12) with 4096;
       change (2 ^ 18) with 262144;
       destruct (split64 c) as [Ec Hr]; destruct (split64 (c / 64)) as [Eq Hm];
       destruct (split64 (c / 4096)) as [Eq2 Hm2];
       rewrite N.Div0.div_div in Eq, Eq2 by lia; change (64 * 64) with 4096 in Eq;
       change (4096 * 64) with 262144 in Eq2;
       set (q := c / 262144) in *; set (m2 := (c / 4096) mod 64) in *; set (m := (c / 64) mod 64) in *;
       set (r := c mod 64) in *; set (p2 := c / 4096) in *; set (p := c / 64) in *; clearbody q m2 m r p2 p;
       rewrite (lor_add 240 q 3), (lor_add 128 m2 6), (lor_add 128 m 6), (lor_add 128 r 6)
         by (done || (change (2 ^ 6) with 64; lia) || (change (2 ^ 3) with 8; lia));
       cbn [app decode]; unfold is_cont; decide_all; rewrite !shiftl_pow; f_equal; f_equal; simpl; lia.
Qed.

Lemma decode_of_encode (s : ustr) (b : bytes) : encode s = Some b -> decode b = Some s.
Proof.
  revert b; induction s as [|c s IH]; intros b H; simpl in H.
  - by injection H as <-.
  - destruct (encode_char c) as [bc|] eqn:Ec; [|done]. destruct (encode s) as [bs|]; [|done].
    injection H as <-. by rewrite (decode_encode_char c bc bs Ec), (IH bs eq_refl).
Qed.

Lemma encode_char_scalar (c : N) : is_scalar c = true -> exists b, encode_char c = Some b.
Proof.
  unfold is_scalar, encode_char. intros [Hc Hs]%andb_true_iff. apply negb_true_iff in Hs. rewrite Hs.
  repeat (case_match; [by eexists|]). by rewrite Hc in *.
Qed.

Lemma encode_total (s : ustr) : Forall (fun c => is_scalar c = true) s -> exists b, encode s = Some b.
Proof.
  induction 1 as [|c s Hc _ [b IH]]; [by exists []|]. destruct (encode_char_scalar c Hc) as [bc E].
  exists (bc ++ b). simpl. by rewrite E, IH.
Qed.

(** An ASCII text is its own encoding. *)
Lemma encode_ascii (s : ustr) : Forall (fun c => c < 128) s -> encode s = Some s.
Proof.
  induction 1 as [|c s Hc _ IH]; [done|]. simpl. unfold encode_char.
  rewrite (proj2 (N.ltb_lt c 128)) by done. by rewrite IH.
Qed.

Lemma encode_app (s t : ustr) :
  encode (s ++ t) = match encode s, encode t with Some a, Some b => Some (a ++ b) | _, _ => None end.
Proof.
  induction s as [|c s IH]; simpl.
  - by destruct (encode t).
  - rewrite IH. destruct (encode_char c), (encode s), (encode t); by rewrite ?app_assoc.
Qed.

(** When every chunk encodes, the file holds the encoding of their
    concatenation. *)
Lemma write_chunks_concat (chunks : list ustr) (b : bytes) :
  encode (concat chunks) = Some b -> write_chunks encode chunks = (b, true).
Proof.
  revert b; induction chunks as [|c cs IH]; intros b H; simpl in *.
  - by injection H as <-.
  - rewrite encode_app in H. destruct (encode c), (encode (concat cs)) as [bs|] eqn:E; try done.
    injection H as <-. by rewrite (IH bs eq_refl).
Qed.

(** A chunk that fails to encode leaves the bytes of the chunks before it
    in the file. *)
Lemma write_chunks_stop (pre : list ustr) (c : ustr) (post : list ustr) (b : bytes) :
  encode (concat pre) = Some b -> encode c = None ->
  write_chunks encode (pre ++ c :: post) = (b, false).
Proof.
  revert b; induction pre as [|x pre IH]; intros b H Hc; simpl in *.
  - injection H as <-. by rewrite Hc.
  - rewrite encode_app in H. destruct (encode x), (encode (concat pre)) as [bs|]; try done.
    injection H as <-. by rewrite (IH bs eq_refl Hc).
Qed.

Lemma translate_newlines_id (s : ustr) : 13 ∉ s -> translate_newlines s = s.
Proof.
  induction s as [|c s IH]; intros Hn; [done|]. rewrite not_elem_of_cons in Hn.
  destruct Hn as [Hc Hn]. simpl. rewrite (proj2 (N.eqb_neq c 13)) by done. by rewrite IH.
Qed.

(** ** Properties of the codec *)

(** C17: Round trip: CPython's strict UTF-8 decoder gives back every string
    the strict encoder accepts, that is every string of Unicode scalar
    values; the encoder refuses a surrogate and a code point above
    U+10FFFF. *)
Theorem decode_encode (s : ustr) (b : bytes) : encode s = Some b -> decode b = Some s.
Proof. apply decode_of_encode. Qed.

Lemma decode_encode_witness :
  encode [74; 233; 8364; 128512] = Some [74; 195; 169; 226; 130; 172; 240; 159; 152; 128] /\
  decode [74; 195; 169; 226; 130; 172; 240; 159; 152; 128] = Some [74; 233; 8364; 128512].
Proof. split; [reflexivity|]. apply decode_encode. reflexivity. Defined.

End Utf8.
