(* ===== verification/Intermediate.v ===== *)
(** * The intermediate file: the document as JSON text and as bytes

    The extractor's result is a dict of dicts
    ([result[sheet_name] = user_data], [src/excel_to_json_converter.py]
    line 223) whose entries are [{"attendance": .., "commitments": [..]}]
    (lines 217-220) with commitments [{"text": .., "fulfilled": ..}]
    (lines 128-131).  [main] writes it with [json.dump(data, f, indent=2,
    ensure_ascii=False)] to a file opened with [encoding='utf-8'] (lines
    247-248); the loaders read it back with [json.load] from a file opened
    with the locale's encoding (the loader, lines 346-347; the
    commitments-only loader, lines 106-107) and walk it with [.items()],
    [.get('commitments', [])], [.get('attendance', 'unknown')],
    [commitment['text']] and [commitment['fulfilled']].

    This file gives the document's JSON value ([json_of_document]), the
    view the loaders take of a JSON value ([document_of_json]), the bytes
    the extractor writes ([write_document]) and what a loader gets back
    from them ([read_document]), and proves that the file carries the
    document across unchanged when the loaders run in a UTF-8 locale. *)

From Stdlib Require Import NArith String.
From stdpp Require Import base list sets.
From S2P Require Import Prelude Color Emoji Converter Json Utf8.
Import Emoji Converter Json.

Open Scope N_scope.

Module Intermediate.

Abbreviation Document := (list (ustr * user_data)).

(** ** The document as a JSON value *)

(** Lines 128-131: [{"text": clean_text, "fulfilled": fulfilled}]. *)
Definition json_of_commitment (c : Commitment) : Json :=
  JSObj [(u "text", JSStr (text c)); (u "fulfilled", JSStr (fulfilled c))].

(** Lines 217-220. *)
Definition json_of_entry (e : DayEntry) : Json :=
  JSObj [(u "attendance", JSStr (attendance e));
         (u "commitments", JSArr (map json_of_commitment (commitments e)))].

Definition json_of_user_data (ud : user_data) : Json :=
  JSObj (map (fun p => (p.1, json_of_entry p.2)) ud).

(** Line 223: the result dict, in insertion order. *)
Definition json_of_document (d : Document) : Json :=
  JSObj (map (fun p => (p.1, json_of_user_data p.2)) d).

(** ** The loaders' view of a JSON value

    [None] for a value on which the loaders' accesses fail: a list or a
    string where they call [.items()] or index by a key, a missing
    ['text'] or ['fulfilled'], or a value of another type where the model
    has a string.  The point at which the loader then raises, and the
    requests it has sent before, are not modelled. *)

Definition str_of (j : Json) : option ustr := match j with JSStr s => Some s | _ => None end.

(** [commitment['text']], [commitment['fulfilled']]. *)
Definition commitment_of_json (j : Json) : option Commitment :=
  match j with
  | JSObj kvs =>
      t ← dict_get (u "text") kvs ≫= str_of;
      f ← dict_get (u "fulfilled") kvs ≫= str_of;
      Some (mkCommitment t f)
  | _ => None
  end.

(** [date_data.get('attendance', 'unknown')] and
    [date_data.get('commitments', [])]. *)
Definition entry_of_json (j : Json) : option DayEntry :=
  match j with
  | JSObj kvs =>
      a ← match dict_get (u "attendance") kvs with None => Some Color.unknown | Some v => str_of v end;
      cs ← match dict_get (u "commitments") kvs with
           | None => Some []
           | Some (JSArr l) => mapM commitment_of_json l
           | Some _ => None
           end;
      Some (mkDayEntry a cs)
  | _ => None
  end.

(** [for date_str, date_data in user_data.items()]. *)
Definition user_data_of_json (j : Json) : option user_data :=
  match j with
  | JSObj kvs => mapM (fun kv => e ← entry_of_json kv.2; Some (kv.1, e)) kvs
  | _ => None
  end.

(** [for full_name, user_data in scoreboards_data.items()]. *)
Definition document_of_json (j : Json) : option Document :=
  match j with
  | JSObj kvs => mapM (fun kv => ud ← user_data_of_json kv.2; Some (kv.1, ud)) kvs
  | _ => None
  end.

(** ** The bytes of the file *)

(** The preferred encoding of the locale the loaders run in. *)
Inductive Locale := Utf8Locale | Latin1Locale.

Definition read_text (loc : Locale) (bs : Utf8.bytes) : option ustr :=
  match loc with
  | Utf8Locale => Utf8.decode bs
  | Latin1Locale => Some (Utf8.decode_latin1 bs)
  end.

(** Lines 247-248 of the extractor: the bytes written, and whether
    [json.dump] returned (an encoding error raises out of the [with]
    block, which closes the file with what was written). *)
Definition write_document (data : Document) : Utf8.bytes * bool :=
  Utf8.write_chunks Utf8.encode (iterencode (json_of_document data)).

(** What [open(..., 'r')] and [json.load] give the loader, then its view
    of the value. *)
Inductive ReadResult :=
| FileNotFound                   (** [FileNotFoundError], caught *)
| UnicodeDecodeError             (** raised, not caught *)
| DecodeError (msg : string)     (** [json.JSONDecodeError], raised, not caught *)
| NotADocument (j : Json)        (** the loader fails later on its accesses *)
| ReadOk (doc : Document).

Definition read_document (loc : Locale) (file : option Utf8.bytes) : ReadResult :=
  match file with
  | None => FileNotFound
  | Some bs =>
      match read_text loc bs with
      | None => UnicodeDecodeError
      | Some text =>
          match loads (Utf8.translate_newlines text) with
          | JSONDecodeError m => DecodeError m
          | LoadOk j => match document_of_json j with Some d => ReadOk d | None => NotADocument j end
          end
      end
  end.

(** ** Shapes *)

(** The dict keys are distinct at both levels of the document. *)
Definition doc_keys_wf (d : Document) : Prop :=
  NoDup (map fst d) /\ Forall (fun p => NoDup (map fst p.2)) d.

(** Every string of the document: names, dates, attendance, commitment
    texts and their status. *)
Definition doc_strings (d : Document) : list ustr :=
  flat_map (fun p => p.1 :: flat_map (fun q => q.1 :: attendance q.2 ::
              flat_map (fun c => [text c; fulfilled c]) (commitments q.2)) p.2) d.

(** ** Reading the document back *)

Lemma mapM_map_some {A B C} (f : B -> option C) (g : A -> B) (h : A -> C) (l : list A) :
  (forall x, f (g x) = Some (h x)) -> mapM f (map g l) = Some (map h l).
Proof. intros H. induction l as [|x l IH]; [done|]. simpl. by rewrite H, IH. Qed.

Lemma entry_roundtrip (e : DayEntry) : entry_of_json (json_of_entry e) = Some e.
Proof.
  destruct e as [a cs]. unfold entry_of_json, json_of_entry.
  rewrite dict_get_cons_eq, dict_get_cons_ne, dict_get_cons_eq by by_eval. simpl.
  rewrite (mapM_map_some _ _ id); [by rewrite list_fmap_id|]. intros [t f].
  unfold json_of_commitment, commitment_of_json.
  rewrite dict_get_cons_eq, dict_get_cons_ne, dict_get_cons_eq by by_eval. done.
Qed.

Lemma user_data_roundtrip (ud : user_data) : user_data_of_json (json_of_user_data ud) = Some ud.
Proof.
  unfold user_data_of_json, json_of_user_data. rewrite (mapM_map_some _ _ id); [by rewrite list_fmap_id|].
  intros [k e]. cbv beta. cbn [fst snd]. by rewrite entry_roundtrip.
Qed.

Lemma document_roundtrip (d : Document) : document_of_json (json_of_document d) = Some d.
Proof.
  unfold document_of_json, json_of_document. rewrite (mapM_map_some _ _ id); [by rewrite list_fmap_id|].
  intros [k ud]. cbv beta. cbn [fst snd]. by rewrite user_data_roundtrip.
Qed.

(** ** What [json.dump] can write back *)

Lemma map_fst_pair {A B C} (f : B -> C) (l : list (A * B)) :
  map fst (map (fun p => (p.1, f p.2)) l) = map fst l.
Proof. rewrite map_map. by apply map_ext. Qed.

Lemma commitment_dumpable (c : Commitment) : dumpable (json_of_commitment c).
Proof. apply dumpable_obj. split; [by_eval|repeat constructor]. Qed.

Lemma entry_dumpable (e : DayEntry) : dumpable (json_of_entry e).
Proof.
  apply dumpable_obj. split; [by_eval|]. repeat constructor. simpl.
  apply dumpable_arr, Forall_forall. intros j (c & -> & _)%list_elem_of_fmap. apply commitment_dumpable.
Qed.

Lemma json_of_document_dumpable (d : Document) : doc_keys_wf d -> dumpable (json_of_document d).
Proof.
  intros [Hnd Hud]. apply dumpable_obj. rewrite map_fst_pair. split; [done|].
  apply Forall_fmap. eapply Forall_impl; [exact Hud|]. intros [k ud] Hk. simpl in *.
  apply dumpable_obj. rewrite map_fst_pair. split; [done|].
  apply Forall_fmap, Forall_forall. intros p _. apply entry_dumpable.
Qed.

Section Chars.
Variable P : N -> Prop.
Hypothesis HP : forall c, c < 128 -> P c.

Lemma key_chars (k : ustr) : forallb (fun c => c <? 128) k = true -> str_chars P k.
Proof.
  intros H. apply Forall_forall. intros c Hc _. apply HP.
  eapply forallb_forall in H; [|by apply list_elem_of_In]. by apply N.ltb_lt.
Qed.

Lemma document_chars (d : Document) :
  Forall (str_chars P) (doc_strings d) -> json_chars P (json_of_document d).
Proof.
  unfold doc_strings. rewrite Forall_flat_map. intros H. apply json_chars_obj, Forall_fmap.
  eapply Forall_impl; [exact H|]. intros [k ud] [Hk Hud]%Forall_cons. cbn [fst snd] in *. split; [done|].
  apply json_chars_obj, Forall_fmap. rewrite Forall_flat_map in Hud.
  eapply Forall_impl; [exact Hud|]. intros [dt e] He. apply Forall_cons in He as [Hdt He]. apply Forall_cons in He as [Ha Hc]. cbn [fst snd] in *.
  split; [done|]. apply json_chars_obj.
  constructor; [split; [by apply key_chars|done]|]. constructor; [split; [by apply key_chars|]|constructor].
  apply json_chars_arr, Forall_fmap. rewrite Forall_flat_map in Hc.
  eapply Forall_impl; [exact Hc|]. intros [t f] Htf. apply Forall_cons in Htf as [Ht Hf].
  apply Forall_cons in Hf as [Hf _]. apply json_chars_obj.
  constructor; [split; [by apply key_chars|done]|]. constructor; [split; [by apply key_chars|done]|constructor].
Qed.

End Chars.

(** Every string of the document is a string of Unicode scalar values,
    which the UTF-8 codec encodes. *)
Definition doc_encodable (d : Document) : Prop :=
  Forall (Forall (fun c => Utf8.is_scalar c = true)) (doc_strings d).

Lemma dump_encodes (d : Document) :
  doc_encodable d -> exists bs, Utf8.encode (dump (json_of_document d)) = Some bs.
Proof.
  intros He. apply Utf8.encode_total, dump_chars.
  { intros c Hc _. unfold Utf8.is_scalar, Utf8.is_surrogate.
    rewrite (proj2 (N.ltb_lt c 1114112)), (proj2 (N.leb_gt 55296 c)) by lia. done. }
  apply document_chars.
  { intros c Hc. unfold Utf8.is_scalar, Utf8.is_surrogate.
    rewrite (proj2 (N.ltb_lt c 1114112)), (proj2 (N.leb_gt 55296 c)) by lia. done. }
  eapply Forall_impl; [exact He|]. intros s Hs. eapply Forall_impl; [exact Hs|]. by intros c Hc _.
Qed.

(** The text of the file is the document's [dump]: the chunks that
    [json.dump] writes join to it. *)
Lemma write_document_ok (d : Document) (bs : Utf8.bytes) :
  Utf8.encode (dump (json_of_document d)) = Some bs -> write_document d = (bs, true).
Proof.
  intros H. unfold write_document. apply Utf8.write_chunks_concat. unfold iterencode.
  by rewrite iterencode_dump.
Qed.

(** Reading the text [dump] wrote gives the document back. *)
Lemma read_dump (loc : Locale) (d : Document) (bs : Utf8.bytes) :
  doc_keys_wf d -> read_text loc bs = Some (dump (json_of_document d)) ->
  read_document loc (Some bs) = ReadOk d.
Proof.
  intros Hk Ht. pose proof (json_of_document_dumpable d Hk) as Hd. simpl. rewrite Ht.
  rewrite Utf8.translate_newlines_id by (by apply dump_no_cr).
  by rewrite dump_loads, document_roundtrip.
Qed.

(** The extractor's document has distinct names, each a sheet name, and
    distinct dates under each name. *)
Lemma convert_keys (wb : Workbook) :
  NoDup (map fst (convert_excel_to_json wb)) /\
  forall k, k ∈ map fst (convert_excel_to_json wb) -> k ∈ map fst wb.
Proof.
  unfold convert_excel_to_json. rewrite fold_convert. split.
  - apply dict_set_all_NoDup. constructor.
  - intros k Hk. destruct (dict_set_all_keys _ _ _ Hk) as [Hin|Hin]; [set_solver|].
    by apply kept_sheets_keys.
Qed.

Lemma convert_doc_keys_wf (wb : Workbook) : doc_keys_wf (convert_excel_to_json wb).
Proof.
  split; [apply convert_keys|]. apply Forall_forall. intros [k ud] Hin. simpl.
  unfold convert_excel_to_json in Hin. rewrite fold_convert in Hin.
  apply dict_set_all_elem in Hin as [Hin|Hin]; [set_solver|].
  unfold kept_sheets in Hin. apply list_elem_of_omap in Hin as ([n ws] & _ & Hws).
  simpl in Hws. destruct (convert_sheet ws) as [ud'|] eqn:E; [|discriminate]. injection Hws as <- <-.
  destruct (convert_sheet_some ws ud' E) as (dc & cc & _ & _ & ->).
  apply dict_set_all_NoDup. constructor.
Qed.

(** ** Documents for the examples *)

(** A document with a non-ASCII name, "Jos\u00e9". *)
Definition jose_doc : Document :=
  [(u "Jos" ++ [233], [(u "2024-01-10", mkDayEntry Color.attended [mkCommitment (u "Ship") (u "true")])])].

(** The same with a commitment text holding a lone surrogate, which the
    UTF-8 codec refuses. *)
Definition surrogate_doc : Document :=
  [(u "Jane", [(u "2024-01-10", mkDayEntry Color.attended [mkCommitment [55357] (u "true")])])].

Lemma write_read_utf8 (d : Document) :
  doc_keys_wf d -> doc_encodable d ->
  exists bs, write_document d = (bs, true) /\ read_document Utf8Locale (Some bs) = ReadOk d.
Proof.
  intros Hk He. destruct (dump_encodes d He) as [bs Hbs]. exists bs.
  split; [by apply write_document_ok|]. apply read_dump; [done|]. by apply Utf8.decode_of_encode.
Qed.

(** ** Properties of the file *)

(** C15: Round trip through the file: for a document whose dicts have
    distinct keys and whose strings are Unicode scalar values, [json.dump]
    into the UTF-8 file returns, and a loader running in a UTF-8 locale
    reads back exactly the document: the same names, dates, entries and
    commitments, in the same order. *)
Theorem file_roundtrip (d : Document) :
  doc_keys_wf d -> doc_encodable d ->
  exists bs, write_document d = (bs, true) /\ read_document Utf8Locale (Some bs) = ReadOk d.
Proof. apply write_read_utf8. Qed.

(** In a locale whose encoding is Latin-1, the loader reads the
    document back unchanged when all its strings are ASCII. *)
Theorem file_roundtrip_latin1_ascii (d : Document) :
  doc_keys_wf d -> Forall (Forall (fun c => c < 128)) (doc_strings d) ->
  exists bs, write_document d = (bs, true) /\ read_document Latin1Locale (Some bs) = ReadOk d.
Proof.
  intros Hk Ha. exists (dump (json_of_document d)).
  assert (Hc : Forall (fun c => c < 128) (dump (json_of_document d))).
  { apply dump_chars; [lia|]. apply document_chars; [done|].
    eapply Forall_impl; [exact Ha|]. intros s Hs. eapply Forall_impl; [exact Hs|]. by intros c Hc _. }
  split; [by apply write_document_ok, Utf8.encode_ascii|]. by apply read_dump.
Qed.

Lemma file_roundtrip_witness :
  exists bs, write_document jose_doc = (bs, true) /\ read_document Utf8Locale (Some bs) = ReadOk jose_doc.
Proof. apply file_roundtrip; [split; by_eval|by_eval]. Defined.

Lemma file_roundtrip_latin1_ascii_witness :
  let d := convert_excel_to_json [(u "Jane Doe", jane_sheet)] in
  exists bs, write_document d = (bs, true) /\ read_document Latin1Locale (Some bs) = ReadOk d.
Proof. apply file_roundtrip_latin1_ascii; [split; by_eval|by_eval]. Defined.

(** In a Latin-1 locale the loader reads the UTF-8 bytes of "Jos\u00e9" as
    the two characters of "Jos\u00c3\u00a9": a different name. *)
Lemma latin1_mojibake :
  read_document Latin1Locale (Some (write_document jose_doc).1) =
  ReadOk [(u "Jos" ++ [195; 169], (jose_doc !!! 0%nat).2)].
Proof. vm_compute. reflexivity. Qed.

(** A string the codec refuses stops [json.dump] half way: the file keeps
    the text written before it, which [json.load] then refuses. *)
Lemma surrogate_partial_file :
  (write_document surrogate_doc).2 = false /\
  exists m, read_document Utf8Locale (Some (write_document surrogate_doc).1) = DecodeError m.
Proof. split; [reflexivity|]. eexists. vm_compute. reflexivity. Qed.

End Intermediate.
