(* ===== verification/Remote.v ===== *)
(** * The loaders' view of the world: JSON rows, REST calls, and a monad

    Both loaders talk to the hosted store through [requests.post] and
    [requests.get] on [{SUPABASE_URL}/rest/v1/<table>], read the clock with
    [datetime.now()], and pause with [time.sleep].  This file gives

    - the JSON values the code puts in request bodies ([JVal]) and a row as
      the insertion-ordered dict [json=...] serialises ([Row]);
    - the interface a store offers ([Env], a type class): a POST answers a
      status code, a GET with equality filters and a column selection
      answers a status code and the rows of [response.json()], the clock
      answers [datetime.now().isoformat()];
    - the loader's monad [M]: explicit state passing over the world of an
      [Env] and a trace of the requests issued, with Python's exceptions as
      an error value ([Exc]), so that a raise keeps the effects already
      done, as the real, non-transactional run does;
    - [wp]: a weakest-precondition judgement on what a computation returns
      and appends to the trace, in every world, with a law per primitive,
      continuation forms for the tactic [wp_run], and loop rules;
    - [emits]: a computation that, in every world, returns a given value
      and appends a given list of requests, whatever the store answers; the
      importers' loops are shown to be of this kind;
    - [only_to]: the tables a trace posts to, with the tactic
      [solve_only];
    - [at_most]: a bound on the number of requests a computation appends,
      with loop rules and the tactic [at_most_run];
    - [hoare]: total-correctness triples against the store's state (the
      computation returns a value, and the assertions see the world), with
      rules that run a computation symbolically from a known world. *)

From Stdlib Require Import NArith ZArith String.
From stdpp Require Import base list sets.
From S2P Require Import Prelude.

Open Scope N_scope.

Module Remote.

(** ** JSON values and rows *)

(** A float is kept as its Python [repr] (["1.0"], ["0.5"]): the code only
    writes float constants. *)
Inductive JVal :=
| JNull
| JBool (b : bool)
| JInt (z : Z)
| JFloat (repr : ustr)
| JStr (s : ustr).

#[export] Instance JVal_eq_dec : EqDecision JVal.
Proof. solve_decision. Qed.

(** A dict literal [{"k": v, ...}], in its key order. *)
Abbreviation Row := (list (ustr * JVal)).

(** Python truthiness, for [if not pod_id]. *)
Definition jtruthy (v : JVal) : bool :=
  match v with
  | JNull => false
  | JBool b => b
  | JInt z => negb (Z.eqb z 0)
  | JFloat r => negb (bool_decide (r = u "0.0" \/ r = u "-0.0"))
  | JStr s => negb (bool_decide (s = []))
  end.

(** [str(v)], as an f-string inserts it in a query string. *)
Definition jstr (v : JVal) : ustr :=
  match v with
  | JNull => u "None"
  | JBool true => u "True"
  | JBool false => u "False"
  | JInt z => if (z <? 0)%Z then 45 :: dec (Z.to_N (- z)) else dec (Z.to_N z)
  | JFloat r => r
  | JStr s => s
  end.

(** ** Requests and the store interface *)

(** What the loaders send: [requests.post(url, json=body)],
    [requests.get(url?col=eq.val&...&select=a,b)], [time.sleep(ms/1000)]. *)
Inductive Request :=
| RPost (table : ustr) (body : Row)
| RGet (table : ustr) (filters : list (ustr * ustr)) (select : list ustr)
| RSleep (ms : N).

(** Python exceptions the loaders can raise. *)
Inductive Exc := IndexError | KeyError.

Class Env (W : Type) := {
  env_post : ustr -> Row -> W -> N * W;
  env_get : ustr -> list (ustr * ustr) -> list ustr -> W -> N * list Row * W;
  env_now : W -> ustr * W;
}.

(** ** The loader monad *)

Record St (W : Type) := mkSt { world : W; trace : list Request }.
Arguments mkSt {W} _ _.
Arguments world {W} _.
Arguments trace {W} _.

Definition M (W A : Type) := St W -> (Exc + A) * St W.

Section Monad.
Context {W : Type} `{!Env W}.

Definition ret {A} (a : A) : M W A := fun s => (inr a, s).

Definition bind {A B} (m : M W A) (k : A -> M W B) : M W B :=
  fun s => match m s with
           | (inl e, s') => (inl e, s')
           | (inr a, s') => k a s'
           end.

Definition raise {A} (e : Exc) : M W A := fun s => (inl e, s).

Definition post (table : ustr) (body : Row) : M W N :=
  fun s => let '(code, w) := env_post table body (world s) in
           (inr code, mkSt w (trace s ++ [RPost table body])).

Definition get (table : ustr) (filters : list (ustr * ustr)) (select : list ustr) :
    M W (N * list Row) :=
  fun s => let '(code, rows, w) := env_get table filters select (world s) in
           (inr (code, rows), mkSt w (trace s ++ [RGet table filters select])).

Definition now : M W ustr :=
  fun s => let '(t, w) := env_now (world s) in (inr t, mkSt w (trace s)).

Definition sleep (ms : N) : M W unit :=
  fun s => (inr tt, mkSt (world s) (trace s ++ [RSleep ms])).

(** [for x in l: f(x)] *)
Fixpoint mfor {X} (l : list X) (f : X -> M W unit) : M W unit :=
  match l with
  | [] => ret tt
  | x :: r => bind (f x) (fun _ => mfor r f)
  end.

(** A [for] loop that updates a local variable [b]. *)
Fixpoint mfold {X B} (f : B -> X -> M W B) (l : list X) (b : B) : M W B :=
  match l with
  | [] => ret b
  | x :: r => bind (f b x) (mfold f r)
  end.

(** [response.json()[0]['id']] *)
Definition first_id (rows : list Row) : M W JVal :=
  match rows with
  | [] => raise IndexError
  | r :: _ => match dict_get (u "id") r with Some v => ret v | None => raise KeyError end
  end.

(** A weakest-precondition style judgement on the trace: in every world,
    [m] only appends to the trace, and [Q] holds of its outcome and of the
    requests it appended. *)
Definition wp {A} (m : M W A) (Q : Exc + A -> list Request -> Prop) : Prop :=
  forall s, exists tr, trace (m s).2 = trace s ++ tr /\ Q (m s).1 tr.

(** [m] returns [a] and appends [reqs], in every world. *)
Definition emits {A} (m : M W A) (a : A) (reqs : list Request) : Prop :=
  wp m (fun r tr => r = inr a /\ tr = reqs).

End Monad.

(** The POST bodies sent to [table], in order. *)
Definition posts_to (table : ustr) (tr : list Request) : list Row :=
  omap (fun r => match r with
                 | RPost t b => if bool_decide (t = table) then Some b else None
                 | _ => None
                 end) tr.

(** The POSTs of a trace, with their tables, in order. *)
Definition posts (tr : list Request) : list (ustr * Row) :=
  omap (fun r => match r with RPost t b => Some (t, b) | _ => None end) tr.

Lemma posts_app (a b : list Request) : posts (a ++ b) = posts a ++ posts b.
Proof. apply omap_app. Qed.

(** Every POST of [tr] goes to a table of [T]. *)
Definition only_to (T : list ustr) (tr : list Request) : Prop := forall p, p ∈ posts tr -> p.1 ∈ T.

Lemma only_to_app T a b : only_to T (a ++ b) <-> only_to T a /\ only_to T b.
Proof. unfold only_to. rewrite posts_app. set_solver. Qed.

Lemma only_to_mono T T' tr : only_to T tr -> T ⊆ T' -> only_to T' tr.
Proof. unfold only_to. set_solver. Qed.

(** The POSTs of a short, concrete trace. *)
Lemma only_to_cons T r tr :
  only_to T (r :: tr) <-> (match r with RPost t _ => t ∈ T | _ => True end) /\ only_to T tr.
Proof. unfold only_to. destruct r; simpl; set_solver. Qed.

Lemma only_to_nil T : only_to T [].
Proof. intros ? Hp. simpl in Hp. set_solver. Qed.

Lemma only_to_flat_map {X} T (g : X -> list Request) (l : list X) :
  (forall x, only_to T (g x)) -> only_to T (flat_map g l).
Proof. intros Hg. induction l as [|x l IH]; [intros ? Hp; simpl in Hp; set_solver|]. simpl. by apply only_to_app. Qed.

(** The law of the [select=id] reads the loaders make: every row answered
    carries an [id] (PostgREST returns the selected column for every
    row). *)
Class IdLaw (W : Type) `{!Env W} :=
  get_ids : forall t f w r, r ∈ (env_get t f [u "id"] w).1.2 -> is_Some (dict_get (u "id") r).

Create HintDb loader discriminated.
Create Rewrite HintDb loader.

Declare Scope loader_scope.
Delimit Scope loader_scope with loader.
Notation "x <- m ;; k" := (bind m (fun x => k))
  (at level 100, m at next level, right associativity) : loader_scope.
Notation "m ;; k" := (bind m (fun _ => k))
  (at level 100, right associativity) : loader_scope.

(** ** Laws of [wp] and [emits] *)

Section Wp.
Context {W : Type} `{!Env W}.
Local Open Scope loader_scope.

Lemma wp_ret {A} (a : A) (Q : Exc + A -> list Request -> Prop) :
  Q (inr a) [] -> wp (W:=W) (ret a) Q.
Proof. intros HQ s. exists []. by rewrite app_nil_r. Qed.

Lemma wp_raise {A} e (Q : Exc + A -> list Request -> Prop) :
  Q (inl e) [] -> wp (W:=W) (raise e) Q.
Proof. intros HQ s. exists []. by rewrite app_nil_r. Qed.

Lemma wp_mono {A} (m : M W A) (Q Q' : Exc + A -> list Request -> Prop) :
  wp m Q -> (forall r tr, Q r tr -> Q' r tr) -> wp m Q'.
Proof. intros Hm HQ s. destruct (Hm s) as (tr & ? & ?). eauto. Qed.

Lemma wp_bind {A B} (m : M W A) (k : A -> M W B) Q1 (Q : Exc + B -> list Request -> Prop) :
  wp m Q1 ->
  (forall e tr, Q1 (inl e) tr -> Q (inl e) tr) ->
  (forall a tr, Q1 (inr a) tr -> wp (k a) (fun r tr' => Q r (tr ++ tr'))) ->
  wp (bind m k) Q.
Proof.
  intros Hm He Hk s. destruct (Hm s) as (tr & Htr & HQ1). unfold bind.
  destruct (m s) as [[e|a] s'] eqn:Hs; simpl in *; [eauto|].
  destruct (Hk a tr HQ1 s') as (tr' & Htr' & HQ). exists (tr ++ tr').
  rewrite Htr', Htr, app_assoc. auto.
Qed.

Lemma wp_post t body (Q : Exc + N -> list Request -> Prop) :
  (forall c, Q (inr c) [RPost t body]) -> wp (W:=W) (post t body) Q.
Proof. intros HQ s. unfold post. destruct (env_post _ _ _). eauto. Qed.

Lemma wp_get t f sel (Q : Exc + (N * list Row) -> list Request -> Prop) :
  (forall c rows, Q (inr (c, rows)) [RGet t f sel]) -> wp (W:=W) (get t f sel) Q.
Proof. intros HQ s. unfold get. destruct (env_get _ _ _ _) as [[??]?]. eauto. Qed.

Lemma wp_now (Q : Exc + ustr -> list Request -> Prop) :
  (forall t, Q (inr t) []) -> wp (W:=W) now Q.
Proof. intros HQ s. unfold now. destruct (env_now _). exists []. simpl. by rewrite app_nil_r. Qed.

Lemma wp_sleep ms (Q : Exc + unit -> list Request -> Prop) :
  Q (inr tt) [RSleep ms] -> wp (W:=W) (sleep ms) Q.
Proof. intros HQ s. eauto. Qed.

Lemma wp_first_id rows (Q : Exc + JVal -> list Request -> Prop) :
  (forall r, Q r []) -> wp (W:=W) (first_id rows) Q.
Proof.
  intros HQ. destruct rows as [|r ?]; [by apply wp_raise|].
  simpl. destruct (dict_get _ _); [apply wp_ret|apply wp_raise]; auto.
Qed.

Lemma emits_ret {A} (a : A) : emits (W:=W) (ret a) a [].
Proof. by apply wp_ret. Qed.

Lemma emits_bind {A B} (m : M W A) (k : A -> M W B) a b r1 r2 :
  emits m a r1 -> emits (k a) b r2 -> emits (bind m k) b (r1 ++ r2).
Proof.
  intros Hm Hk. eapply wp_bind; [exact Hm| by intros ?? [? _]|].
  intros a' tr [[= <-] ->]. eapply wp_mono; [exact Hk|]. by intros ?? [-> ->].
Qed.

(** A POST whose every answer leads to the same requests. *)
Lemma emits_post {B} t body (k : N -> M W B) b r :
  (forall c, emits (k c) b r) -> emits (c <- post t body;; k c) b (RPost t body :: r).
Proof.
  intros Hk.
  apply (wp_bind _ _ (fun r tr => (exists c, r = inr c) /\ tr = [RPost t body]));
    [apply wp_post; eauto| by intros ?? [[? ?] _]|].
  intros c tr [_ ->]. eapply wp_mono; [apply Hk|]. by intros ?? [-> ->].
Qed.

Lemma emits_sleep ms : emits (W:=W) (sleep ms) tt [RSleep ms].
Proof. by apply wp_sleep. Qed.

Lemma emits_for {X} (l : list X) (f : X -> M W unit) (g : X -> list Request) :
  (forall x, x ∈ l -> emits (f x) tt (g x)) -> emits (mfor l f) tt (flat_map g l).
Proof.
  induction l as [|x l IH]; intros Hf; simpl.
  - apply emits_ret.
  - apply (emits_bind _ _ tt); [apply Hf; set_solver|]. apply IH. intros y Hy. apply Hf. set_solver.
Qed.

Lemma wp_get_ids `{!IdLaw W} t f (Q : Exc + (N * list Row) -> list Request -> Prop) :
  (forall c rows, (forall r, r ∈ rows -> is_Some (dict_get (u "id") r)) ->
     Q (inr (c, rows)) [RGet t f [u "id"]]) ->
  wp (W:=W) (get t f [u "id"]) Q.
Proof.
  intros HQ s. unfold get. pose proof (get_ids t f (world s)) as Hids.
  destruct (env_get _ _ _ _) as [[c rows] w]. simpl in Hids. eauto.
Qed.

(** [rows[0]['id']] does not raise on a non-empty answer of an [id] read. *)
Lemma wp_first_id_ok rows (Q : Exc + JVal -> list Request -> Prop) :
  rows <> [] -> (forall r, r ∈ rows -> is_Some (dict_get (u "id") r)) ->
  (forall v, Q (inr v) []) -> wp (W:=W) (first_id rows) Q.
Proof.
  intros Hne Hids HQ. destruct rows as [|r rows]; [done|]. simpl.
  destruct (Hids r) as [v Hv]; [set_solver|]. rewrite Hv. by apply wp_ret.
Qed.

Lemma mfold_app {X B} (f : B -> X -> M W B) (l1 l2 : list X) (b : B) s :
  mfold f (l1 ++ l2) b s = bind (mfold f l1 b) (mfold f l2) s.
Proof.
  revert b s. induction l1 as [|x l1 IH]; intros b s; simpl; unfold bind, ret; [done|].
  destruct (f b x s) as [[e|b'] s']; [done|]. specialize (IH b' s'). by unfold bind in IH.
Qed.

(** A loop that never raises, keeps an invariant [I] of its variable, and
    whose iteration on [x] posts a list of rows related to [x] by [P]. *)
Lemma wp_mfold {X B} (f : B -> X -> M W B) (l : list X) (I : B -> Prop)
    (P : X -> list (ustr * Row) -> Prop) b :
  (forall b x, x ∈ l -> I b ->
     wp (f b x) (fun r tr => exists b', r = inr b' /\ I b' /\ P x (posts tr))) ->
  I b ->
  wp (mfold f l b) (fun r tr => exists b', r = inr b' /\ I b' /\
                                exists ps, posts tr = concat ps /\ Forall2 P l ps).
Proof.
  revert b. induction l as [|x l IH]; intros b Hf Hb; simpl.
  - apply wp_ret. exists b. split_and!; [done|done|]. by exists [].
  - eapply wp_bind; [apply Hf; [set_solver|done]| by intros ?? (? & ? & _)|].
    intros b' tr (? & [= <-] & Hb' & HP). eapply wp_mono.
    { apply IH; [|done]. intros. apply Hf; [set_solver|done]. }
    intros r tr' (b'' & -> & HI & ps & Hps & HF). exists b''. split_and!; [done|done|].
    exists (posts tr :: ps). split; [|by constructor].
    unfold posts. rewrite omap_app. fold (posts tr) (posts tr'). by rewrite Hps.
Qed.

(** Continuation forms of the primitive laws, for [wp_run]. *)
Lemma wp_post_k {B} t body (k : N -> M W B) Q :
  (forall c, wp (k c) (fun r tr => Q r (RPost t body :: tr))) -> wp (bind (post t body) k) Q.
Proof.
  intros Hk. eapply wp_bind; [apply (wp_post t body (fun r tr => (exists c, r = inr c) /\ tr = [RPost t body])); eauto
                             | by intros ?? [[? ?] _] |].
  intros c tr [_ ->]. apply Hk.
Qed.

(** A POST whose answer the store guarantees to satisfy [P]. *)
Lemma wp_post_if_k {B} t body (P : N -> Prop) (k : N -> M W B) Q :
  (forall w, P (env_post t body w).1) ->
  (forall c, P c -> wp (k c) (fun r tr => Q r (RPost t body :: tr))) -> wp (bind (post t body) k) Q.
Proof.
  intros HP Hk s. unfold bind, post. specialize (HP (world s)).
  destruct (env_post t body (world s)) as [c w] eqn:E. simpl in *.
  destruct (Hk c HP (mkSt w (trace s ++ [RPost t body]))) as (tr & Htr & HQ).
  exists (RPost t body :: tr). split; [|done]. rewrite Htr. simpl. by rewrite <- app_assoc.
Qed.

Lemma wp_get_k {B} t f sel (k : N * list Row -> M W B) Q :
  (forall c rows, wp (k (c, rows)) (fun r tr => Q r (RGet t f sel :: tr))) ->
  wp (bind (get t f sel) k) Q.
Proof.
  intros Hk. eapply wp_bind; [apply (wp_get t f sel (fun r tr => (exists c, r = inr c) /\ tr = [RGet t f sel])); eauto
                             | by intros ?? [[? ?] _] |].
  intros [c rows] tr [_ ->]. apply Hk.
Qed.

Lemma wp_get_ids_k `{!IdLaw W} {B} t f (k : N * list Row -> M W B) Q :
  (forall c rows, (forall r, r ∈ rows -> is_Some (dict_get (u "id") r)) ->
     wp (k (c, rows)) (fun r tr => Q r (RGet t f [u "id"] :: tr))) ->
  wp (bind (get t f [u "id"]) k) Q.
Proof.
  intros Hk. eapply wp_bind.
  { apply (wp_get_ids t f (fun r tr => (exists c rows, r = inr (c, rows) /\
             forall x, x ∈ rows -> is_Some (dict_get (u "id") x)) /\ tr = [RGet t f [u "id"]])). eauto 10. }
  { by intros ?? [(? & ? & ? & _) _]. }
  intros [c rows] tr [(? & ? & [= <- <-] & Hids) ->]. by apply Hk.
Qed.

Lemma wp_now_k {B} (k : ustr -> M W B) Q : (forall t, wp (k t) Q) -> wp (bind now k) Q.
Proof.
  intros Hk. eapply wp_bind; [apply (wp_now (fun r tr => (exists t, r = inr t) /\ tr = [])); eauto
                             | by intros ?? [[? ?] _] |].
  intros t tr [_ ->]. apply Hk.
Qed.

Lemma wp_sleep_k {B} ms (k : unit -> M W B) Q :
  wp (k tt) (fun r tr => Q r (RSleep ms :: tr)) -> wp (bind (sleep ms) k) Q.
Proof.
  intros Hk. eapply wp_bind; [apply (wp_sleep ms (fun r tr => r = inr tt /\ tr = [RSleep ms])); eauto
                             | by intros ?? [? _] |].
  by intros [] tr [_ ->].
Qed.

Lemma wp_raise_k {A B} e (k : A -> M W B) Q : Q (inl e) [] -> wp (bind (raise e) k) Q.
Proof. intros HQ s. exists []. simpl. by rewrite app_nil_r. Qed.

Lemma wp_ret_k {A B} (a : A) (k : A -> M W B) Q : wp (k a) Q -> wp (bind (ret a) k) Q.
Proof. intros Hk s. apply Hk. Qed.

Lemma wp_first_id_k {B} rows (k : JVal -> M W B) Q :
  (forall e, Q (inl e) []) -> (forall v, wp (k v) Q) -> wp (bind (first_id rows) k) Q.
Proof.
  intros He Hk s. destruct rows as [|row rows'].
  - exists []. simpl. rewrite app_nil_r. auto.
  - unfold first_id. destruct (dict_get (u "id") row); [by apply wp_ret_k|].
    exists []. simpl. rewrite app_nil_r. auto.
Qed.

Lemma wp_first_id_ok_k {B} rows (k : JVal -> M W B) Q :
  rows <> [] -> (forall r, r ∈ rows -> is_Some (dict_get (u "id") r)) ->
  (forall v, wp (k v) Q) -> wp (bind (first_id rows) k) Q.
Proof.
  intros Hne Hids Hk. destruct rows as [|r rows]; [done|]. simpl.
  destruct (Hids r) as [v Hv]; [set_solver|]. rewrite Hv. by apply wp_ret_k.
Qed.

(** A loop keeps an invariant of its variable, whatever it raises. *)
Lemma wp_mfold_inv {X B} (f : B -> X -> M W B) (l : list X) (I : B -> Prop) b :
  (forall b x, x ∈ l -> I b -> wp (f b x) (fun r _ => forall b', r = inr b' -> I b')) ->
  I b -> wp (mfold f l b) (fun r _ => forall b', r = inr b' -> I b').
Proof.
  revert b. induction l as [|x l IH]; intros b Hf Hb; simpl; [apply wp_ret; by intros ? [= <-]|].
  eapply wp_bind; [apply Hf; [set_solver|done]|done|].
  intros b' tr Hb'. eapply wp_mono; [apply IH; [|by apply Hb']|done].
  intros. apply Hf; [set_solver|done].
Qed.

(** A loop whose every iteration posts only to [T], raise or not. *)
Lemma wp_mfold_only {X B} T (f : B -> X -> M W B) (l : list X) b :
  (forall b x, wp (f b x) (fun _ tr => only_to T tr)) ->
  wp (mfold f l b) (fun _ tr => only_to T tr).
Proof.
  intros Hf. revert b. induction l as [|x l IH]; intros b; simpl; [apply wp_ret; intros ? Hp; simpl in Hp; set_solver|].
  eapply wp_bind; [apply Hf|done|]. intros b' tr Htr. eapply wp_mono; [apply IH|].
  intros r tr' Htr'. by apply only_to_app.
Qed.

(** A loop that never raises and whose iteration on [x] posts [g x]. *)
Lemma wp_mfold_posts {X B} (f : B -> X -> M W B) (l : list X) (g : X -> list (ustr * Row)) b :
  (forall b x, x ∈ l -> wp (f b x) (fun r tr => (exists b', r = inr b') /\ posts tr = g x)) ->
  wp (mfold f l b) (fun r tr => (exists b', r = inr b') /\ posts tr = flat_map g l).
Proof.
  intros Hf. eapply wp_mono.
  { apply (wp_mfold _ _ (fun _ => True) (fun x ps => ps = g x)); [|done].
    intros b' x Hx _. eapply wp_mono; [by apply Hf|]. intros r tr [[b'' ->] Hp]. eauto. }
  intros r tr (b' & -> & _ & ps & -> & HF). split; [eauto|].
  clear Hf. induction HF as [|x p l' ps' -> _ IH]; [done|]. simpl. by rewrite IH.
Qed.

Lemma wp_ext {A} (m m' : M W A) Q : (forall s, m s = m' s) -> wp m Q -> wp m' Q.
Proof. intros Heq Hm s. rewrite <- Heq. apply Hm. Qed.

(** ** Counting requests *)

(** A computation that appends at most [n] requests, raise or not. *)
Definition at_most {A} (m : M W A) (n : nat) : Prop := wp m (fun _ tr => (length tr <= n)%nat).

Lemma at_most_mono {A} (m : M W A) n n' : at_most m n -> (n <= n')%nat -> at_most m n'.
Proof. intros Hm Hn. eapply wp_mono; [exact Hm|]. cbv beta. intros ???. lia. Qed.

Lemma at_most_bind {A B} (m : M W A) (k : A -> M W B) n1 n2 :
  at_most m n1 -> (forall a, at_most (k a) n2) -> at_most (bind m k) (n1 + n2).
Proof.
  intros Hm Hk. eapply wp_bind; [exact Hm|cbv beta; intros ???; lia|].
  intros a tr Htr. eapply wp_mono; [apply Hk|]. intros ? tr' ?. cbv beta in *. rewrite length_app. lia.
Qed.

Lemma at_most_ret {A} (a : A) n : at_most (ret a) n.
Proof. apply wp_ret. simpl. lia. Qed.

Lemma at_most_raise {A} e n : at_most (A:=A) (raise e) n.
Proof. apply wp_raise. simpl. lia. Qed.

Lemma at_most_first_id rows n : at_most (first_id rows) n.
Proof. apply wp_first_id. simpl. lia. Qed.

(** Continuation forms, for [at_most_run]: a POST, a GET and a pause
    count one request each, the clock none. *)
Lemma at_most_post_k {B} t body (k : N -> M W B) n :
  (forall c, at_most (k c) n) -> at_most (bind (post t body) k) (S n).
Proof. intros Hk. apply wp_post_k. intros c. eapply wp_mono; [apply Hk|]. simpl. lia. Qed.

Lemma at_most_get_k {B} t f sel (k : N * list Row -> M W B) n :
  (forall r, at_most (k r) n) -> at_most (bind (get t f sel) k) (S n).
Proof. intros Hk. apply wp_get_k. intros c rows. eapply wp_mono; [apply Hk|]. simpl. lia. Qed.

Lemma at_most_sleep_k {B} ms (k : unit -> M W B) n :
  at_most (k tt) n -> at_most (bind (sleep ms) k) (S n).
Proof. intros Hk. apply wp_sleep_k. eapply wp_mono; [apply Hk|]. simpl. lia. Qed.

Lemma at_most_now_k {B} (k : ustr -> M W B) n :
  (forall t, at_most (k t) n) -> at_most (bind now k) n.
Proof. apply wp_now_k. Qed.

Lemma at_most_first_id_k {B} rows (k : JVal -> M W B) n :
  (forall v, at_most (k v) n) -> at_most (bind (first_id rows) k) n.
Proof. intros Hk. apply wp_first_id_k; [simpl; lia|done]. Qed.

Lemma at_most_sleep ms n : at_most (sleep ms) (S n).
Proof. apply wp_sleep. simpl. lia. Qed.

Lemma at_most_ret_k {A B} (a : A) (k : A -> M W B) n : at_most (k a) n -> at_most (bind (ret a) k) n.
Proof. apply wp_ret_k. Qed.

(** A loop appends at most the sum of its iterations' bounds. *)
Lemma at_most_mfold {X B} (f : B -> X -> M W B) (l : list X) (g : X -> nat) b :
  (forall b x, x ∈ l -> at_most (f b x) (g x)) -> at_most (mfold f l b) (sum_list_with g l).
Proof.
  revert b. induction l as [|x l IH]; intros b Hf; simpl; [apply at_most_ret|].
  apply at_most_bind; [apply Hf; set_solver|]. intros b'. apply IH. intros. apply Hf. set_solver.
Qed.

Lemma at_most_mfor {X} (l : list X) (f : X -> M W unit) (g : X -> nat) :
  (forall x, x ∈ l -> at_most (f x) (g x)) -> at_most (mfor l f) (sum_list_with g l).
Proof.
  induction l as [|x l IH]; intros Hf; simpl; [apply at_most_ret|].
  apply at_most_bind; [apply Hf; set_solver|]. intros _. apply IH. intros. apply Hf. set_solver.
Qed.

(** The requests a computation appends are determined by the world, so
    two judgements on it combine. *)
Lemma wp_and {A} (m : M W A) (Q1 Q2 : Exc + A -> list Request -> Prop) :
  wp m Q1 -> wp m Q2 -> wp m (fun r tr => Q1 r tr /\ Q2 r tr).
Proof.
  intros H1 H2 s. destruct (H1 s) as (tr1 & E1 & ?), (H2 s) as (tr2 & E2 & ?).
  rewrite E1 in E2. apply app_inv_head in E2 as <-. eauto.
Qed.

(** A loop whose counter [c] grows, at each iteration, by at most the
    number of POSTs it issues, and by at least [k] times that number. *)
Lemma wp_mfold_counter {X B} (f : B -> X -> M W B) (l : list X) (c : B -> nat) (k : nat) b :
  (forall b x, x ∈ l -> wp (f b x) (fun r tr => exists b', r = inr b' /\
     c b + k * length (posts tr) <= c b' <= c b + length (posts tr))%nat) ->
  wp (mfold f l b) (fun r tr => exists b', r = inr b' /\
     c b + k * length (posts tr) <= c b' <= c b + length (posts tr))%nat.
Proof.
  revert b. induction l as [|x l IH]; intros b Hf; simpl.
  { apply wp_ret. exists b. split; [done|]. simpl. lia. }
  eapply wp_bind; [apply Hf; set_solver|by intros ?? (? & ? & _)|].
  intros b' tr (? & [= <-] & Hb'). eapply wp_mono; [apply IH; intros; apply Hf; set_solver|].
  intros r tr' (b'' & -> & Hb''). exists b''. split; [done|].
  rewrite posts_app, length_app, Nat.mul_add_distr_l. lia.
Qed.

End Wp.

(** Bounds a straight-line computation, one request per POST, GET and
    pause. *)
Ltac at_most_run :=
  repeat (cbv beta;
    lazymatch goal with
    | |- at_most (bind (post _ _) _) (S _) => apply at_most_post_k; intros ?
    | |- at_most (bind (get _ _ _) _) (S _) => apply at_most_get_k; intros ?
    | |- at_most (bind (sleep _) _) (S _) => apply at_most_sleep_k
    | |- at_most (bind now _) _ => apply at_most_now_k; intros ?
    | |- at_most (bind (first_id _) _) _ => apply at_most_first_id_k; intros ?
    | |- at_most (bind (ret _) _) _ => apply at_most_ret_k
    | |- at_most (ret _) _ => apply at_most_ret
    | |- at_most (raise _) _ => apply at_most_raise
    | |- at_most (first_id _) _ => apply at_most_first_id
    | |- at_most (sleep _) (S _) => apply at_most_sleep
    end).

(** ** Total correctness against the store's state

    [hoare P m Q]: from every world satisfying [P], [m] returns a value
    (it does not raise) and [Q] holds of it and of the world it leaves.
    Unlike [wp], the assertions see the store's state, so that what a
    GET answers can depend on what an earlier POST inserted. *)

Section Hoare.
Context {W : Type} `{!Env W}.

Definition hoare {A} (P : W -> Prop) (m : M W A) (Q : A -> W -> Prop) : Prop :=
  forall s, P (world s) -> exists a, (m s).1 = inr a /\ Q a (world (m s).2).

Lemma hoare_ret {A} (a : A) (Q : A -> W -> Prop) : hoare (Q a) (ret a) Q.
Proof. intros s HQ. eauto. Qed.

Lemma hoare_mono {A} (P P' : W -> Prop) (m : M W A) (Q Q' : A -> W -> Prop) :
  hoare P m Q -> (forall w, P' w -> P w) -> (forall a w, Q a w -> Q' a w) -> hoare P' m Q'.
Proof. intros Hm HP HQ s Hs. destruct (Hm s (HP _ Hs)) as (a & ? & ?). eauto. Qed.

Lemma hoare_bind {A B} (P : W -> Prop) (m : M W A) (R : A -> W -> Prop) (k : A -> M W B) Q :
  hoare P m R -> (forall a, hoare (R a) (k a) Q) -> hoare P (bind m k) Q.
Proof.
  intros Hm Hk s Hs. destruct (Hm s Hs) as (a & Ha & HR). unfold bind.
  destruct (m s) as [r s']. simpl in *. subst r. by apply Hk.
Qed.

Lemma hoare_post t body (Q : N -> W -> Prop) :
  hoare (fun w => Q (env_post t body w).1 (env_post t body w).2) (post t body) Q.
Proof. intros s HQ. unfold post. destruct (env_post t body (world s)). eauto. Qed.

Lemma hoare_get t f sel (Q : N * list Row -> W -> Prop) :
  hoare (fun w => Q (env_get t f sel w).1 (env_get t f sel w).2) (get t f sel) Q.
Proof. intros s HQ. unfold get. destruct (env_get t f sel (world s)) as [[??]?]. eauto. Qed.

Lemma hoare_now (Q : ustr -> W -> Prop) : hoare (fun w => Q (env_now w).1 (env_now w).2) now Q.
Proof. intros s HQ. unfold now. destruct (env_now (world s)). eauto. Qed.

Lemma hoare_sleep ms (Q : unit -> W -> Prop) : hoare (Q tt) (sleep ms) Q.
Proof. intros s HQ. eauto. Qed.

(** A computation that never raises, whatever the world, gives a triple
    that keeps nothing of the world. *)
Lemma hoare_of_wp {A} (P : W -> Prop) (m : M W A) (R : A -> Prop) :
  wp m (fun r _ => exists a, r = inr a /\ R a) -> hoare P m (fun a _ => R a).
Proof. intros Hm s _. destruct (Hm s) as (tr & _ & a & -> & ?). eauto. Qed.

(** A loop whose invariant [I] is indexed by the items already done. *)
Lemma hoare_mfold {X B} (f : B -> X -> M W B) (l : list X) (I : list X -> B -> W -> Prop) b :
  (forall pre x post b, l = pre ++ x :: post -> hoare (I pre b) (f b x) (I (pre ++ [x]))) ->
  hoare (I [] b) (mfold f l b) (I l).
Proof.
  intros Hf. cut (forall l0 l1 b, l = l0 ++ l1 -> hoare (I l0 b) (mfold f l1 b) (I l)).
  { intros H. by apply H. }
  intros l0 l1. revert l0. induction l1 as [|x l1 IH]; intros l0 b' ->; simpl.
  - rewrite app_nil_r. apply hoare_ret.
  - eapply hoare_bind; [by apply (Hf l0 x l1)|]. intros b''. apply IH. by rewrite <- app_assoc.
Qed.

(** Symbolic execution from a known world: each rule runs one primitive
    from the world [w] and continues from the world it leaves. *)
Lemma hoare_at {A} (P : W -> Prop) (m : M W A) Q :
  (forall w, P w -> hoare (eq w) m Q) -> hoare P m Q.
Proof. intros Hm s Hs. by apply (Hm (world s)). Qed.

Lemma hoare_ret_at {A} (a : A) w (Q : A -> W -> Prop) : Q a w -> hoare (eq w) (ret a) Q.
Proof. intros HQ [w0 tr0] Hs; simpl in Hs; subst w0. eauto. Qed.

Lemma hoare_bind_at {A B} w (m : M W A) (R : A -> W -> Prop) (k : A -> M W B) Q :
  hoare (eq w) m R -> (forall a w', R a w' -> hoare (eq w') (k a) Q) -> hoare (eq w) (bind m k) Q.
Proof. intros Hm Hk. eapply hoare_bind; [exact Hm|]. intros a. apply hoare_at. apply Hk. Qed.

Lemma hoare_post_at {B} w t body (k : N -> M W B) Q :
  hoare (eq (env_post t body w).2) (k (env_post t body w).1) Q -> hoare (eq w) (bind (post t body) k) Q.
Proof.
  intros Hk [w0 tr0] Hs. simpl in Hs. subst w0. unfold bind, post. simpl.
  destruct (env_post t body w) as [c w'] eqn:E. simpl in *. by apply (Hk (mkSt w' _)).
Qed.

Lemma hoare_get_at {B} w t f sel (k : N * list Row -> M W B) Q :
  hoare (eq (env_get t f sel w).2) (k (env_get t f sel w).1) Q -> hoare (eq w) (bind (get t f sel) k) Q.
Proof.
  intros Hk [w0 tr0] Hs. simpl in Hs. subst w0. unfold bind, get. simpl.
  destruct (env_get t f sel w) as [[c rows] w'] eqn:E. simpl in *. by apply (Hk (mkSt w' _)).
Qed.

Lemma hoare_now_at {B} w (k : ustr -> M W B) Q :
  hoare (eq (env_now w).2) (k (env_now w).1) Q -> hoare (eq w) (bind now k) Q.
Proof.
  intros Hk [w0 tr0] Hs. simpl in Hs. subst w0. unfold bind, now. simpl.
  destruct (env_now w) as [t w'] eqn:E. simpl in *. by apply (Hk (mkSt w' _)).
Qed.

Lemma hoare_sleep_at {B} w ms (k : unit -> M W B) Q :
  hoare (eq w) (k tt) Q -> hoare (eq w) (bind (sleep ms) k) Q.
Proof. intros Hk [w0 tr0] Hs; simpl in Hs; subst w0. by apply Hk. Qed.

Lemma hoare_ret_k_at {A B} w (a : A) (k : A -> M W B) Q :
  hoare (eq w) (k a) Q -> hoare (eq w) (bind (ret a) k) Q.
Proof. intros Hk [w0 tr0] Hs; simpl in Hs; subst w0. by apply Hk. Qed.

(** [rows[0]['id']] on rows whose first one has an id. *)
Lemma hoare_first_id_at {B} w (rows : list Row) r rs v (k : JVal -> M W B) Q :
  rows = r :: rs -> dict_get (u "id") r = Some v ->
  hoare (eq w) (k v) Q -> hoare (eq w) (bind (first_id rows) k) Q.
Proof. intros -> Hv Hk [w0 tr0] Hs; simpl in Hs; subst w0. unfold bind. simpl. rewrite Hv. by apply Hk. Qed.

Lemma hoare_first_id_end_at w (rows : list Row) r rs v (Q : JVal -> W -> Prop) :
  rows = r :: rs -> dict_get (u "id") r = Some v -> Q v w -> hoare (eq w) (first_id rows) Q.
Proof. intros -> Hv HQ [w0 tr0] Hs; simpl in Hs; subst w0. simpl. rewrite Hv. eauto. Qed.

(** A [for] loop that keeps an invariant of the world. *)
Lemma hoare_mfor {X} (l : list X) (f : X -> M W unit) (I : W -> Prop) :
  (forall x, x ∈ l -> hoare I (f x) (fun _ => I)) -> hoare I (mfor l f) (fun _ => I).
Proof.
  induction l as [|x l IH]; intros Hf; simpl; [apply (hoare_ret tt (fun _ => I))|].
  eapply hoare_bind; [apply Hf; set_solver|]. intros a. apply IH. intros y Hy. apply Hf. set_solver.
Qed.

Lemma hoare_sleep_end_at w ms (Q : unit -> W -> Prop) : Q tt w -> hoare (eq w) (sleep ms) Q.
Proof. intros HQ [w0 tr0] Hs. simpl in Hs. subst w0. eauto. Qed.

(** A triple from a precondition, used from one world satisfying it. *)
Lemma hoare_from {A} (P : W -> Prop) (m : M W A) Q w : hoare P m Q -> P w -> hoare (eq w) m Q.
Proof. intros Hm Hw. eapply hoare_mono; [exact Hm| |done]. by intros ? <-. Qed.

End Hoare.

Lemma posts_to_app t (a b : list Request) : posts_to t (a ++ b) = posts_to t a ++ posts_to t b.
Proof. apply omap_app. Qed.

Lemma posts_flat_map {X} (g : X -> list Request) (l : list X) :
  posts (flat_map g l) = flat_map (fun x => posts (g x)) l.
Proof. induction l as [|x l IH]; [done|]. simpl. by rewrite posts_app, IH. Qed.

(** The loops' posts, iteration by iteration. *)
Lemma concat_posts_map {X Y} (g : ustr * Row -> Y) (h : X -> Y) (l : list X) ps :
  Forall2 (fun x p => map g p = [h x]) l ps -> map g (concat ps) = map h l.
Proof. induction 1 as [|x p l ps Hp _ IH]; [done|]. simpl. by rewrite map_app, Hp, IH. Qed.

#[export] Hint Resolve emits_ret emits_sleep only_to_nil : loader.

(** Proves [only_to T tr] for a trace built from concrete requests and
    traces known to post nothing or only to [T]. *)
Ltac solve_only :=
  cbv beta in *;
  repeat first
    [ progress rewrite ?only_to_app, ?only_to_cons
    | split
    | done
    | apply only_to_nil
    | set_solver
    | match goal with H : posts ?tr = [] |- only_to _ ?tr => intros ? Hp; rewrite H in Hp; set_solver end
    | match goal with H : only_to ?T ?tr |- only_to _ ?tr => apply (only_to_mono T); [exact H|set_solver] end ].
#[export] Hint Rewrite posts_app : loader.

(** Looks a key up in a row literal: the keys are closed strings. *)
Ltac row_lookup :=
  repeat (rewrite ?bool_decide_eq_true_2 by done; rewrite ?bool_decide_eq_false_2 by done;
          cbn [dict_get]).


(** Runs a straight-line computation through the continuation laws. *)
Ltac wp_run :=
  repeat (cbv beta;
    lazymatch goal with
    | |- wp (bind (post _ _) _) _ => apply wp_post_k; intros ?
    | |- wp (bind now _) _ => apply wp_now_k; intros ?
    | |- wp (bind (sleep _) _) _ => apply wp_sleep_k
    | |- wp (bind (ret _) _) _ => apply wp_ret_k
    | |- wp (ret _) _ => apply wp_ret
    end).
#[export] Hint Rewrite posts_to_app : loader.

End Remote.
