(* ===== verification/Store.v ===== *)
(** * An in-memory model of the hosted store

    An instance of [Remote.Env] that behaves as the REST front end of a
    Postgres database does on the requests the loaders send: a POST inserts
    the row with a fresh [id] and answers [201], or answers an error code
    when the row breaks the table's definition; a GET answers [200] and the
    rows that match every [col=eq.val] filter, in insertion order, cut down
    to the selected columns.

    The tables [pod_meetings], [meet_participants] and [meeting_attendance]
    have the definitions that [create_tables] prints (lines 31-85 of
    [src/import_scoreboards_to_supabase.py]): their columns, the NOT NULL
    columns without default, the UNIQUE constraint and the foreign keys.
    The other tables ([users], [pods], [commitments]) are not defined in the
    repository; the model accepts any row for them.  The server's behaviour
    itself is not code of the repository and is modelled from the spec's
    description of the interface (section 6).

    The store's invariant [store_wf] (every row carries a generated id
    below the id counter, no two rows the same) holds of the empty store
    and is kept by every operation; on the tables [create_tables] does not
    define, a POST always inserts and an [id] read answers the id of the
    oldest matching row. *)

From Stdlib Require Import NArith ZArith String.
From stdpp Require Import base list sets.
From S2P Require Import Prelude Remote.
Import Remote.

Open Scope N_scope.

Module Store.

(** A column: its name, and whether a row must give it (NOT NULL and no
    DEFAULT). *)
Record Column := mkColumn { col_name : ustr; required : bool }.

Record Schema := mkSchema {
  columns : list Column;
  unique : list (list ustr);           (** UNIQUE (a, b, ..) *)
  foreign : list (ustr * ustr);        (** column REFERENCES table(id) *)
}.

Definition opt (n : string) : Column := mkColumn (u n) false.

(** Lines 31-42. *)
Definition pod_meetings_schema : Schema :=
  mkSchema [opt "id"; opt "pod_id"; mkColumn (u "scheduled_date") true;
            opt "scheduled_time"; opt "status"; opt "created_at"]
           [] [(u "pod_id", u "pods")].

(** Lines 45-57. *)
Definition meet_participants_schema : Schema :=
  mkSchema [opt "id"; opt "meeting_id"; opt "user_id"; opt "join_time";
            opt "leave_time"; opt "duration_minutes"; opt "created_at"]
           [] [(u "user_id", u "users")].

(** Lines 60-85. *)
Definition meeting_attendance_schema : Schema :=
  mkSchema [opt "id"; opt "meeting_id"; opt "user_id"; opt "attended";
            opt "duration_minutes"; opt "created_at"; opt "meet_participant_id";
            opt "detection_method"; opt "meet_join_time"; opt "meet_leave_time";
            opt "meet_duration_minutes"; opt "meet_reconnect_count";
            opt "meet_device_type"; opt "confidence_score"]
           [[u "meeting_id"; u "user_id"]]
           [(u "meet_participant_id", u "meet_participants");
            (u "meeting_id", u "pod_meetings"); (u "user_id", u "users")].

(** The tables [create_tables] defines. *)
Definition schemas : list (ustr * Schema) :=
  [(u "pod_meetings", pod_meetings_schema);
   (u "meet_participants", meet_participants_schema);
   (u "meeting_attendance", meeting_attendance_schema)].

Record World := mkWorld {
  tables : list (ustr * list Row);   (** each table's rows, oldest first *)
  next_id : N;                       (** the next generated id *)
  clock : N;                         (** ticks of [datetime.now()] *)
}.

Definition rows_of (w : World) (t : ustr) : list Row := default [] (dict_get t (tables w)).

Definition has_column (sc : Schema) (c : ustr) : bool :=
  existsb (fun col => bool_decide (col_name col = c)) (columns sc).

(** A row gives a non-null value for [c]. *)
Definition given (row : Row) (c : ustr) : bool :=
  match dict_get c row with Some JNull | None => false | Some _ => true end.

(** The reasons a Postgres insert into [t] fails, in the order they are
    checked: an unknown column (PGRST204), a missing NOT NULL value
    (23502), a repeated UNIQUE key (23505), a dangling foreign key
    (23503). *)
Definition check_row (w : World) (t : ustr) (sc : Schema) (row : Row) : option N :=
  if negb (forallb (fun kv => has_column sc kv.1) row) then Some 400
  else if negb (forallb (fun col => negb (required col) || given row (col_name col)) (columns sc))
  then Some 400
  else if existsb (fun cols =>
            forallb (given row) cols &&
            existsb (fun r => forallb (fun c => bool_decide (dict_get c r = dict_get c row)) cols)
                    (rows_of w t)) (unique sc) then Some 409
  else if existsb (fun fk => given row fk.1 &&
            negb (existsb (fun r => bool_decide (dict_get (u "id") r = dict_get fk.1 row))
                          (rows_of w fk.2))) (foreign sc)
  then Some 409
  else None.

(** The generated id of the [n]-th insert. *)
Definition new_id (n : N) : JVal := JStr (u "id-" ++ dec n).

Definition insert (w : World) (t : ustr) (row : Row) : World :=
  mkWorld (dict_set t (rows_of w t ++ [(u "id", new_id (next_id w)) :: row]) (tables w))
          (next_id w + 1) (clock w).

(** [down]: the tables whose writes fail (503), to model an outage. *)
Definition store_post (down : list ustr) (t : ustr) (row : Row) (w : World) : N * World :=
  if bool_decide (t ∈ down) then (503, w)
  else
    match dict_get t schemas with
    | Some sc => match check_row w t sc row with
                 | Some code => (code, w)
                 | None => (201, insert w t row)
                 end
    | None => (201, insert w t row)
    end.

(** [col=eq.val]: the column holds a value whose text is [val]. *)
Definition matches (filters : list (ustr * ustr)) (r : Row) : bool :=
  forallb (fun f => match dict_get f.1 r with Some v => bool_decide (jstr v = f.2) | None => false end)
          filters.

(** [select=a,b]: the selected columns, in the order of the request; a
    column the insert did not give is NULL. *)
Definition project (sel : list ustr) (r : Row) : Row :=
  map (fun c => (c, default JNull (dict_get c r))) sel.

Definition store_get (t : ustr) (filters : list (ustr * ustr)) (sel : list ustr) (w : World) :
    N * list Row * World :=
  let known c := match dict_get t schemas with Some sc => has_column sc c | None => true end in
  if forallb known (map fst filters ++ sel)
  then (200, map (project sel) (filter (fun r => matches filters r) (rows_of w t)), w)
  else (400, [], w).

(** [datetime.now().isoformat()]: a distinct stamp per call. *)
Definition store_now (w : World) : ustr * World :=
  (u "2025-01-01T00:00:" ++ dec (clock w), mkWorld (tables w) (next_id w) (clock w + 1)).

(** The store with the tables [down] out of service. *)
Definition store_env (down : list ustr) : Env World := {|
  env_post := store_post down; env_get := store_get; env_now := store_now |}.

(** The store in service. *)
#[export] Instance healthy_store : Env World := store_env [].

(** The store right after the [CREATE TABLE] statements: every table
    empty. *)
Definition empty_world : World := mkWorld [] 0 0.

(** Every row of a [select=id] answer has its [id] (NULL when the row was
    inserted without one). *)
Lemma store_idlaw (down : list ustr) : IdLaw World (Env0 := store_env down).
Proof.
  intros t f w r. simpl. unfold store_get. destruct (forallb _ _); simpl; [|set_solver].
  intros (r' & -> & _)%list_elem_of_fmap. simpl. by eexists.
Qed.

#[export] Instance healthy_store_idlaw : IdLaw World := store_idlaw [].

(** ** The store's invariant

    Every row of every table carries, under [id], an id the store
    generated before ([new_id k] with [k] below the counter), and no two
    rows share an id.  The empty store has it and every operation keeps
    it. *)

Definition ids (w : World) : list JVal := flat_map (fun p => omap (dict_get (u "id")) p.2) (tables w).

Definition id_below (n : N) (r : Row) : Prop := exists k, k < n /\ dict_get (u "id") r = Some (new_id k).

Definition store_wf (w : World) : Prop :=
  NoDup (ids w) /\ Forall (fun p => Forall (id_below (next_id w)) p.2) (tables w).

Lemma new_id_inj (a b : N) : new_id a = new_id b -> a = b.
Proof. intros [= H]. by apply dec_inj. Qed.

Lemma ids_insert (w : World) (t : ustr) (row : Row) :
  ids (insert w t row) ≡ₚ ids w ++ [new_id (next_id w)].
Proof.
  unfold ids, insert, rows_of. simpl. generalize (tables w) as d. intros d.
  induction d as [|[k v] d IH]; simpl; [done|].
  case_bool_decide as Hk; simpl.
  - rewrite omap_app. simpl.
    rewrite <- !app_assoc. f_equiv. by rewrite (comm (++) [_]).
  - rewrite IH. by rewrite app_assoc.
Qed.

Lemma ids_elem (w : World) (v : JVal) :
  store_wf w -> v ∈ ids w -> exists k, k < next_id w /\ v = new_id k.
Proof.
  intros [_ Hall] (p & Hp & Hv)%list_elem_of_In%in_flat_map.
  apply list_elem_of_In, list_elem_of_omap in Hv as (r & Hr & Hget).
  rewrite List.Forall_forall in Hall. specialize (Hall p Hp). rewrite List.Forall_forall in Hall.
  destruct (Hall r (proj1 (list_elem_of_In _ _) Hr)) as (k & Hk & Hid). rewrite Hid in Hget.
  injection Hget as <-. eauto.
Qed.

Lemma store_wf_insert (w : World) (t : ustr) (row : Row) : store_wf w -> store_wf (insert w t row).
Proof.
  intros Hw. pose proof Hw as [Hnd Hall]. split.
  - rewrite ids_insert. apply NoDup_app. split_and!; [done| |apply NoDup_singleton].
    intros v Hv ->%list_elem_of_singleton. destruct (ids_elem w _ Hw Hv) as (k & Hk & Heq%new_id_inj). lia.
  - simpl. apply List.Forall_forall. intros p Hp%list_elem_of_In%dict_set_elem.
    assert (Hmono : forall l, Forall (id_below (next_id w)) l -> Forall (id_below (next_id w + 1)) l).
    { intros l. apply List.Forall_impl. intros r (k & ? & ?). exists k. split; [lia|done]. }
    rewrite List.Forall_forall in Hall. destruct Hp as [->|Hp].
    + simpl. apply Forall_app. split.
      * apply Hmono. unfold rows_of. destruct (dict_get t (tables w)) as [l|] eqn:E; simpl; [|done].
        apply (Hall (t, l)), list_elem_of_In, dict_get_elem, E.
      * constructor; [|done]. exists (next_id w). split; [lia|done].
    + apply Hmono, Hall, list_elem_of_In, Hp.
Qed.

Lemma store_post_wf (down : list ustr) (t : ustr) (row : Row) (w : World) :
  store_wf w -> store_wf (store_post down t row w).2.
Proof.
  intros Hw. unfold store_post. case_bool_decide; [done|].
  destruct (dict_get t schemas); [destruct (check_row _ _ _ _)|]; simpl; auto using store_wf_insert.
Qed.

Lemma store_now_wf (w : World) : store_wf w -> store_wf (store_now w).2.
Proof. done. Qed.

Lemma store_get_wf (t : ustr) f sel (w : World) : store_wf w -> store_wf (store_get t f sel w).2.
Proof. unfold store_get. by destruct (forallb _ _). Qed.

Lemma empty_world_wf : store_wf empty_world.
Proof. split; constructor. Qed.

(** ** The store on the tables [create_tables] does not define *)

Lemma store_post_plain (down : list ustr) (t : ustr) (row : Row) (w : World) :
  t ∉ down -> dict_get t schemas = None -> store_post down t row w = (201, insert w t row).
Proof. intros Hd Hs. unfold store_post. rewrite bool_decide_eq_false_2 by done. by rewrite Hs. Qed.

Lemma store_get_plain (t : ustr) f sel (w : World) :
  dict_get t schemas = None ->
  store_get t f sel w = (200, map (project sel) (filter (fun r => matches f r) (rows_of w t)), w).
Proof.
  intros Hs. unfold store_get. rewrite Hs, (proj2 (forallb_forall _ _)); [done|]. by intros.
Qed.

Lemma rows_of_insert (w : World) (t : ustr) (row : Row) :
  rows_of (insert w t row) t = rows_of w t ++ [(u "id", new_id (next_id w)) :: row].
Proof. unfold rows_of at 1. simpl. by rewrite dict_get_set_eq. Qed.

Lemma rows_of_wf (w : World) (t : ustr) (r : Row) :
  store_wf w -> r ∈ rows_of w t -> id_below (next_id w) r.
Proof.
  intros [_ Hall] Hr. unfold rows_of in Hr. destruct (dict_get t (tables w)) as [l|] eqn:E; [|set_solver].
  apply dict_get_elem, list_elem_of_In in E. rewrite List.Forall_forall in Hall.
  specialize (Hall _ E). rewrite List.Forall_forall in Hall. by apply Hall, list_elem_of_In.
Qed.

(** The [id] a [select=id] read with filters [f] answers first: the one of
    the oldest matching row. *)
Definition first_id_of (f : list (ustr * ustr)) (rows : list Row) : option JVal :=
  match filter (fun r => matches f r) rows with
  | r :: _ => Some (default JNull (dict_get (u "id") r))
  | [] => None
  end.

(** Appending rows does not change an existing first match. *)
Lemma first_id_of_app (f : list (ustr * ustr)) (l1 l2 : list Row) v :
  first_id_of f l1 = Some v -> first_id_of f (l1 ++ l2) = Some v.
Proof. unfold first_id_of. rewrite filter_app. by destruct (filter _ l1). Qed.

(** A read whose filters no earlier row and every later row matches
    answers exactly the later rows. *)
Lemma filter_matches_app (f : list (ustr * ustr)) (l1 l2 : list Row) :
  Forall (fun r => matches f r = false) l1 -> Forall (fun r => matches f r = true) l2 ->
  filter (fun r => matches f r) (l1 ++ l2) = l2.
Proof.
  intros H1 H2. rewrite filter_app.
  induction H1 as [|r l1 Hr _ IH]; simpl.
  - induction H2 as [|r l2 Hr _ IH]; [done|]. rewrite filter_cons, Hr. simpl. by f_equal.
  - by rewrite filter_cons, Hr.
Qed.

(** An [id] read that some stored row matches answers [200] and rows whose
    first one carries the generated id of the oldest matching row. *)
Lemma store_get_ids_found (t : ustr) f (w : World) (r : Row) :
  dict_get t schemas = None -> store_wf w -> r ∈ rows_of w t -> matches f r = true ->
  exists rs k, store_get t f [u "id"] w = (200, [(u "id", new_id k)] :: rs, w) /\
    first_id_of f (rows_of w t) = Some (new_id k).
Proof.
  intros Hs Hw Hr Hm. rewrite store_get_plain by done. unfold first_id_of.
  destruct (filter (fun r => matches f r) (rows_of w t)) as [|r0 rs] eqn:E.
  { assert (Hin : r ∈ filter (fun r => matches f r) (rows_of w t)) by (apply list_elem_of_filter; auto).
    rewrite E in Hin. set_solver. }
  assert (Hr0 : r0 ∈ rows_of w t).
  { assert (Hin : r0 ∈ filter (fun r => matches f r) (rows_of w t)) by (rewrite E; set_solver).
    by apply list_elem_of_filter in Hin as [_ ?]. }
  destruct (rows_of_wf w t r0 Hw Hr0) as (k & _ & Hk).
  exists (map (project [u "id"]) rs), k. simpl. unfold project at 1. simpl. by rewrite Hk.
Qed.

(** ** What a step leaves of a table *)

Lemma rows_of_insert_other (w : World) (t t' : ustr) (row : Row) :
  t <> t' -> rows_of (insert w t row) t' = rows_of w t'.
Proof. intros Hne. unfold rows_of at 1. simpl. by rewrite dict_get_set_ne. Qed.

Lemma store_post_frame (down : list ustr) (t t' : ustr) (row : Row) (w : World) :
  t <> t' -> rows_of (store_post down t row w).2 t' = rows_of w t'.
Proof.
  intros Hne. unfold store_post. case_bool_decide; [done|].
  destruct (dict_get t schemas); [destruct (check_row _ _ _ _)|]; simpl; auto using rows_of_insert_other.
Qed.

Lemma store_get_frame (t : ustr) f sel (w : World) (t' : ustr) :
  rows_of (store_get t f sel w).2 t' = rows_of w t'.
Proof. unfold store_get. by destruct (forallb _ _). Qed.

Lemma store_now_frame (w : World) (t' : ustr) : rows_of (store_now w).2 t' = rows_of w t'.
Proof. done. Qed.

(** A refused write leaves the store as it was. *)
Lemma store_post_refused (down : list ustr) (t : ustr) (row : Row) (w : World) :
  (store_post down t row w).1 <> 201 -> (store_post down t row w).2 = w.
Proof.
  unfold store_post. case_bool_decide; [done|].
  destruct (dict_get t schemas); [destruct (check_row _ _ _ _)|]; simpl; done.
Qed.

End Store.
