(* ===== verification/Loader.v ===== *)
(** * The full loader: [src/import_scoreboards_to_supabase.py]

    The loader reads the intermediate document (the value [Converter]
    builds; [json.dump]/[json.load] keep its strings and key order) and
    runs, inside one [try], [create_users], [create_default_pod],
    [create_pod_meetings], [import_commitments] and [import_attendance],
    each a loop of REST calls in the monad of [Remote], for an arbitrary
    store ([Env]).  [create_tables] only prints SQL; its three table
    definitions are data of [Store].  The progress counters and messages
    are [print] only and are left out; [time.sleep] is a request of the
    trace.

    The theorems are of three kinds: what a run sends whatever the store
    answers ([wp], [emits]), how many requests it sends ([at_most], the
    bound [request_bound]), and what it computes against the in-memory
    store from a consistent state ([hoare]): completion, and the ids the
    re-fetch by email hands out. *)

From Stdlib Require Import NArith ZArith String Sorted.
From stdpp Require Import base list sets.
From S2P Require Import Prelude Emoji Converter Remote Store.
Import Emoji Converter Remote Store.

Open Scope N_scope.

Module Loader.

(** The intermediate document [{name: {date: {"attendance", "commitments"}}}]. *)
Abbreviation Document := (list (ustr * user_data)).

(** [user_mapping] and [meeting_mapping]: name or date to the store's id. *)
Abbreviation Mapping := (list (ustr * JVal)).

(** ** Pure parts *)

(** [parse_name], lines 100-109; [parts[0]] on no token raises. *)
Definition parse_name (full_name : ustr) : Exc + (ustr * ustr) :=
  match split_ws (strip full_name) with
  | [] => inl IndexError
  | [p] => inr (p, [])
  | [p; q] => inr (p, q)
  | p :: r => inr (p, join [32] r)
  end.

(** [s.replace(" ", "")] *)
Fixpoint remove_spaces (s : ustr) : ustr :=
  match s with
  | [] => []
  | c :: r => if c =? 32 then remove_spaces r else c :: remove_spaces r
  end.

(** The email of line 125. *)
Definition email_of (first_name last_name : ustr) : ustr :=
  remove_spaces (lower first_name ++ [46] ++ lower last_name ++ u "@scoreboards.import").

(** [user_data], lines 122-130. *)
Definition user_row (first_name last_name created updated : ustr) : Row :=
  [(u "first_name", JStr first_name); (u "last_name", JStr last_name);
   (u "email", JStr (email_of first_name last_name));
   (u "status", JStr (u "imported_scoreboards")); (u "is_active", JBool true);
   (u "created_at", JStr created); (u "updated_at", JStr updated)].

(** [pod_data], lines 165-171. *)
Definition pod_name : ustr := u "Imported Scoreboards Pod".

Definition pod_row (created : ustr) : Row :=
  [(u "name", JStr pod_name); (u "day_of_week", JInt 1);
   (u "time_utc", JStr (u "19:00:00")); (u "status", JStr (u "imported"));
   (u "created_at", JStr created)].

(** Python's [<] on [str]: code point by code point. *)
Fixpoint str_ltb (a b : ustr) : bool :=
  match a, b with
  | [], [] => false
  | [], _ :: _ => true
  | _ :: _, [] => false
  | x :: a', y :: b' => (x <? y) || ((x =? y) && str_ltb a' b')
  end.

(** [all_dates.add(d)] *)
Definition set_add (x : ustr) (s : list ustr) : list ustr :=
  if bool_decide (x ∈ s) then s else s ++ [x].

(** Lines 200-203: the set of all date keys (iteration order is
    immaterial, the set is sorted next). *)
Definition all_dates (doc : Document) : list ustr :=
  fold_left (fun s p => fold_left (fun s q => set_add q.1 s) p.2 s) doc [].

Fixpoint insert_str (x : ustr) (l : list ustr) : list ustr :=
  match l with
  | [] => [x]
  | y :: r => if str_ltb y x then y :: insert_str x r else x :: l
  end.

(** [sorted(all_dates)] *)
Definition sorted_dates (doc : Document) : list ustr := fold_right insert_str [] (all_dates doc).

(** [meeting_data], lines 208-213. *)
Definition meeting_row (pod_id : JVal) (date_str created : ustr) : Row :=
  [(u "pod_id", pod_id); (u "meeting_date", JStr date_str);
   (u "status", JStr (u "completed")); (u "created_at", JStr created)].

(** Line 264. *)
Definition status_of (fulfilled : ustr) : ustr :=
  if bool_decide (fulfilled = u "true") then u "completed"
  else if bool_decide (fulfilled = u "false") then u "failed"
  else u "pending".

(** [commitment_data], lines 260-269. *)
Definition commitment_row (user_id : JVal) (date_str : ustr) (c : Commitment) : Row :=
  [(u "user_id", user_id); (u "commitment", JStr (text c));
   (u "original_commitment", JStr (text c));
   (u "status", JStr (status_of (fulfilled c))); (u "smart_score", JFloat (u "1.0"));
   (u "completed_at", if bool_decide (fulfilled c = u "true")
                      then JStr (date_str ++ u "T23:59:59Z") else JNull);
   (u "created_at", JStr (date_str ++ u "T00:00:00Z"));
   (u "updated_at", JStr (date_str ++ u "T23:59:59Z"))].

(** Line 309. *)
Definition attended_of (status : ustr) : JVal :=
  if bool_decide (status = u "attended") then JBool true
  else if bool_decide (status = u "not_attended") then JBool false
  else JNull.

(** [attendance_data], lines 306-319. *)
Definition attendance_row (meeting_id user_id : JVal) (date_str status : ustr) : Row :=
  let attended := attended_of status in
  [(u "meeting_id", meeting_id); (u "user_id", user_id); (u "attended", attended);
   (u "duration_minutes", JInt (if jtruthy attended then 60 else 0));
   (u "detection_method", JStr (u "scoreboards_import"));
   (u "confidence_score", JFloat (if bool_decide (status <> u "unknown") then u "1.0" else u "0.5"));
   (u "created_at", JStr (date_str ++ u "T00:00:00Z"))].

(** [status_code == 200 and response.json()] *)
Definition found (code : N) (rows : list Row) : bool :=
  (code =? 200) && negb (bool_decide (rows = [])).

Section Steps.
Context {W : Type} `{!Env W}.
Local Open Scope loader_scope.

(** A create-then-refetch of lines 133-148 and 215-230: on [201] and a
    non-empty answer, [mapping[key] = rows[0]['id']]. *)
Definition refetch_into (mapping : Mapping) (key table : ustr) (filters : list (ustr * ustr))
    (code : N) : M W Mapping :=
  if code =? 201 then
    r <- get table filters [u "id"];;
    if found r.1 r.2 then (id <- first_id r.2;; ret (dict_set key id mapping))
    else ret mapping
  else ret mapping.

(** One iteration of [create_users], lines 119-155. *)
Definition create_user (user_mapping : Mapping) (full_name : ustr) : M W Mapping :=
  match parse_name full_name with
  | inl e => raise e
  | inr (first_name, last_name) =>
      created <- now;; updated <- now;;
      code <- post (u "users") (user_row first_name last_name created updated);;
      um <- refetch_into user_mapping full_name (u "users")
              [(u "email", email_of first_name last_name)] code;;
      sleep 100;;
      ret um
  end.

Definition create_users (doc : Document) : M W Mapping := mfold create_user (map fst doc) [].

(** [create_default_pod], lines 161-192: the pod's id, or [None]. *)
Definition create_default_pod : M W JVal :=
  created <- now;;
  code <- post (u "pods") (pod_row created);;
  if code =? 201 then
    r <- get (u "pods") [(u "name", pod_name)] [u "id"];;
    if found r.1 r.2 then first_id r.2 else ret JNull
  else ret JNull.

(** One iteration of [create_pod_meetings], lines 208-237. *)
Definition create_meeting (pod_id : JVal) (meeting_mapping : Mapping) (date_str : ustr) :
    M W Mapping :=
  created <- now;;
  code <- post (u "pod_meetings") (meeting_row pod_id date_str created);;
  mm <- refetch_into meeting_mapping date_str (u "pod_meetings")
          [(u "meeting_date", date_str); (u "pod_id", jstr pod_id)] code;;
  sleep 100;;
  ret mm.

Definition create_pod_meetings (doc : Document) (pod_id : JVal) : M W Mapping :=
  mfold (create_meeting pod_id) (sorted_dates doc) [].

(** The body of the innermost loop of [import_commitments], lines 260-284. *)
Definition import_commitment (user_id : JVal) (date_str : ustr) (c : Commitment) : M W unit :=
  _ <- post (u "commitments") (commitment_row user_id date_str c);;
  sleep 50.

(** [import_commitments], lines 243-286. *)
Definition import_commitments (doc : Document) (user_mapping : Mapping) : M W unit :=
  mfor doc (fun p =>
    match dict_get p.1 user_mapping with
    | None => ret tt
    | Some user_id =>
        mfor p.2 (fun q => mfor (commitments q.2) (import_commitment user_id q.1))
    end).

(** [import_attendance], lines 289-336. *)
Definition import_attendance (doc : Document) (user_mapping meeting_mapping : Mapping) :
    M W unit :=
  mfor doc (fun p =>
    match dict_get p.1 user_mapping with
    | None => ret tt
    | Some user_id =>
        mfor p.2 (fun q =>
          match dict_get q.1 meeting_mapping with
          | None => ret tt
          | Some meeting_id =>
              _ <- post (u "meeting_attendance")
                     (attendance_row meeting_id user_id q.1 (attendance q.2));;
              sleep 50
          end)
    end).

End Steps.

(** How [main] ends. *)
Inductive Outcome :=
| NoInput                          (** [FileNotFoundError], line 349 *)
| PodAborted                       (** line 362 *)
| Completed (users meetings : nat) (** line 375 *)
| Crashed (e : Exc).               (** [except Exception], line 380 *)

Section Main.
Context {W : Type} `{!Env W}.
Local Open Scope loader_scope.

(** The [try] block of lines 353-378. *)
Definition main_body (doc : Document) : M W Outcome :=
  user_mapping <- create_users doc;;
  pod_id <- create_default_pod;;
  if negb (jtruthy pod_id) then ret PodAborted
  else
    meeting_mapping <- create_pod_meetings doc pod_id;;
    import_commitments doc user_mapping;;
    import_attendance doc user_mapping meeting_mapping;;
    ret (Completed (length user_mapping) (length meeting_mapping)).

(** [except Exception] turns a raise into the end of the run. *)
Definition outcome_of (r : Exc + Outcome) : Outcome :=
  match r with inl e => Crashed e | inr o => o end.

(** [main], lines 339-383; [None] is a missing input file. *)
Definition main (input : option Document) (s : St W) : Outcome * St W :=
  match input with
  | None => (NoInput, s)
  | Some doc => let '(r, s') := main_body doc s in (outcome_of r, s')
  end.

End Main.

(** ** What the importers send, as lists

    The requests [import_commitments] and [import_attendance] issue, written
    as plain lists (one POST and one pause per record); the theorems below
    show that the monadic loops issue exactly these, whatever the store
    answers. *)

Definition commitment_requests (doc : Document) (user_mapping : Mapping) : list Request :=
  flat_map (fun p =>
    match dict_get p.1 user_mapping with
    | None => []
    | Some user_id =>
        flat_map (fun q => flat_map (fun c =>
          [RPost (u "commitments") (commitment_row user_id q.1 c); RSleep 50]) (commitments q.2)) p.2
    end) doc.

Definition attendance_requests (doc : Document) (user_mapping meeting_mapping : Mapping) :
    list Request :=
  flat_map (fun p =>
    match dict_get p.1 user_mapping with
    | None => []
    | Some user_id =>
        flat_map (fun q =>
          match dict_get q.1 meeting_mapping with
          | None => []
          | Some meeting_id =>
              [RPost (u "meeting_attendance") (attendance_row meeting_id user_id q.1 (attendance q.2));
               RSleep 50]
          end) p.2
    end) doc.

(** The document of the spec's end-to-end scenario (section 8). *)
Definition spec_document : Document :=
  [(u "Jane Doe",
    [(u "2024-01-10",
      mkDayEntry (u "attended")
        [mkCommitment (u "Ship feature") (u "true"); mkCommitment (u "Write tests") (u "false")])])].

(** ** Names and emails *)

Lemma parse_name_words (full_name : ustr) :
  parse_name full_name =
  match split_ws full_name with [] => inl IndexError | p :: r => inr (p, join [32] r) end.
Proof.
  unfold parse_name. rewrite split_ws_strip.
  by destruct (split_ws full_name) as [|p [|q [|x r]]].
Qed.

Lemma no_space_not_32 (w : ustr) : no_space w -> Forall (fun c => c <> 32) w.
Proof. apply List.Forall_impl. intros c Hc ->. discriminate Hc. Qed.

Lemma remove_spaces_id (w : ustr) : Forall (fun c => c <> 32) w -> remove_spaces w = w.
Proof.
  induction 1 as [|c w Hc _ IH]; [done|]. simpl.
  rewrite (proj2 (N.eqb_neq c 32) Hc). by rewrite IH.
Qed.

Lemma remove_spaces_app (a b : ustr) : remove_spaces (a ++ b) = remove_spaces a ++ remove_spaces b.
Proof. induction a as [|c a IH]; simpl; [done|]. destruct (c =? 32); by rewrite IH. Qed.

Lemma lower_not_32 (w : ustr) : Forall (fun c => c <> 32) w -> Forall (fun c => c <> 32) (lower w).
Proof.
  intros H. apply List.Forall_map. eapply List.Forall_impl; [|exact H].
  intros c Hc. unfold ascii_lower. destruct (_ && _) eqn:E; [|done].
  apply andb_true_iff in E as [E _]. apply N.leb_le in E. lia.
Qed.

(** The last name of a multi-word name loses its spaces in the email. *)
Lemma remove_spaces_lower_join (r : list ustr) :
  Forall no_space r -> remove_spaces (lower (join [32] r)) = lower (concat r).
Proof.
  induction 1 as [|w r Hw Hr IH]; [done|].
  pose proof (remove_spaces_id _ (lower_not_32 _ (no_space_not_32 _ Hw))) as Hl.
  destruct r as [|w' r]; simpl; [by rewrite app_nil_r|].
  unfold lower in *. rewrite !map_app, !remove_spaces_app.
  simpl in IH |- *. rewrite Hl, IH. by rewrite map_app.
Qed.

(** The email of the words [p :: r] of a name. *)
Lemma email_of_words (p : ustr) (r : list ustr) :
  no_space p -> Forall no_space r ->
  email_of p (join [32] r) = lower p ++ [46] ++ lower (concat r) ++ u "@scoreboards.import".
Proof.
  intros Hp Hr. unfold email_of. rewrite !remove_spaces_app.
  rewrite remove_spaces_id by (apply lower_not_32, no_space_not_32, Hp).
  rewrite remove_spaces_lower_join by done. done.
Qed.

(** [mapping] after one create-then-refetch for [key]: unchanged or [key]
    set. *)
Definition updates (key : ustr) (mapping mapping' : Mapping) : Prop :=
  mapping' = mapping \/ exists v, mapping' = dict_set key v mapping.

Lemma dict_set_key_cases {V} (d : list (ustr * V)) k v k' :
  k' ∈ map fst (dict_set k v d) -> k' = k \/ k' ∈ map fst d.
Proof.
  destruct (decide (k ∈ map fst d)).
  - rewrite dict_set_keys_in by done. auto.
  - rewrite dict_set_keys_notin by done. set_solver.
Qed.

(** C19: [parse_name] raises exactly on a name without words; otherwise
    the first name is the first word (non-empty, without whitespace) and
    the last name holds the other words, which split back out of it. *)
Theorem parse_name_spec (full_name : ustr) :
  (parse_name full_name = inl IndexError <-> split_ws full_name = []) /\
  (forall first_name last_name, parse_name full_name = inr (first_name, last_name) ->
     first_name <> [] /\ no_space first_name /\
     split_ws full_name = first_name :: split_ws last_name).
Proof.
  rewrite parse_name_words. pose proof (split_ws_words full_name) as Hw.
  destruct (split_ws full_name) as [|p r]; (split; [done|]); [done|].
  intros f l [= <- <-]. apply Forall_cons in Hw as [[Hne Hp] Hr].
  split_and!; [done|done|]. by rewrite split_ws_join.
Qed.

(** C20: the synthesised email is not unique: two names whose first
    words, and whose remaining words run together, agree up to ASCII case
    get the same email. *)
Theorem email_collision (n1 n2 p1 p2 : ustr) (r1 r2 : list ustr) :
  split_ws n1 = p1 :: r1 -> split_ws n2 = p2 :: r2 ->
  lower p1 = lower p2 -> lower (concat r1) = lower (concat r2) ->
  exists f1 l1 f2 l2, parse_name n1 = inr (f1, l1) /\ parse_name n2 = inr (f2, l2) /\
    email_of f1 l1 = email_of f2 l2.
Proof.
  intros H1 H2 Hp Hr. rewrite !parse_name_words, H1, H2.
  pose proof (split_ws_words n1) as W1. pose proof (split_ws_words n2) as W2.
  rewrite H1 in W1. rewrite H2 in W2.
  apply Forall_cons in W1 as [[_ S1] R1], W2 as [[_ S2] R2].
  do 4 eexists. split_and!; [done|done|].
  rewrite !email_of_words by (done || (eapply List.Forall_impl; [|done]; by intros ? [])).
  by rewrite Hp, Hr.
Qed.

Lemma email_collision_witness :
  exists f1 l1 f2 l2, parse_name (u "Ann Marie Smith") = inr (f1, l1) /\
    parse_name (u "ann MarieSmith") = inr (f2, l2) /\ email_of f1 l1 = email_of f2 l2.
Proof.
  apply (email_collision _ _ (u "Ann") (u "ann") [u "Marie"; u "Smith"] [u "MarieSmith"]);
    vm_compute; reflexivity.
Defined.

Section Users.
Context {W : Type} `{!Env W}.
Local Open Scope loader_scope.

Lemma refetch_into_inv (mapping : Mapping) key table filters code :
  wp (W:=W) (refetch_into mapping key table filters code)
     (fun r tr => posts tr = [] /\ forall m', r = inr m' -> updates key mapping m').
Proof.
  unfold refetch_into, updates. destruct (code =? 201).
  2: { apply wp_ret. split; [done|]. intros ? [= <-]. auto. }
  apply wp_get_k. intros c rows. simpl. destruct (found c rows).
  2: { apply wp_ret. split; [done|]. intros ? [= <-]. auto. }
  apply wp_first_id_k; [done|]. intros v. apply wp_ret. split; [done|]. intros ? [= <-]. eauto.
Qed.

Lemma create_user_inv (um : Mapping) (full_name : ustr) :
  wp (W:=W) (create_user um full_name)
     (fun r _ => forall um', r = inr um' -> updates full_name um um').
Proof.
  unfold create_user. destruct (parse_name full_name) as [e|[f l]]; [by apply wp_raise|].
  wp_run. eapply wp_bind; [apply refetch_into_inv|done|].
  intros um' tr [_ Hum]. wp_run. intros ? [= <-]. by apply Hum.
Qed.

(** [user_mapping] only maps names of the document, each once,
    whatever the store answers and wherever the loop stops. *)
Theorem create_users_keys (doc : Document) :
  wp (W:=W) (create_users doc)
     (fun r _ => forall um, r = inr um ->
        NoDup (map fst um) /\ forall k, k ∈ map fst um -> k ∈ map fst doc).
Proof.
  unfold create_users.
  apply (wp_mfold_inv _ _ (fun um => NoDup (map fst um) /\ forall k, k ∈ map fst um -> k ∈ map fst doc)).
  - intros um n Hn [Hnd Hk]. eapply wp_mono; [apply create_user_inv|].
    intros r _ H um' ->. destruct (H um' eq_refl) as [->|[v ->]]; [done|].
    split; [by apply dict_set_NoDup|]. intros k' [->|?]%dict_set_key_cases; auto.
  - split; [constructor|set_solver].
Qed.

End Users.

Section Main_proofs.
Context {W : Type} `{!Env W} `{!IdLaw W}.
Local Open Scope loader_scope.

Lemma main_wp (doc : Document) Q (s : St W) :
  wp (main_body doc) Q ->
  exists r tr, (main (Some doc) s).1 = outcome_of r /\
    trace (main (Some doc) s).2 = trace s ++ tr /\ Q r tr.
Proof.
  intros H. destruct (H s) as (tr & Htr & HQ). simpl.
  destruct (main_body doc s) as [r s']. eauto.
Qed.

Lemma refetch_into_ok (mapping : Mapping) key table filters code :
  wp (W:=W) (refetch_into mapping key table filters code)
     (fun r tr => posts tr = [] /\ exists m', r = inr m' /\ updates key mapping m').
Proof.
  unfold refetch_into, updates. destruct (code =? 201).
  2: { apply wp_ret. split; [done|]. eexists. split; [done|]. first [by left | right; eauto]. }
  apply wp_get_ids_k. intros c rows Hids. simpl. destruct (found c rows) eqn:Hf.
  2: { apply wp_ret. split; [done|]. eexists. split; [done|]. first [by left | right; eauto]. }
  apply wp_first_id_ok_k; [|done|].
  - apply andb_true_iff in Hf as [_ Hf]. intros ->. by rewrite bool_decide_eq_true_2 in Hf.
  - intros v. apply wp_ret. split; [done|]. eexists. split; [done|]. first [by left | right; eauto].
Qed.

Lemma create_user_ok (um : Mapping) (full_name first_name last_name : ustr) :
  parse_name full_name = inr (first_name, last_name) ->
  wp (W:=W) (create_user um full_name)
     (fun r tr => (exists um', r = inr um' /\ updates full_name um um') /\
        exists c1 c2, posts tr = [(u "users", user_row first_name last_name c1 c2)]).
Proof.
  intros Hp. unfold create_user. rewrite Hp. wp_run.
  eapply wp_bind; [apply refetch_into_ok|by intros ?? [_ (? & ? & _)]|].
  intros um' tr [Hpo (? & [= <-] & Hu)]. wp_run. split; [eauto|].
  do 2 eexists. simpl. rewrite posts_app, Hpo. done.
Qed.

(** The users of names that all parse are posted one by one. *)
Lemma create_users_all (names : list ustr) um :
  Forall (fun n => split_ws n <> []) names ->
  wp (W:=W) (mfold create_user names um)
     (fun r tr => (exists um', r = inr um') /\ map fst (posts tr) = map (fun _ => u "users") names).
Proof.
  intros Hn. eapply wp_mono.
  { apply (wp_mfold _ _ (fun _ => True) (fun _ ps => map fst ps = [u "users"])); [|done].
    intros b x Hx _. rewrite List.Forall_forall in Hn. specialize (Hn x (proj1 (list_elem_of_In _ _) Hx)).
    destruct (parse_name x) as [e|[f l]] eqn:Hp.
    { rewrite parse_name_words in Hp. by destruct (split_ws x). }
    eapply wp_mono; [by apply create_user_ok|]. intros r tr [(b' & -> & _) (c1 & c2 & ->)]. eauto. }
  intros r tr (b' & -> & _ & ps & -> & Hps). split; [eauto|]. by apply concat_posts_map.
Qed.

Lemma create_default_pod_fails :
  (forall body w, (env_post (W:=W) (u "pods") body w).1 <> 201) ->
  wp (W:=W) create_default_pod (fun r tr => r = inr JNull /\ map fst (posts tr) = [u "pods"]).
Proof.
  intros Hpod. unfold create_default_pod. apply wp_now_k. intros t.
  apply (wp_post_if_k _ _ (fun c => c <> 201)); [apply Hpod|].
  intros c Hc. rewrite (proj2 (N.eqb_neq c 201) Hc). by apply wp_ret.
Qed.

(** C21: a name without words makes [parse_name] raise inside
    [create_users]; the run ends as [Crashed IndexError] with the users of
    the names before it posted and nothing else (no pod, no meeting, no
    commitment, no attendance). *)
Theorem main_blank_name_crash (pre rest : Document) (name : ustr) (ud : user_data) (s : St W) :
  Forall (fun p => split_ws p.1 <> []) pre -> split_ws name = [] ->
  (main (Some (pre ++ (name, ud) :: rest)) s).1 = Crashed IndexError /\
  exists tr, trace (main (Some (pre ++ (name, ud) :: rest)) s).2 = trace s ++ tr /\
    map fst (posts tr) = map (fun _ => u "users") pre.
Proof.
  intros Hpre Hn.
  destruct (main_wp (pre ++ (name, ud) :: rest) (fun r tr =>
              r = inl IndexError /\ map fst (posts tr) = map (fun _ => u "users") pre) s) as (r & tr & Ho & Htr & -> & Hp);
    [|split; [by rewrite Ho|eauto]].
  unfold main_body.
  apply (wp_bind _ _ (fun r tr => r = inl IndexError /\
            map fst (posts tr) = map (fun _ => u "users") pre)); [|intros ?? [[= ->] ?]; by split|intros ?? [[=] _]].
  unfold create_users. rewrite map_app. eapply wp_ext; [intros; symmetry; apply mfold_app|].
  eapply wp_bind; [apply create_users_all, List.Forall_map, Hpre| by intros ?? [[? ?] _]|].
  intros um tr' [_ Hp]. simpl. unfold create_user at 1. rewrite parse_name_words, Hn.
  apply wp_raise_k. rewrite app_nil_r, map_map in *. by split.
Qed.

(** when the store refuses the pod, [main] stops at line 362: the
    outcome is [PodAborted] and the only POSTs are the users, then the
    pod. *)
Theorem main_pod_failure_aborts (doc : Document) (s : St W) :
  Forall (fun p => split_ws p.1 <> []) doc ->
  (forall body w, (env_post (u "pods") body w).1 <> 201) ->
  (main (Some doc) s).1 = PodAborted /\
  exists tr, trace (main (Some doc) s).2 = trace s ++ tr /\
    map fst (posts tr) = map (fun _ => u "users") doc ++ [u "pods"].
Proof.
  intros Hdoc Hpod.
  destruct (main_wp doc (fun r tr =>
              r = inr PodAborted /\ map fst (posts tr) = map (fun _ => u "users") doc ++ [u "pods"]) s) as (r & tr & Ho & Htr & -> & Hp); [|split; [by rewrite Ho|eauto]].
  unfold main_body.
  eapply wp_bind; [apply create_users_all, List.Forall_map, Hdoc| by intros ?? [[? ?] _]|].
  intros um tr1 [_ H1].
  eapply wp_bind; [by apply create_default_pod_fails| by intros ?? [? _]|].
  intros pod tr2 [[= ->] H2]. simpl. apply wp_ret.
  rewrite app_nil_r. split; [done|]. rewrite posts_app, map_app, H1, H2. by rewrite map_map.
Qed.

Lemma create_meeting_ok (pod_id : JVal) (mm : Mapping) (date_str : ustr) :
  wp (W:=W) (create_meeting pod_id mm date_str)
     (fun r tr => (exists mm', r = inr mm' /\ updates date_str mm mm') /\
        exists c, posts tr = [(u "pod_meetings", meeting_row pod_id date_str c)]).
Proof.
  unfold create_meeting. wp_run.
  eapply wp_bind; [apply refetch_into_ok|by intros ?? [_ (? & ? & _)]|].
  intros mm' tr [Hpo (? & [= <-] & Hu)]. wp_run. split; [eauto|].
  eexists. simpl. rewrite posts_app, Hpo. done.
Qed.

(** C22: [create_pod_meetings] posts one meeting per date of
    [sorted(all_dates)], in that order, each carrying its date under the
    key [meeting_date], whatever the store answers. *)
Theorem create_pod_meetings_posts (doc : Document) (pod_id : JVal) :
  wp (W:=W) (create_pod_meetings doc pod_id)
     (fun r tr => (exists mm, r = inr mm) /\
        map (fun p => (p.1, dict_get (u "meeting_date") p.2)) (posts tr) =
        map (fun d => (u "pod_meetings", Some (JStr d))) (sorted_dates doc)).
Proof.
  eapply wp_mono.
  { apply (wp_mfold _ _ (fun _ => True)
      (fun d ps => map (fun p => (p.1, dict_get (u "meeting_date") p.2)) ps =
                   [(u "pod_meetings", Some (JStr d))])); [|done].
    intros mm d _ _. eapply wp_mono; [apply create_meeting_ok|].
    intros r tr [(mm' & -> & _) [c ->]]. eauto. }
  intros r tr (mm & -> & _ & ps & -> & Hps). split; [eauto|]. by apply concat_posts_map.
Qed.

End Main_proofs.

Lemma create_pod_meetings_posts_witness :
  wp (W:=World) (create_pod_meetings spec_document (JStr (u "id-1")))
     (fun r tr => (exists mm, r = inr mm) /\
        map (fun p => (p.1, dict_get (u "meeting_date") p.2)) (posts tr) =
        map (fun d => (u "pod_meetings", Some (JStr d))) (sorted_dates spec_document)).
Proof. apply (create_pod_meetings_posts (W:=World)). Defined.

Lemma main_blank_name_crash_witness :
  (main (Some ([(u "Jane Doe", [])] ++ (u "  ", []) :: [])) (mkSt empty_world [])).1 =
    Crashed IndexError /\
  exists tr, trace (main (Some ([(u "Jane Doe", [])] ++ (u "  ", []) :: [])) (mkSt empty_world [])).2 =
    trace (mkSt empty_world []) ++ tr /\
    map fst (posts tr) = map (fun _ => u "users") [(u "Jane Doe", @nil (ustr * DayEntry))].
Proof.
  apply (main_blank_name_crash [(u "Jane Doe", [])] [] (u "  ") [] (mkSt empty_world []));
    [repeat constructor; by_eval|vm_compute; reflexivity].
Defined.

Lemma main_pod_failure_aborts_witness :
  (main (Env0 := store_env [u "pods"]) (Some [(u "Jane Doe", [])]) (mkSt empty_world [])).1 =
    PodAborted /\
  exists tr, trace (main (Env0 := store_env [u "pods"]) (Some [(u "Jane Doe", [])]) (mkSt empty_world [])).2 =
    trace (mkSt empty_world []) ++ tr /\
    map fst (posts tr) = map (fun _ => u "users") [(u "Jane Doe", @nil (ustr * DayEntry))] ++ [u "pods"].
Proof.
  apply (@main_pod_failure_aborts World (store_env [u "pods"]) (store_idlaw _)).
  - repeat constructor. by_eval.
  - intros body w H. vm_compute in H. discriminate H.
Defined.

(** ** The importers *)

Section Importers.
Context {W : Type} `{!Env W}.
Local Open Scope loader_scope.

Lemma import_commitments_emits (doc : Document) (um : Mapping) :
  emits (W:=W) (import_commitments doc um) tt (commitment_requests doc um).
Proof.
  apply emits_for. intros [name ud] _. simpl. destruct (dict_get name um) as [uid|]; [|apply emits_ret].
  apply emits_for. intros [d e] _. apply emits_for. intros c _.
  apply emits_post. intros _. apply emits_sleep.
Qed.

Lemma import_attendance_emits (doc : Document) (um mm : Mapping) :
  emits (W:=W) (import_attendance doc um mm) tt (attendance_requests doc um mm).
Proof.
  apply emits_for. intros [name ud] _. simpl. destruct (dict_get name um) as [uid|]; [|apply emits_ret].
  apply emits_for. intros [d e] _. simpl. destruct (dict_get d mm) as [mid|]; [|apply emits_ret].
  apply emits_post. intros _. apply emits_sleep.
Qed.

(** C23: whatever the store answers, [import_commitments] completes and
    posts one [commitments] row per commitment of each person with a user
    id, in document order; people without one are skipped. *)
Theorem import_commitments_posts (doc : Document) (um : Mapping) :
  wp (W:=W) (import_commitments doc um)
     (fun r tr => r = inr tt /\
        posts tr = flat_map (fun p =>
          match dict_get p.1 um with
          | None => []
          | Some user_id => flat_map (fun q =>
              map (fun c => (u "commitments", commitment_row user_id q.1 c)) (commitments q.2)) p.2
          end) doc).
Proof.
  eapply wp_mono; [apply import_commitments_emits|]. intros r tr [-> ->]. split; [done|].
  unfold commitment_requests. rewrite posts_flat_map. apply flat_map_ext. intros [n ud]. simpl.
  destruct (dict_get n um); [|done]. rewrite posts_flat_map. apply flat_map_ext. intros [d e].
  rewrite posts_flat_map. induction (commitments e) as [|c cs IH]; [done|]. simpl in *. by rewrite IH.
Qed.

(** C24: whatever the store answers, [import_attendance] completes and
    posts one [meeting_attendance] row per entry of each person with a user
    id and a date with a meeting id; other entries are skipped. *)
Theorem import_attendance_posts (doc : Document) (um mm : Mapping) :
  wp (W:=W) (import_attendance doc um mm)
     (fun r tr => r = inr tt /\
        posts tr = flat_map (fun p =>
          match dict_get p.1 um with
          | None => []
          | Some user_id => flat_map (fun q =>
              match dict_get q.1 mm with
              | None => []
              | Some meeting_id =>
                  [(u "meeting_attendance", attendance_row meeting_id user_id q.1 (attendance q.2))]
              end) p.2
          end) doc).
Proof.
  eapply wp_mono; [apply import_attendance_emits|]. intros r tr [-> ->]. split; [done|].
  unfold attendance_requests. rewrite posts_flat_map. apply flat_map_ext. intros [n ud]. simpl.
  destruct (dict_get n um); [|done]. rewrite posts_flat_map. apply flat_map_ext. intros [d e].
  simpl. by destruct (dict_get d mm).
Qed.

(** The spec's loader scenario.  With a user id for "Jane Doe" and a
    meeting id for 2024-01-10, the commitment importer issues exactly two
    create calls, one per commitment ("completed", then "failed"), and the
    attendance importer exactly one, with [attended = true], in every
    store. *)
Theorem loader_spec_scenario (um mm : Mapping) (uid mid : JVal) :
  dict_get (u "Jane Doe") um = Some uid -> dict_get (u "2024-01-10") mm = Some mid ->
  emits (W:=W) (import_commitments spec_document um) tt
    [RPost (u "commitments") (commitment_row uid (u "2024-01-10") (mkCommitment (u "Ship feature") (u "true")));
     RSleep 50;
     RPost (u "commitments") (commitment_row uid (u "2024-01-10") (mkCommitment (u "Write tests") (u "false")));
     RSleep 50] /\
  emits (W:=W) (import_attendance spec_document um mm) tt
    [RPost (u "meeting_attendance") (attendance_row mid uid (u "2024-01-10") (u "attended")); RSleep 50] /\
  dict_get (u "attended") (attendance_row mid uid (u "2024-01-10") (u "attended")) = Some (JBool true) /\
  map (fun c => dict_get (u "status") (commitment_row uid (u "2024-01-10") c))
      [mkCommitment (u "Ship feature") (u "true"); mkCommitment (u "Write tests") (u "false")] =
  [Some (JStr (u "completed")); Some (JStr (u "failed"))].
Proof.
  intros Hu Hm. split_and!.
  - pose proof (import_commitments_emits spec_document um) as H.
    unfold commitment_requests in H. simpl in H. by rewrite Hu in H.
  - pose proof (import_attendance_emits spec_document um mm) as H.
    unfold attendance_requests in H. simpl in H. by rewrite Hu, Hm in H.
  - by vm_compute.
  - by vm_compute.
Qed.

(** The status of a commitment row follows its [fulfilled] value:
    "true" gives "completed" and a [completed_at] at the end of the day,
    "false" gives "failed" and any other value "pending", both with a
    null [completed_at]. *)
Theorem commitment_row_status (user_id : JVal) (date_str : ustr) (c : Commitment) :
  let row := commitment_row user_id date_str c in
  (fulfilled c = u "true" ->
     dict_get (u "status") row = Some (JStr (u "completed")) /\
     dict_get (u "completed_at") row = Some (JStr (date_str ++ u "T23:59:59Z"))) /\
  (fulfilled c = u "false" ->
     dict_get (u "status") row = Some (JStr (u "failed")) /\
     dict_get (u "completed_at") row = Some JNull) /\
  (fulfilled c <> u "true" -> fulfilled c <> u "false" ->
     dict_get (u "status") row = Some (JStr (u "pending")) /\
     dict_get (u "completed_at") row = Some JNull).
Proof.
  unfold commitment_row, status_of. simpl. split_and!.
  - intros ->. row_lookup. done.
  - intros ->. row_lookup. done.
  - intros Ht Hf. row_lookup. done.
Qed.

(** The attendance row of each status: "attended" gives
    [attended = true], 60 minutes and confidence 1.0; "not_attended" gives
    [false], 0 and 1.0; "unknown" gives null, 0 and 0.5; and any other
    value gives null, 0 and confidence 1.0, as if it were known. *)
Theorem attendance_row_fields (meeting_id user_id : JVal) (date_str status : ustr) :
  let row := attendance_row meeting_id user_id date_str status in
  let fields := (dict_get (u "attended") row, dict_get (u "duration_minutes") row,
                 dict_get (u "confidence_score") row) in
  (status = u "attended" -> fields = (Some (JBool true), Some (JInt 60), Some (JFloat (u "1.0")))) /\
  (status = u "not_attended" -> fields = (Some (JBool false), Some (JInt 0), Some (JFloat (u "1.0")))) /\
  (status = u "unknown" -> fields = (Some JNull, Some (JInt 0), Some (JFloat (u "0.5")))) /\
  (status <> u "attended" -> status <> u "not_attended" -> status <> u "unknown" ->
     fields = (Some JNull, Some (JInt 0), Some (JFloat (u "1.0")))).
Proof.
  unfold attendance_row, attended_of. simpl. split_and!.
  - intros ->. row_lookup. done.
  - intros ->. row_lookup. done.
  - intros ->. row_lookup. done.
  - intros H1 H2 H3. row_lookup. done.
Qed.

End Importers.

Lemma loader_spec_scenario_witness :
  let um := [(u "Jane Doe", JStr (u "id-0"))] in
  let mm := [(u "2024-01-10", JStr (u "id-2"))] in
  emits (W:=World) (import_commitments spec_document um) tt
    [RPost (u "commitments") (commitment_row (JStr (u "id-0")) (u "2024-01-10")
                                (mkCommitment (u "Ship feature") (u "true")));
     RSleep 50;
     RPost (u "commitments") (commitment_row (JStr (u "id-0")) (u "2024-01-10")
                                (mkCommitment (u "Write tests") (u "false")));
     RSleep 50] /\
  emits (W:=World) (import_attendance spec_document um mm) tt
    [RPost (u "meeting_attendance")
       (attendance_row (JStr (u "id-2")) (JStr (u "id-0")) (u "2024-01-10") (u "attended"));
     RSleep 50] /\
  dict_get (u "attended") (attendance_row (JStr (u "id-2")) (JStr (u "id-0")) (u "2024-01-10") (u "attended")) =
    Some (JBool true) /\
  map (fun c => dict_get (u "status") (commitment_row (JStr (u "id-0")) (u "2024-01-10") c))
      [mkCommitment (u "Ship feature") (u "true"); mkCommitment (u "Write tests") (u "false")] =
  [Some (JStr (u "completed")); Some (JStr (u "failed"))].
Proof. intros um mm. apply loader_spec_scenario; vm_compute; reflexivity. Defined.

(** ** Tables each step writes *)

Section Tables.
Context {W : Type} `{!Env W}.
Local Open Scope loader_scope.

Lemma refetch_into_no_post (mapping : Mapping) key table filters code :
  wp (W:=W) (refetch_into mapping key table filters code) (fun _ tr => posts tr = []).
Proof. eapply wp_mono; [apply refetch_into_inv|]. by intros ?? []. Qed.

Lemma create_user_only (um : Mapping) (full_name : ustr) :
  wp (W:=W) (create_user um full_name) (fun _ tr => only_to [u "users"] tr).
Proof.
  unfold create_user. destruct (parse_name full_name) as [e|[f l]]; [apply wp_raise; solve_only|].
  wp_run. eapply wp_bind; [apply refetch_into_no_post|intros ?? H; solve_only|].
  intros um' tr H. wp_run. solve_only.
Qed.

Lemma create_default_pod_only : wp (W:=W) create_default_pod (fun _ tr => only_to [u "pods"] tr).
Proof.
  unfold create_default_pod. wp_run. destruct (_ =? 201); [|apply wp_ret; solve_only].
  apply wp_get_k. intros c2 rows. simpl. destruct (found c2 rows); [|apply wp_ret; solve_only].
  apply wp_first_id. intros _. solve_only.
Qed.

Lemma commitment_requests_only (doc : Document) (um : Mapping) :
  only_to [u "commitments"] (commitment_requests doc um).
Proof.
  apply only_to_flat_map. intros [n ud]. simpl. destruct (dict_get n um); [|apply only_to_nil].
  apply only_to_flat_map. intros q. apply only_to_flat_map. intros c. solve_only.
Qed.

End Tables.

(** ** The printed schema and the meeting rows *)

Section PrintedSchema.
(** The in-memory store, with any tables out of service. *)
Variable down : list ustr.
#[local] Instance outage_store : Env World | 0 := store_env down.

(** [meeting_data] has no [scheduled_date] and a [meeting_date] that
    [pod_meetings] does not have: the insert is refused. *)
Lemma store_rejects_meeting (pod_id : JVal) (date_str created : ustr) (w : World) :
  (store_post down (u "pod_meetings") (meeting_row pod_id date_str created) w).1 <> 201.
Proof. unfold store_post. case_bool_decide; [done|]. by vm_compute. Qed.

Lemma create_pod_meetings_store (doc : Document) (pod_id : JVal) :
  wp (W:=World) (create_pod_meetings doc pod_id)
     (fun r tr => r = inr [] /\ only_to [u "pod_meetings"] tr).
Proof.
  eapply wp_mono.
  { apply (wp_mfold _ _ (fun mm => mm = []) (fun _ ps => forall p, p ∈ ps -> p.1 = u "pod_meetings"));
      [|done].
    intros mm d _ ->. unfold create_meeting. apply wp_now_k. intros c.
    apply (wp_post_if_k _ _ (fun code => code <> 201)); [intros w; apply store_rejects_meeting|].
    intros code Hc. unfold refetch_into. rewrite (proj2 (N.eqb_neq code 201) Hc). wp_run.
    exists []. split_and!; [done|done|]. simpl. set_solver. }
  intros r tr (mm & -> & -> & ps & Hps & HF). split; [done|].
  intros p. rewrite Hps. clear Hps. revert p.
  induction HF as [|d q ds qs Hq _ IH]; intros p Hp; simpl in Hp; [set_solver|].
  apply elem_of_app in Hp as [Hp|Hp]; [rewrite (Hq p Hp); set_solver|by apply IH].
Qed.

Lemma flat_map_all_nil {X Y} (g : X -> list Y) (l : list X) :
  (forall x, g x = []) -> flat_map g l = [].
Proof. intros Hg. induction l as [|x l IH]; [done|]. simpl. by rewrite Hg, IH. Qed.

Lemma attendance_requests_no_meetings (doc : Document) (um : Mapping) :
  attendance_requests doc um [] = [].
Proof.
  apply flat_map_all_nil. intros [n ud]. simpl. destruct (dict_get n um); [|done].
  by apply flat_map_all_nil.
Qed.

(** C27: against the in-memory store, whose [pod_meetings] table is the
    one [create_tables] prints, with any tables out of service, every
    meeting insert is refused (the code
    sends [meeting_date], the table has a NOT NULL [scheduled_date]), so
    [meeting_mapping] stays empty: whatever the document and the store's
    contents, [main] posts no attendance row and, when it completes,
    reports 0 meetings. *)
Theorem printed_schema_drops_attendance (doc : Document) (s : St World) :
  exists tr, trace (main (Some doc) s).2 = trace s ++ tr /\
    (u "meeting_attendance" ∉ map fst (posts tr)) /\
    forall n m, (main (Some doc) s).1 = Completed n m -> m = 0%nat.
Proof.
  set (T := [u "users"; u "pods"; u "pod_meetings"; u "commitments"]).
  destruct (main_wp doc (fun r tr => only_to T tr /\
              forall n m, r = inr (Completed n m) -> m = 0%nat) s) as (r & tr & Ho & Htr & HT & Hm).
  2: { exists tr. split_and!; [done| |intros n m Hc; apply (Hm n m); destruct r; cbn [outcome_of] in Ho; congruence].
       intros (p & Hp & Hin)%list_elem_of_fmap. apply HT in Hin. rewrite <- Hp in Hin.
       revert Hin. apply (bool_decide_eq_false _). by vm_compute. }
  unfold main_body.
  eapply wp_bind; [apply (wp_mfold_only [u "users"]), create_user_only| |].
  { intros e tr1 H1. split; [solve_only|done]. }
  intros um tr1 H1.
  eapply wp_bind; [apply create_default_pod_only|intros e tr2 H2; split; [solve_only|done]|].
  intros pod tr2 H2. destruct (negb (jtruthy pod)).
  { apply wp_ret. split; [solve_only|done]. }
  eapply wp_bind; [apply create_pod_meetings_store|by intros ?? [? _]|].
  intros mm tr3 [[= ->] H3].
  eapply wp_bind; [apply import_commitments_emits|by intros ?? [? _]|].
  intros [] tr4 [_ ->]. pose proof (commitment_requests_only doc um) as H4.
  eapply wp_bind; [apply import_attendance_emits|by intros ?? [? _]|].
  intros [] tr5 [_ ->]. apply wp_ret. split; [|by intros n m [= _ <-]].
  rewrite attendance_requests_no_meetings. solve_only.
Qed.

End PrintedSchema.

(** ** The meeting dates *)

Lemma str_ltb_irrefl (a : ustr) : str_ltb a a = false.
Proof. induction a as [|x a IH]; [done|]. simpl. by rewrite N.ltb_irrefl, N.eqb_refl, IH. Qed.

Lemma str_ltb_total (a b : ustr) : a <> b -> str_ltb a b = true \/ str_ltb b a = true.
Proof.
  revert b. induction a as [|x a IH]; intros [|y b] Hne; simpl; auto; try congruence.
  destruct (N.lt_trichotomy x y) as [Hl|[->|Hl]].
  - left. by rewrite (proj2 (N.ltb_lt _ _) Hl).
  - rewrite N.ltb_irrefl, N.eqb_refl. apply IH. congruence.
  - right. by rewrite (proj2 (N.ltb_lt _ _) Hl).
Qed.

Abbreviation str_lt := (fun a b => str_ltb a b = true).

Lemma insert_str_perm (x : ustr) (l : list ustr) : insert_str x l ≡ₚ x :: l.
Proof.
  induction l as [|y l IH]; [done|]. simpl. destruct (str_ltb y x); [|done].
  rewrite IH. constructor.
Qed.

Lemma insert_str_sorted (x : ustr) (l : list ustr) :
  Sorted str_lt l -> x ∉ l -> Sorted str_lt (insert_str x l).
Proof.
  induction 1 as [|y l Hl IH Hhd]; intros Hx; simpl; [by repeat constructor|].
  destruct (str_ltb y x) eqn:Hyx.
  - constructor; [apply IH; set_solver|].
    destruct l as [|z l]; simpl; [by constructor|]. destruct (str_ltb z x); [|by constructor].
    inversion Hhd. by constructor.
  - constructor; [by constructor|]. constructor.
    destruct (str_ltb_total x y) as [|Hxy]; [set_solver|done|by rewrite Hxy in Hyx].
Qed.

Lemma sorted_of_nodup (l : list ustr) :
  NoDup l -> Sorted str_lt (fold_right insert_str [] l) /\ fold_right insert_str [] l ≡ₚ l.
Proof.
  induction 1 as [|x l Hx Hl [IHs IHp]]; simpl; [split; constructor|].
  split; [|by rewrite insert_str_perm, IHp]. apply insert_str_sorted; [done|]. by rewrite IHp.
Qed.

Lemma fold_set_add {A} (g : A -> ustr) (l : list A) (acc : list ustr) :
  NoDup acc ->
  NoDup (fold_left (fun s q => set_add (g q) s) l acc) /\
  forall d, d ∈ fold_left (fun s q => set_add (g q) s) l acc <-> d ∈ acc \/ d ∈ map g l.
Proof.
  revert acc. induction l as [|q l IH]; intros acc Hacc; simpl; [set_solver|].
  assert (Hn : NoDup (set_add (g q) acc) /\ forall d, d ∈ set_add (g q) acc <-> d ∈ acc \/ d = g q).
  { unfold set_add. case_bool_decide; [set_solver|]. split; [|set_solver].
    apply NoDup_app. split_and!; [done| set_solver| apply NoDup_singleton]. }
  destruct Hn as [Hn Hd]. destruct (IH _ Hn) as [? HIH]. split; [done|]. set_solver.
Qed.

Lemma all_dates_fold (doc : Document) (acc : list ustr) :
  NoDup acc ->
  NoDup (fold_left (fun s p => fold_left (fun s q => set_add q.1 s) p.2 s) doc acc) /\
  forall d, d ∈ fold_left (fun s p => fold_left (fun s q => set_add q.1 s) p.2 s) doc acc <->
    d ∈ acc \/ exists name ud, (name, ud) ∈ doc /\ d ∈ map fst ud.
Proof.
  revert acc. induction doc as [|[name ud] doc IH]; intros acc Hacc; simpl.
  { split; [done|]. intros d. split; [auto|]. intros [?|(? & ? & Hin & _)]; [done|set_solver]. }
  destruct (fold_set_add fst ud acc Hacc) as [Hnd Hd]. destruct (IH _ Hnd) as [? HIH].
  split; [done|]. intros d. rewrite HIH, Hd. split.
  - intros [[?|?]|(n & v & ? & ?)]; [auto| right; exists name, ud; set_solver |right; exists n, v; set_solver].
  - intros [?|(n & v & [[= -> ->]|?]%elem_of_cons & ?)]; [auto|auto|right; eauto].
Qed.

Lemma all_dates_spec (doc : Document) :
  NoDup (all_dates doc) /\
  forall d, d ∈ all_dates doc <-> exists name ud, (name, ud) ∈ doc /\ d ∈ map fst ud.
Proof.
  destruct (all_dates_fold doc [] (NoDup_nil_2)) as [Hnd Hd]. split; [done|].
  intros d. rewrite Hd. set_solver.
Qed.

(** the meeting dates are strictly increasing in Python's string
    order (so each date once), and they are exactly the dates of the
    document's entries. *)
Theorem sorted_dates_spec (doc : Document) :
  Sorted (fun a b => str_ltb a b = true) (sorted_dates doc) /\
  forall d, d ∈ sorted_dates doc <-> exists name ud, (name, ud) ∈ doc /\ d ∈ map fst ud.
Proof.
  destruct (all_dates_spec doc) as [Hnd Hd]. destruct (sorted_of_nodup _ Hnd) as [Hs Hp].
  split; [done|]. intros d. unfold sorted_dates. by rewrite Hp.
Qed.

(** ** How many requests a run issues *)

(** Three requests per name (the POST, the re-fetch, the pause), two for
    the pod, three per distinct date, and two per commitment and per entry
    (a POST and a pause each). *)
Definition request_bound (doc : Document) : nat :=
  (3 * length doc + 2 + 3 * length (sorted_dates doc) +
   sum_list_with (fun p => sum_list_with (fun q => 2 * length (commitments q.2) + 2) p.2) doc)%nat.

Section Requests.
Context {W : Type} `{!Env W}.
Local Open Scope loader_scope.

Lemma refetch_into_at_most (mapping : Mapping) key table filters code :
  at_most (W:=W) (refetch_into mapping key table filters code) 1.
Proof.
  unfold refetch_into. destruct (code =? 201); [|apply at_most_ret]. at_most_run.
  destruct (found _ _); at_most_run.
Qed.

Lemma create_user_at_most (um : Mapping) (full_name : ustr) : at_most (W:=W) (create_user um full_name) 3.
Proof.
  unfold create_user. destruct (parse_name full_name) as [e|[f l]]; at_most_run.
  apply (at_most_mono _ (1 + 1)); [|lia]. apply at_most_bind; [apply refetch_into_at_most|].
  intros um'. at_most_run.
Qed.

Lemma create_default_pod_at_most : at_most (W:=W) create_default_pod 2.
Proof.
  unfold create_default_pod. at_most_run. destruct (_ =? 201); at_most_run.
  destruct (found _ _); at_most_run.
Qed.

Lemma create_meeting_at_most (pod_id : JVal) (mm : Mapping) (date_str : ustr) :
  at_most (W:=W) (create_meeting pod_id mm date_str) 3.
Proof.
  unfold create_meeting. at_most_run.
  apply (at_most_mono _ (1 + 1)); [|lia]. apply at_most_bind; [apply refetch_into_at_most|].
  intros mm'. at_most_run.
Qed.

Lemma import_commitments_at_most (doc : Document) (um : Mapping) :
  at_most (W:=W) (import_commitments doc um)
    (sum_list_with (fun p => sum_list_with (fun q => 2 * length (commitments q.2)) p.2) doc)%nat.
Proof.
  apply at_most_mfor. intros [n ud] _. cbn [fst snd]. destruct (dict_get n um); [|apply at_most_ret].
  apply at_most_mfor. intros [d e] _. cbn [fst snd]. rewrite <- sum_list_with_const.
  apply at_most_mfor. intros c _. unfold import_commitment. at_most_run.
Qed.

Lemma import_attendance_at_most (doc : Document) (um mm : Mapping) :
  at_most (W:=W) (import_attendance doc um mm) (sum_list_with (fun p => 2 * length p.2) doc)%nat.
Proof.
  apply at_most_mfor. intros [n ud] _. cbn [fst snd]. destruct (dict_get n um); [|apply at_most_ret].
  rewrite <- sum_list_with_const. apply at_most_mfor. intros [d e] _. cbn [fst snd].
  destruct (dict_get d mm); at_most_run.
Qed.

Lemma entry_bound_split (ud : user_data) :
  sum_list_with (fun q => 2 * length (commitments q.2) + 2)%nat ud =
  (sum_list_with (fun q => 2 * length (commitments q.2)) ud + 2 * length ud)%nat.
Proof. rewrite sum_list_with_add, sum_list_with_const. lia. Qed.

Lemma doc_bound_split (doc : Document) :
  sum_list_with (fun p => sum_list_with (fun q => 2 * length (commitments q.2) + 2) p.2)%nat doc =
  (sum_list_with (fun p => sum_list_with (fun q => 2 * length (commitments q.2)) p.2) doc +
   sum_list_with (fun p => 2 * length p.2) doc)%nat.
Proof.
  induction doc as [|p doc IH]; [done|]. rewrite !sum_list_with_cons, entry_bound_split, IH. lia.
Qed.

Lemma main_body_at_most (doc : Document) : at_most (W:=W) (main_body doc) (request_bound doc).
Proof.
  unfold main_body.
  apply (at_most_mono _ (3 * length doc + (2 + (3 * length (sorted_dates doc) +
    (sum_list_with (fun p => sum_list_with (fun q => 2 * length (commitments q.2)) p.2) doc +
     (sum_list_with (fun p => 2 * length p.2) doc + 0)))))%nat).
  - apply at_most_bind.
    { eapply at_most_mono; [apply at_most_mfold; intros; apply create_user_at_most|].
      by rewrite sum_list_with_const, length_map. }
    intros um. apply at_most_bind; [apply create_default_pod_at_most|]. intros pod.
    destruct (negb _); [apply at_most_ret|]. apply at_most_bind.
    { eapply at_most_mono; [apply at_most_mfold; intros; apply create_meeting_at_most|].
      by rewrite sum_list_with_const. }
    intros mm. apply at_most_bind; [apply import_commitments_at_most|]. intros _.
    apply at_most_bind; [apply import_attendance_at_most|]. intros _. apply at_most_ret.
  - unfold request_bound. rewrite doc_bound_split. lia.
Qed.

(** C30: whatever the store answers, a run of [main] ends after at
    most [request_bound doc] requests: three per name, two for the pod,
    three per distinct date, and two per commitment and per entry.  No
    loop of the loader retries or runs past its input. *)
Theorem main_requests_bounded (doc : Document) (s : St W) :
  exists tr, trace (main (Some doc) s).2 = trace s ++ tr /\ (length tr <= request_bound doc)%nat.
Proof.
  destruct (main_body_at_most doc s) as (tr & Htr & Hl). exists tr. simpl.
  destruct (main_body doc s) as [r s'] eqn:E. simpl in *. auto.
Qed.

End Requests.

(** ** The run on the store in service *)

Section Healthy.
Local Open Scope loader_scope.

Lemma found_cons (r : Row) (rs : list Row) : found 200 (r :: rs) = true.
Proof. done. Qed.

(** A re-fetch after an accepted insert, on a table [create_tables] does not
    define, finds a row and records its generated id. *)
Lemma refetch_into_live (mapping : Mapping) (key t : ustr) filters (w : World) (r : Row) :
  dict_get t schemas = None -> store_wf w -> r ∈ rows_of w t -> matches filters r = true ->
  hoare (eq w) (refetch_into mapping key t filters 201)
        (fun m w' => w' = w /\ exists k, first_id_of filters (rows_of w t) = Some (new_id k) /\
                                   m = dict_set key (new_id k) mapping).
Proof.
  intros Hs Hw Hr Hm. unfold refetch_into. rewrite N.eqb_refl. apply hoare_get_at.
  destruct (store_get_ids_found t filters w r Hs Hw Hr Hm) as (rs & k & E & Hf).
  change (env_get t filters [u "id"] w) with (store_get t filters [u "id"] w). rewrite E.
  cbn [fst snd]. rewrite found_cons. eapply hoare_first_id_at; [done|done|]. apply hoare_ret_at. eauto.
Qed.

(** The row just inserted is the last one of its table. *)
Lemma inserted_row_in (w : World) (t : ustr) (row : Row) :
  ((u "id", new_id (next_id w)) :: row) ∈ rows_of (insert w t row) t.
Proof. rewrite rows_of_insert. set_solver. Qed.

(** The [users] row [create_user] inserts for the name [n]. *)
Definition created_for (n : ustr) (r : Row) : Prop :=
  exists f l k c1 c2, parse_name n = inr (f, l) /\ r = (u "id", new_id k) :: user_row f l c1 c2.

Lemma create_user_live (um : Mapping) (name first_name last_name : ustr) (w : World) :
  parse_name name = inr (first_name, last_name) -> store_wf w ->
  hoare (eq w) (create_user um name)
        (fun um' w' => store_wf w' /\
           (exists r, created_for name r /\ rows_of w' (u "users") = rows_of w (u "users") ++ [r]) /\
           exists v, first_id_of [(u "email", email_of first_name last_name)] (rows_of w' (u "users")) = Some v /\
                     um' = dict_set name v um).
Proof.
  intros Hp Hw. unfold create_user. rewrite Hp.
  apply hoare_now_at, hoare_now_at, hoare_post_at.
  change (env_post ?t ?row ?x) with (store_post [] t row x).
  rewrite store_post_plain; [cbn [fst snd]|set_solver|by vm_compute].
  eapply hoare_bind_at; [eapply refetch_into_live; [by vm_compute| |apply inserted_row_in|]|].
  - by apply store_wf_insert, store_now_wf, store_now_wf.
  - unfold matches, user_row. simpl. by row_lookup.
  - intros um' w' [-> (k & Hf & ->)]. apply hoare_sleep_at, hoare_ret_at. split_and!; [| |eauto].
    + by apply store_wf_insert, store_now_wf, store_now_wf.
    + eexists. split; [do 5 eexists; split; [exact Hp|reflexivity]|]. rewrite rows_of_insert. reflexivity.
Qed.

Lemma create_default_pod_live (w : World) :
  store_wf w -> hoare (eq w) create_default_pod (fun v w' => jtruthy v = true /\ store_wf w' /\
                                                  rows_of w' (u "users") = rows_of w (u "users")).
Proof.
  intros Hw. unfold create_default_pod. apply hoare_now_at, hoare_post_at.
  change (env_now w) with (store_now w). change (env_post ?t ?row ?x) with (store_post [] t row x).
  rewrite store_post_plain; [cbn [fst snd]|set_solver|by vm_compute]. rewrite N.eqb_refl.
  apply hoare_get_at. change (env_get ?t ?f ?sel ?x) with (store_get t f sel x).
  set (w' := insert (store_now w).2 (u "pods") (pod_row (store_now w).1)).
  assert (Hw' : store_wf w') by (apply store_wf_insert, store_now_wf, Hw).
  destruct (store_get_ids_found (u "pods") [(u "name", pod_name)] w' _ ltac:(by vm_compute) Hw'
              (inserted_row_in _ _ _)) as (rs & k & -> & _); [by vm_compute|].
  cbn [fst snd]. rewrite found_cons. eapply hoare_first_id_end_at; [done|done|]. split_and!; [done|done|].
  unfold w'. by rewrite rows_of_insert_other.
Qed.

(** A name of the document, once [create_users] is past it, is mapped to the
    id of the oldest [users] row with its email; each name inserts a
    row. *)
Lemma create_users_live (doc : Document) (w : World) :
  store_wf w -> NoDup (map fst doc) -> Forall (fun p => split_ws p.1 <> []) doc ->
  hoare (eq w) (create_users doc) (fun um w' =>
    store_wf w' /\ map fst um = map fst doc /\
    (exists rs, rows_of w' (u "users") = rows_of w (u "users") ++ rs /\ Forall2 created_for (map fst doc) rs) /\
    forall n f l, n ∈ map fst doc -> parse_name n = inr (f, l) ->
      is_Some (dict_get n um) /\
      dict_get n um = first_id_of [(u "email", email_of f l)] (rows_of w' (u "users"))).
Proof.
  intros Hw Hnd Hn. unfold create_users.
  eapply hoare_mono; [apply (hoare_mfold _ _ (fun pre um w' =>
    store_wf w' /\ map fst um = pre /\
    (exists rs, rows_of w' (u "users") = rows_of w (u "users") ++ rs /\ Forall2 created_for pre rs) /\
    forall n f l, n ∈ pre -> parse_name n = inr (f, l) ->
      is_Some (dict_get n um) /\
      dict_get n um = first_id_of [(u "email", email_of f l)] (rows_of w' (u "users"))))| |].
  - intros pre x post um Heq. apply hoare_at. intros w' (Hw' & Hk & (rs & Hrs & Hcr) & Hids).
    assert (Hx : split_ws x <> []).
    { rewrite List.Forall_forall in Hn.
      assert (Hxin : x ∈ map fst doc) by (rewrite Heq; set_solver).
      apply list_elem_of_fmap in Hxin as ([x' ud] & -> & Hin). apply (Hn _ (proj1 (list_elem_of_In _ _) Hin)). }
    assert (Hnot : x ∉ pre).
    { rewrite Heq in Hnd. apply NoDup_app in Hnd as (_ & Hdis & _). intros Hin. apply (Hdis x Hin). set_solver. }
    destruct (split_ws x) as [|p r] eqn:E; [done|].
    assert (Hpx : parse_name x = inr (p, join [32] r)) by (by rewrite parse_name_words, E).
    eapply hoare_mono; [apply (create_user_live um x p (join [32] r)); [done|done]|done|].
    intros um' w'' (Hw'' & (row & Hrow & Hrows) & v & Hf & ->). rewrite <- Hk in Hnot. split_and!.
    + done.
    + by rewrite dict_set_keys_notin, Hk.
    + exists (rs ++ [row]). rewrite Hrows, Hrs, app_assoc. split; [done|].
      apply Forall2_app; [done|]. by constructor.
    + intros n f l Hin Hpn. rewrite Hrows. apply elem_of_app in Hin as [Hin|Hin%list_elem_of_singleton].
      * assert (Hne : x <> n) by (intros ->; rewrite Hk in Hnot; set_solver).
        rewrite dict_get_set_ne by done. destruct (Hids n f l Hin Hpn) as [[v' Hv'] Hget].
        rewrite Hv' in Hget |- *. split; [done|]. symmetry. by apply first_id_of_app.
      * subst n. rewrite Hpx in Hpn. injection Hpn as <- <-. rewrite dict_get_set_eq, <- Hrows, Hf.
        by split.
  - intros w' ->. split_and!; [done|done| |set_solver]. exists []. by rewrite app_nil_r.
  - done.
Qed.

Lemma main_body_live (doc : Document) (w : World) :
  store_wf w -> NoDup (map fst doc) -> Forall (fun p => split_ws p.1 <> []) doc ->
  hoare (eq w) (main_body doc) (fun o _ => o = Completed (length doc) 0).
Proof.
  intros Hw Hnd Hn. unfold main_body.
  eapply hoare_bind_at; [by apply create_users_live|]. intros um w1 (Hw1 & Hk & _).
  eapply hoare_bind_at; [by apply create_default_pod_live|]. intros pod w2 [-> _]. cbn [negb].
  eapply (hoare_bind_at _ _ (fun mm _ => mm = [])).
  { apply hoare_of_wp. eapply wp_mono; [apply (create_pod_meetings_store [])|]. intros r tr [-> _]. eauto. }
  intros mm w3 ->.
  eapply (hoare_bind_at _ _ (fun _ _ => True)).
  { apply hoare_of_wp. eapply wp_mono; [apply import_commitments_emits|]. intros r tr [-> _]. eauto. }
  intros _ w4 _.
  eapply (hoare_bind_at _ _ (fun _ _ => True)).
  { apply hoare_of_wp. eapply wp_mono; [apply import_attendance_emits|]. intros r tr [-> _]. eauto. }
  intros _ w5 _. apply hoare_ret_at. by rewrite <- (length_map fst um), Hk, length_map.
Qed.

(** [main] on a document [main_body_live] covers. *)
Lemma main_live (doc : Document) (w : World) (tr : list Request) :
  store_wf w -> NoDup (map fst doc) -> Forall (fun p => split_ws p.1 <> []) doc ->
  (main (Some doc) (mkSt w tr)).1 = Completed (length doc) 0.
Proof.
  intros Hw Hnd Hn. destruct (main_body_live doc w Hw Hnd Hn (mkSt w tr) eq_refl) as (o & Ho & ->).
  simpl. destruct (main_body doc (mkSt w tr)) as [r s']. simpl in Ho. by subst r.
Qed.

(** C29: on the store in service, from any store state whose rows carry
    distinct generated ids, [main] runs to its end for every document
    whose names all have a word: it reports [Completed] with one user per
    name, and 0 meetings, since the printed [pod_meetings] table refuses
    every meeting row. *)
Theorem main_completes (doc : Document) (w : World) (tr : list Request) :
  store_wf w -> NoDup (map fst doc) -> Forall (fun p => split_ws p.1 <> []) doc ->
  (main (Some doc) (mkSt w tr)).1 = Completed (length doc) 0.
Proof. apply main_live. Qed.

Lemma main_completes_witness :
  (main (Some spec_document) (mkSt empty_world [])).1 = Completed (length spec_document) 0.
Proof.
  apply main_completes; [apply empty_world_wf|by_eval|].
  repeat constructor. by_eval.
Defined.

(** C28: the email is the only handle [create_users] re-fetches a user
    by, so on the store in service two names of the document whose
    synthesised emails coincide (see [email_collision]) are both mapped
    to the same user id, while every name still inserts a [users] row of
    its own: the table grows by one row per name. *)
Theorem same_email_same_id (doc : Document) (w : World) (tr : list Request)
    (n1 n2 f1 l1 f2 l2 : ustr) :
  store_wf w -> NoDup (map fst doc) -> Forall (fun p => split_ws p.1 <> []) doc ->
  n1 ∈ map fst doc -> n2 ∈ map fst doc ->
  parse_name n1 = inr (f1, l1) -> parse_name n2 = inr (f2, l2) -> email_of f1 l1 = email_of f2 l2 ->
  exists um id, (create_users doc (mkSt w tr)).1 = inr um /\
    dict_get n1 um = Some id /\ dict_get n2 um = Some id /\
    length (rows_of (world (create_users doc (mkSt w tr)).2) (u "users")) =
      (length (rows_of w (u "users")) + length doc)%nat.
Proof.
  intros Hw Hnd Hn H1 H2 P1 P2 He.
  destruct (create_users_live doc w Hw Hnd Hn (mkSt w tr) eq_refl) as (um & Hum & _ & _ & (rs & Hrs & Hcr) & Hids).
  destruct (Hids n1 f1 l1 H1 P1) as [[id Hid] E1]. destruct (Hids n2 f2 l2 H2 P2) as [_ E2].
  exists um, id. split_and!; [done|done| |].
  - by rewrite E2, <- He, <- E1.
  - rewrite Hrs, length_app, <- (Forall2_length _ _ _ Hcr), length_map. done.
Qed.

Lemma same_email_same_id_witness :
  exists um id,
    (create_users [(u "Jane Doe", []); (u "jane doe", [])] (mkSt empty_world [])).1 = inr um /\
    dict_get (u "Jane Doe") um = Some id /\ dict_get (u "jane doe") um = Some id /\
    length (rows_of (world (create_users [(u "Jane Doe", []); (u "jane doe", [])]
                              (mkSt empty_world [])).2) (u "users")) =
      (length (rows_of empty_world (u "users")) + length [(u "Jane Doe", @nil (ustr * DayEntry));
                                                         (u "jane doe", [])])%nat.
Proof.
  apply (same_email_same_id _ _ _ _ _ (u "Jane") (u "Doe") (u "jane") (u "doe"));
    [apply empty_world_wf|by_eval|repeat constructor; by_eval|by_eval|by_eval|by vm_compute..].
Defined.

(** ** What the later steps leave of the [users] table *)

Lemma create_pod_meetings_users (doc : Document) (pod_id : JVal) (R : list Row) :
  hoare (fun w => rows_of w (u "users") = R) (create_pod_meetings doc pod_id)
        (fun mm w => mm = [] /\ rows_of w (u "users") = R).
Proof.
  unfold create_pod_meetings.
  eapply hoare_mono; [apply (hoare_mfold _ _ (fun _ mm w => mm = [] /\ rows_of w (u "users") = R))|done|done].
  intros pre x post mm Heq. apply hoare_at. intros w0 [-> Hr]. unfold create_meeting.
  apply hoare_now_at, hoare_post_at.
  change (env_now w0) with (store_now w0). change (env_post ?t ?row ?x) with (store_post [] t row x).
  pose proof (store_rejects_meeting [] pod_id x (store_now w0).1 (store_now w0).2) as Hc.
  pose proof (store_post_refused [] _ _ _ Hc) as Hw1.
  destruct (store_post [] _ _ _) as [code w1] eqn:E. simpl in Hc, Hw1 |- *. subst w1.
  unfold refetch_into. rewrite (proj2 (N.eqb_neq code 201) Hc).
  apply hoare_ret_k_at, hoare_sleep_at, hoare_ret_at. by split.
Qed.

Lemma import_commitments_users (doc : Document) (um : Mapping) (R : list Row) :
  hoare (fun w => rows_of w (u "users") = R) (import_commitments doc um)
        (fun _ w => rows_of w (u "users") = R).
Proof.
  apply hoare_mfor. intros [n ud] _. simpl. destruct (dict_get n um) as [uid|].
  2: { apply hoare_at. intros w0 Hr. by apply hoare_ret_at. }
  apply hoare_mfor. intros [d e] _. apply hoare_mfor. intros c _. unfold import_commitment.
  apply hoare_at. intros w0 Hr. apply hoare_post_at, hoare_sleep_end_at.
  change (env_post ?t ?row ?x) with (store_post [] t row x). by rewrite store_post_frame.
Qed.

Lemma import_attendance_users (doc : Document) (um mm : Mapping) (R : list Row) :
  hoare (fun w => rows_of w (u "users") = R) (import_attendance doc um mm)
        (fun _ w => rows_of w (u "users") = R).
Proof.
  apply hoare_mfor. intros [n ud] _. simpl. destruct (dict_get n um) as [uid|].
  2: { apply hoare_at. intros w0 Hr. by apply hoare_ret_at. }
  apply hoare_mfor. intros [d e] _. simpl. destruct (dict_get d mm) as [mid|].
  2: { apply hoare_at. intros w0 Hr. by apply hoare_ret_at. }
  apply hoare_at. intros w0 Hr. apply hoare_post_at, hoare_sleep_end_at.
  change (env_post ?t ?row ?x) with (store_post [] t row x). by rewrite store_post_frame.
Qed.

(** A run of [main_body] on the store in service appends to [users] one
    row per name, the one [create_user] inserts for it, and nothing
    else. *)
Lemma main_body_users (doc : Document) (w : World) :
  store_wf w -> NoDup (map fst doc) -> Forall (fun p => split_ws p.1 <> []) doc ->
  hoare (eq w) (main_body doc) (fun _ w' => exists rs,
    rows_of w' (u "users") = rows_of w (u "users") ++ rs /\ Forall2 created_for (map fst doc) rs).
Proof.
  intros Hw Hnd Hn. unfold main_body.
  eapply hoare_bind_at; [by apply create_users_live|]. intros um w1 (Hw1 & _ & (rs & Hrs & Hcr) & _).
  eapply hoare_bind_at; [by apply create_default_pod_live|]. intros pod w2 (-> & _ & Hu2). cbn [negb].
  eapply hoare_bind_at; [eapply hoare_from; [apply create_pod_meetings_users|exact Hu2]|].
  intros mm w3 [-> Hu3].
  eapply hoare_bind_at; [eapply hoare_from; [apply import_commitments_users|exact Hu3]|]. intros a4 w4 Hu4.
  eapply hoare_bind_at; [eapply hoare_from; [apply import_attendance_users|exact Hu4]|]. intros a5 w5 Hu5.
  apply hoare_ret_at. exists rs. by rewrite Hu5, Hrs.
Qed.

End Healthy.

End Loader.
