(* ===== verification/CommitmentsOnly.v ===== *)
(** * The second loader: [src/import_commitments_only.py]

    It rebuilds the name-to-id map from the users the full loader created
    ([get_user_mapping]: one GET on [users] filtered by the import status,
    the display name rebuilt from [first_name] and [last_name]), then
    re-imports the commitments of the document, skipping those whose text
    is empty or a dash, and returns how many inserts the store accepted.
    The same monad and store interface as [Loader] are used; the theorems
    give the rows it sends, the count it returns against them, the
    names it rebuilds, and, run on the store the full loader leaves, the
    user ids it recovers for the document's names. *)

From Stdlib Require Import NArith ZArith String.
From stdpp Require Import base list sets.
From S2P Require Import Prelude Emoji Converter Remote Store Loader.
Import Emoji Converter Remote Store Loader.

Open Scope N_scope.

Module CommitmentsOnly.

(** Lines 40-44: the display name of a user row.  [user['last_name'] or ""]
    is the empty string for a null or empty last name; a first name that is
    not a string is inserted by [str()] in the f-string and, alone, keyed by
    its text. *)
Definition name_key (first_name last_name : JVal) : ustr :=
  let last := if jtruthy last_name then jstr last_name else [] in
  if bool_decide (last = []) then jstr first_name
  else jstr first_name ++ [32] ++ last.

(** Lines 40-45 on a stored row: the key and the value [add_user]
    assigns for it, a missing column read as NULL as PostgREST answers it. *)
Definition user_entry (user : Row) : ustr * JVal :=
  (name_key (default JNull (dict_get (u "first_name") user)) (default JNull (dict_get (u "last_name") user)),
   default JNull (dict_get (u "id") user)).

(** Line 72: [not text or text.strip() in ['-', '']]. *)
Definition skipped (text : ustr) : bool :=
  bool_decide (text = []) || bool_decide (strip text = u "-" \/ strip text = []).

(** [commitment_data], lines 75-79. *)
Definition only_row (user_id : JVal) (c : Commitment) : Row :=
  [(u "user_id", user_id); (u "commitment", JStr (text c));
   (u "status", JStr (status_of (fulfilled c)))].

Section Steps.
Context {W : Type} `{!Env W}.
Local Open Scope loader_scope.

(** [user[key]] *)
Definition field (r : Row) (key : ustr) : M W JVal :=
  match dict_get key r with Some v => ret v | None => raise KeyError end.

(** One iteration of lines 38-46. *)
Definition add_user (user_mapping : Mapping) (user : Row) : M W Mapping :=
  last_name <- field user (u "last_name");;
  first_name <- field user (u "first_name");;
  id <- field user (u "id");;
  ret (dict_set (name_key first_name last_name) id user_mapping).

(** [get_user_mapping], lines 22-48. *)
Definition get_user_mapping : M W Mapping :=
  r <- get (u "users") [(u "status", u "imported_scoreboards")]
           [u "id"; u "first_name"; u "last_name"];;
  if negb (r.1 =? 200) then ret [] else mfold add_user r.2 [].

(** The innermost body of lines 68-94, on the counters
    [(total_commitments, successful_imports)]. *)
Definition import_one (user_id : JVal) (counts : N * N) (c : Commitment) : M W (N * N) :=
  let total := counts.1 + 1 in
  if skipped (text c) then ret (total, counts.2)
  else
    code <- post (u "commitments") (only_row user_id c);;
    let ok := if code =? 201 then counts.2 + 1 else counts.2 in
    sleep 50;;
    ret (total, ok).

(** The loop over the entries of one person. *)
Definition import_person (user_id : JVal) (counts : N * N) (ud : user_data) : M W (N * N) :=
  mfold (fun cs q => mfold (import_one user_id) (commitments q.2) cs) ud counts.

(** [import_commitments], lines 50-97: the number of accepted inserts. *)
Definition import_commitments (doc : Document) (user_mapping : Mapping) : M W N :=
  counts <- mfold (fun cs p =>
              match dict_get p.1 user_mapping with
              | None => ret cs
              | Some user_id => import_person user_id cs p.2
              end) doc (0, 0);;
  ret counts.2.

End Steps.

(** How [main] ends. *)
Inductive Outcome :=
| NoInput                  (** line 110 *)
| NoUsers                  (** line 117 *)
| Completed (imported : N) (** line 123 *)
| Crashed (e : Exc).       (** line 126 *)

Section Main.
Context {W : Type} `{!Env W}.
Local Open Scope loader_scope.

(** The [try] block of lines 113-124. *)
Definition main_body (doc : Document) : M W Outcome :=
  user_mapping <- get_user_mapping;;
  if bool_decide (user_mapping = []) then ret NoUsers
  else (n <- import_commitments doc user_mapping;; ret (Completed n)).

(** [main], lines 99-129. *)
Definition main (input : option Document) (s : St W) : Outcome * St W :=
  match input with
  | None => (NoInput, s)
  | Some doc =>
      let '(r, s') := main_body doc s in
      (match r with inl e => Crashed e | inr o => o end, s')
  end.

End Main.

(** ** Properties *)

Section Proofs.
Context {W : Type} `{!Env W}.
Local Open Scope loader_scope.

(** The loop of lines 38-46 on the rows of a [select=id,first_name,last_name]
    read never raises and assigns the rows' entries in order. *)
Lemma mfold_add_user (rows : list Row) (um : Mapping) (s : St W) :
  mfold add_user (map (project [u "id"; u "first_name"; u "last_name"]) rows) um s =
  (inr (dict_set_all um (map user_entry rows)), s).
Proof. revert um. induction rows as [|r rows IH]; intros um; [done|]. apply IH. Qed.

Lemma import_one_posts (user_id : JVal) (counts : N * N) (c : Commitment) :
  wp (W:=W) (import_one user_id counts c)
     (fun r tr => (exists b, r = inr b) /\
        posts tr = if skipped (text c) then [] else [(u "commitments", only_row user_id c)]).
Proof.
  unfold import_one. destruct (skipped (text c)); [apply wp_ret; eauto|].
  wp_run. split; [eauto|]. simpl. done.
Qed.

(** The commitments the import sends, in document order: those of the
    people with a user id whose text is neither empty nor a dash once
    stripped. *)
Definition only_posts (doc : Document) (um : Mapping) : list (ustr * Row) :=
  flat_map (fun p =>
    match dict_get p.1 um with
    | None => []
    | Some user_id => flat_map (fun q =>
        map (fun c => (u "commitments", only_row user_id c))
            (filter (fun c => negb (skipped (text c))) (commitments q.2))) p.2
    end) doc.

(** The number of commitments of a document that the import does not
    skip. *)
Definition kept_count (doc : Document) : nat :=
  sum_list_with (fun p => sum_list_with (fun q =>
    length (filter (fun c => negb (skipped (text c))) (commitments q.2))) p.2) doc.

Lemma only_posts_length (doc : Document) (um : Mapping) :
  Forall (fun p => is_Some (dict_get p.1 um)) doc -> length (only_posts doc um) = kept_count doc.
Proof.
  unfold only_posts, kept_count. rewrite length_flat_map_sum. intros Hs.
  apply sum_list_with_ext_Forall. eapply Forall_impl; [exact Hs|]. intros [n ud] [uid Hu]. simpl in *.
  rewrite Hu, length_flat_map_sum. apply sum_list_with_ext_Forall, Forall_forall. intros q _. apply length_map.
Qed.

Lemma import_commitments_posts_only (doc : Document) (um : Mapping) :
  wp (W:=W) (import_commitments doc um)
     (fun r tr => (exists n, r = inr n) /\ posts tr = only_posts doc um).
Proof.
  unfold import_commitments.
  eapply wp_bind; [apply (wp_mfold_posts _ _ (fun p : ustr * user_data =>
    match dict_get p.1 um with
    | None => []
    | Some user_id => flat_map (fun q =>
        map (fun c => (u "commitments", only_row user_id c))
            (filter (fun c => negb (skipped (text c))) (commitments q.2))) p.2
    end))|by intros ?? [[? ?] _]|].
  - intros cs [name ud] _. simpl. destruct (dict_get name um) as [uid|]; [|apply wp_ret; eauto].
    apply (wp_mfold_posts _ _ (fun q : ustr * DayEntry =>
      map (fun c => (u "commitments", only_row uid c))
          (filter (fun c => negb (skipped (text c))) (commitments q.2)))).
    intros cs' [d e] _. simpl.
    eapply wp_mono; [apply (wp_mfold_posts _ _ (fun c =>
      if skipped (text c) then [] else [(u "commitments", only_row uid c)]));
      intros ?? _; apply import_one_posts|].
    intros r tr [? ->]. split; [done|].
    induction (commitments e) as [|c l IH]; [done|]. simpl. rewrite IH.
    rewrite filter_cons. destruct (skipped (text c)); case_decide as Hd; simpl in *; done.
  - intros counts tr [_ Hp]. apply wp_ret. rewrite app_nil_r. eauto.
Qed.

(** C31: whatever the store answers, the commitments-only import never
    raises, and it posts exactly the commitments of the people it has a
    user id for whose text is neither empty nor a dash once stripped, in
    document order. *)
Theorem only_import_posts (doc : Document) (um : Mapping) :
  wp (W:=W) (import_commitments doc um)
     (fun r tr => (exists n, r = inr n) /\
        posts tr = flat_map (fun p =>
          match dict_get p.1 um with
          | None => []
          | Some user_id => flat_map (fun q =>
              map (fun c => (u "commitments", only_row user_id c))
                  (filter (fun c => negb (skipped (text c))) (commitments q.2))) p.2
          end) doc).
Proof. apply import_commitments_posts_only. Qed.

(** One iteration adds one to [successful_imports] exactly when its POST
    is answered [201]; [k = 1] when every POST is. *)
Lemma import_one_count (k : nat) (user_id : JVal) (counts : N * N) (c : Commitment) :
  (k <= 1)%nat -> (k = 1%nat -> forall body w, (env_post (u "commitments") body w).1 = 201) ->
  wp (W:=W) (import_one user_id counts c) (fun r tr => exists cs, r = inr cs /\
    (N.to_nat counts.2 + k * length (posts tr) <= N.to_nat cs.2 <= N.to_nat counts.2 + length (posts tr))%nat).
Proof.
  intros Hk1 Hk. unfold import_one. destruct (skipped (text c)).
  { apply wp_ret. eexists. split; [done|]. simpl. lia. }
  destruct (decide (k = 1%nat)) as [->|Hk0].
  - apply (wp_post_if_k _ _ (fun code => code = 201)); [intros w; by apply Hk|].
    intros code ->. simpl. wp_run. eexists. split; [done|]. simpl. rewrite N2Nat.inj_add. simpl. lia.
  - wp_run. eexists. split; [done|]. simpl. destruct (_ =? 201); simpl; rewrite ?N2Nat.inj_add; simpl; lia.
Qed.

Lemma import_commitments_count (k : nat) (doc : Document) (um : Mapping) :
  (k <= 1)%nat -> (k = 1%nat -> forall body w, (env_post (u "commitments") body w).1 = 201) ->
  wp (W:=W) (import_commitments doc um) (fun r tr => exists n, r = inr n /\
    (k * length (posts tr) <= N.to_nat n <= length (posts tr))%nat).
Proof.
  intros Hk1 Hk. unfold import_commitments.
  eapply wp_bind; [apply (wp_mfold_counter _ _ (fun cs : N * N => N.to_nat cs.2) k)|by intros ?? (? & ? & _)|].
  - intros cs [name ud] _. simpl. destruct (dict_get name um) as [uid|].
    + unfold import_person. apply (wp_mfold_counter _ _ (fun cs : N * N => N.to_nat cs.2) k).
      intros cs' [d e] _. apply (wp_mfold_counter _ _ (fun cs : N * N => N.to_nat cs.2) k).
      intros. by apply import_one_count.
    + apply wp_ret. eexists. split; [done|]. simpl. lia.
  - intros [t ok] tr (cs & [= <-] & Hc). apply wp_ret. simpl in *. rewrite app_nil_r. eauto.
Qed.

(** C32: the number [import_commitments] returns never exceeds the number
    of commitments it sends, and equals it when the store accepts every
    insert: it counts the [201] answers. *)
Theorem only_import_count (doc : Document) (um : Mapping) :
  wp (W:=W) (import_commitments doc um)
     (fun r _ => exists n, r = inr n /\ (N.to_nat n <= length (only_posts doc um))%nat) /\
  ((forall body w, (env_post (u "commitments") body w).1 = 201) ->
   wp (W:=W) (import_commitments doc um)
      (fun r _ => r = inr (N.of_nat (length (only_posts doc um))))).
Proof.
  split.
  - eapply wp_mono; [apply wp_and; [apply (import_commitments_count 0)|apply import_commitments_posts_only]|].
    + lia.
    + done.
    + intros r tr [(n & -> & Hn) [_ <-]]. eauto with lia.
  - intros Hacc. eapply wp_mono; [apply wp_and; [apply (import_commitments_count 1)|apply import_commitments_posts_only]|].
    + lia.
    + by intros _.
    + intros r tr [(n & -> & Hn) [_ <-]]. f_equal. lia.
Qed.

End Proofs.

(** The store in service accepts every commitment row. *)
Lemma store_accepts_commitments (body : Row) (w : World) :
  (env_post (u "commitments") body w).1 = 201.
Proof.
  change (env_post ?t ?b ?x) with (store_post [] t b x).
  rewrite store_post_plain; [done|set_solver|by vm_compute].
Qed.

Lemma only_import_count_witness :
  wp (W:=World) (import_commitments spec_document [(u "Jane Doe", new_id 0)])
     (fun r _ => r = inr (N.of_nat (length (only_posts spec_document [(u "Jane Doe", new_id 0)])))).
Proof.
  apply (proj2 (only_import_count (W:=World) _ _)). apply store_accepts_commitments.
Defined.

(** The display name of the row [create_user] inserts for a name. *)
Lemma name_key_words (full_name first_name last_name : ustr) :
  parse_name full_name = inr (first_name, last_name) ->
  name_key (JStr first_name) (JStr last_name) = join [32] (split_ws full_name).
Proof.
  rewrite parse_name_words. pose proof (split_ws_words full_name) as Hw.
  destruct (split_ws full_name) as [|p r]; [done|]. intros [= <- <-].
  apply Forall_cons in Hw as [_ Hr]. unfold name_key. simpl.
  destruct r as [|w r]; [done|].
  assert (Hj : join [32] (w :: r) <> []).
  { apply Forall_cons in Hr as [[Hne _] _]. destruct r; simpl; [done|]. by destruct w. }
  rewrite (bool_decide_eq_false_2 (join [32] (w :: r) = [])) by done. simpl.
  by rewrite bool_decide_eq_false_2.
Qed.

(** C33: for a name [parse_name] accepts, the display name that
    [get_user_mapping] rebuilds from the stored [first_name] and
    [last_name] is the name's words joined by single spaces: it gives
    back the document's name exactly when that name has no leading,
    trailing or repeated whitespace. *)
Theorem name_key_roundtrip (full_name first_name last_name : ustr) :
  parse_name full_name = inr (first_name, last_name) ->
  name_key (JStr first_name) (JStr last_name) = join [32] (split_ws full_name).
Proof. apply name_key_words. Qed.

Lemma name_key_roundtrip_witness :
  name_key (JStr (u "Ann")) (JStr (u "Marie Smith")) = join [32] (split_ws (u "Ann Marie Smith")).
Proof. apply (name_key_roundtrip (u "Ann Marie Smith")). vm_compute. reflexivity. Defined.

(** ** After the full loader *)

Section AfterLoader.
Local Open Scope loader_scope.

(** On the store in service, [get_user_mapping] assigns the entries of
    the stored users with the import status, oldest first. *)
Lemma get_user_mapping_store (s : St World) :
  get_user_mapping s =
    (inr (dict_set_all [] (map user_entry
       (filter (fun r => matches [(u "status", u "imported_scoreboards")] r) (rows_of (world s) (u "users"))))),
     mkSt (world s) (trace s ++ [RGet (u "users") [(u "status", u "imported_scoreboards")]
                                      [u "id"; u "first_name"; u "last_name"]])).
Proof.
  unfold get_user_mapping, bind, get. change (env_get ?t ?f ?sel ?x) with (store_get t f sel x).
  rewrite store_get_plain by by vm_compute. cbn [fst snd negb N.eqb Pos.eqb]. by rewrite mfold_add_user.
Qed.

(** A row [create_user] inserts carries the import status, and
    [add_user] keys it by the name's words joined by single spaces. *)
Lemma created_for_entry (n : ustr) (r : Row) :
  created_for n r ->
  matches [(u "status", u "imported_scoreboards")] r = true /\
  user_entry r = (join [32] (split_ws n), default JNull (dict_get (u "id") r)).
Proof.
  intros (f & l & k & c1 & c2 & Hp & ->). split; [reflexivity|].
  unfold user_entry. change (dict_get (u "first_name") _) with (Some (JStr f)).
  change (dict_get (u "last_name") _) with (Some (JStr l)). simpl default.
  by rewrite (name_key_words n f l Hp).
Qed.

Lemma join_split_ws_inj (a b : ustr) :
  join [32] (split_ws a) = join [32] (split_ws b) -> split_ws a = split_ws b.
Proof.
  intros H. rewrite <- (split_ws_join (split_ws a)) by apply split_ws_words.
  rewrite H. apply split_ws_join, split_ws_words.
Qed.

(** [main] of the full loader leaves the state its [try] block leaves. *)
Lemma loader_main_state (doc : Document) (s : St World) :
  (Loader.main (Some doc) s).2 = (Loader.main_body doc s).2.
Proof. simpl. by destruct (Loader.main_body doc s). Qed.

(** The [users] rows the full loader appends, and the map
    [get_user_mapping] then rebuilds from them. *)
Lemma full_loader_users (doc : Document) (w : World) (tr : list Request) :
  store_wf w -> NoDup (map (fun p => split_ws p.1) doc) -> Forall (fun p => split_ws p.1 <> []) doc ->
  Forall (fun r => matches [(u "status", u "imported_scoreboards")] r = false) (rows_of w (u "users")) ->
  exists rs um,
    rows_of (world (Loader.main (Some doc) (mkSt w tr)).2) (u "users") = rows_of w (u "users") ++ rs /\
    (get_user_mapping (Loader.main (Some doc) (mkSt w tr)).2).1 = inr um /\
    Forall2 (fun n r => created_for n r /\ dict_get (join [32] (split_ws n)) um = dict_get (u "id") r)
            (map fst doc) rs.
Proof.
  intros Hw Hnd Hn Hold.
  assert (Hnd' : NoDup (map fst doc)) by (apply (NoDup_fmap_1 split_ws); by rewrite <- list_fmap_compose).
  destruct (main_body_users doc w Hw Hnd' Hn (mkSt w tr) eq_refl) as (o & _ & rs & Hrs & Hcr).
  rewrite loader_main_state. exists rs, (dict_set_all [] (map user_entry rs)). split; [done|]. split.
  - rewrite get_user_mapping_store, Hrs, filter_matches_app; [done|done|].
    clear -Hcr. induction Hcr as [|n r ns rs Hc _ IH]; [constructor|].
    constructor; [by apply (created_for_entry n)|done].
  - eapply Forall2_impl; [apply (dict_set_all_Forall2 created_for (fun n => join [32] (split_ws n)) user_entry
                                  (fun r => default JNull (dict_get (u "id") r)) _ _ Hcr)|].
    + intros n r Hc. by apply (created_for_entry n r Hc).
    + rewrite <- (map_map split_ws (join [32])), (map_map fst split_ws).
      apply (NoDup_fmap_2_strong (join [32])); [|done]. intros a b (pa & -> & _)%list_elem_of_fmap (pb & -> & _)%list_elem_of_fmap.
      apply join_split_ws_inj.
    + intros n r [Hc ->]. split; [done|]. by destruct Hc as (f & l & k & c1 & c2 & _ & ->).
Qed.

(** C25: the two loaders agree on the users.  Run the full loader on the
    store in service, from a consistent state without users of the import
    status, on a document whose names have words and no two of them the
    same words; then the [users] rows it appends are one per name, the one
    [create_user] inserts for it, and the commitments-only loader's
    [get_user_mapping] maps each name's words, joined by single spaces, to
    the id of that row. *)
Theorem loaders_share_users (doc : Document) (w : World) (tr : list Request) :
  store_wf w -> NoDup (map (fun p => split_ws p.1) doc) -> Forall (fun p => split_ws p.1 <> []) doc ->
  Forall (fun r => matches [(u "status", u "imported_scoreboards")] r = false) (rows_of w (u "users")) ->
  exists rs um,
    rows_of (world (Loader.main (Some doc) (mkSt w tr)).2) (u "users") = rows_of w (u "users") ++ rs /\
    (get_user_mapping (Loader.main (Some doc) (mkSt w tr)).2).1 = inr um /\
    Forall2 (fun n r => created_for n r /\ dict_get (join [32] (split_ws n)) um = dict_get (u "id") r)
            (map fst doc) rs.
Proof. apply full_loader_users. Qed.

(** On the store in service the import reports every commitment it
    sends. *)
Lemma import_commitments_all (doc : Document) (um : Mapping) :
  wp (W:=World) (import_commitments doc um)
     (fun r _ => r = inr (N.of_nat (length (only_posts doc um)))).
Proof.
  eapply wp_mono; [apply wp_and; [apply (import_commitments_count 1)|apply import_commitments_posts_only]|].
  - lia.
  - intros _. apply store_accepts_commitments.
  - intros r tr [(n & -> & Hn) [_ <-]]. f_equal. lia.
Qed.

(** A name that is its own words joined by single spaces is a key of
    the rebuilt map. *)
Lemma rebuilt_keys (doc : Document) (rs : list Row) (um : Mapping) :
  Forall2 (fun n r => created_for n r /\ dict_get (join [32] (split_ws n)) um = dict_get (u "id") r)
          (map fst doc) rs ->
  Forall (fun p => join [32] (split_ws p.1) = p.1) doc ->
  Forall (fun p => is_Some (dict_get p.1 um)) doc.
Proof.
  revert rs. induction doc as [|p doc IH]; intros rs Hall Hj; [constructor|].
  inversion Hall as [|? r ? rs' [(f & l & k & c1 & c2 & _ & ->) Hg] Hall']; subst.
  apply Forall_cons in Hj as [Hp Hj]. constructor; [|by eapply IH].
  rewrite <- Hp, Hg. by eexists.
Qed.

Lemma loaders_share_users_witness :
  exists rs um,
    rows_of (world (Loader.main (Some spec_document) (mkSt empty_world [])).2) (u "users") =
      rows_of empty_world (u "users") ++ rs /\
    (get_user_mapping (Loader.main (Some spec_document) (mkSt empty_world [])).2).1 = inr um /\
    Forall2 (fun n r => created_for n r /\ dict_get (join [32] (split_ws n)) um = dict_get (u "id") r)
            (map fst spec_document) rs.
Proof.
  apply loaders_share_users; [apply empty_world_wf|by_eval|repeat constructor; by_eval|by vm_compute].
Defined.

(** The commitments-only loader after the full loader: the content of
    [commitments_after_full_load], shared with [Pipeline]. *)
Lemma only_after_full_load (doc : Document) (w : World) (tr : list Request) :
  store_wf w -> NoDup (map fst doc) -> doc <> [] ->
  Forall (fun p => split_ws p.1 <> [] /\ join [32] (split_ws p.1) = p.1) doc ->
  Forall (fun r => matches [(u "status", u "imported_scoreboards")] r = false) (rows_of w (u "users")) ->
  (main (Some doc) (Loader.main (Some doc) (mkSt w tr)).2).1 = Completed (N.of_nat (kept_count doc)).
Proof.
  intros Hw Hnd Hne Hnorm Hold.
  assert (Hnd2 : NoDup (map (fun p => split_ws p.1) doc)).
  { rewrite <- (map_map fst split_ws). apply (NoDup_fmap_2_strong split_ws); [|done].
    intros a b (pa & -> & Ha)%list_elem_of_fmap (pb & -> & Hb)%list_elem_of_fmap E.
    rewrite Forall_forall in Hnorm. rewrite <- (proj2 (Hnorm pa Ha)), <- (proj2 (Hnorm pb Hb)). by rewrite E. }
  destruct (full_loader_users doc w tr Hw Hnd2 (Forall_impl _ _ _ Hnorm (fun p H => proj1 H)) Hold)
    as (rs & um & _ & Hum & Hall).
  pose proof (rebuilt_keys doc rs um Hall (Forall_impl _ _ _ Hnorm (fun p H => proj2 H))) as Hs.
  set (s1 := (Loader.main (Some doc) (mkSt w tr)).2) in *.
  unfold main, main_body, bind at 1. destruct (get_user_mapping s1) as [r s2]. simpl in Hum. subst r.
  rewrite bool_decide_eq_false_2.
  2: { intros ->. destruct doc as [|p doc]; [done|]. apply Forall_cons in Hs as [[v Hv] _]. done. }
  destruct (import_commitments_all doc um s2) as (_ & _ & Hr).
  unfold bind. destruct (import_commitments doc um s2) as [r s3]. simpl in Hr. subst r.
  simpl. by rewrite only_posts_length.
Qed.

(** C26: the two loaders run one after the other.  After the
    full loader has run on the store in service (from a consistent state
    without imported users) on a non-empty document whose names are
    distinct and each its own words joined by single spaces, the
    commitments-only loader run on the same document completes and
    reports every commitment whose text is neither empty nor a dash: it
    finds every person again. *)
Theorem commitments_after_full_load (doc : Document) (w : World) (tr : list Request) :
  store_wf w -> NoDup (map fst doc) -> doc <> [] ->
  Forall (fun p => split_ws p.1 <> [] /\ join [32] (split_ws p.1) = p.1) doc ->
  Forall (fun r => matches [(u "status", u "imported_scoreboards")] r = false) (rows_of w (u "users")) ->
  (main (Some doc) (Loader.main (Some doc) (mkSt w tr)).2).1 = Completed (N.of_nat (kept_count doc)).
Proof. apply only_after_full_load. Qed.

Lemma commitments_after_full_load_witness :
  (main (Some spec_document) (Loader.main (Some spec_document) (mkSt empty_world [])).2).1 = Completed 2.
Proof.
  rewrite (commitments_after_full_load spec_document empty_world []);
    [reflexivity|apply empty_world_wf|by_eval|done|repeat constructor; by_eval|by vm_compute].
Defined.

End AfterLoader.

End CommitmentsOnly.
