(* ===== verification/Pipeline.v ===== *)
(** * The two stages together: files and the end-to-end run

    The extractor's [main] ([src/excel_to_json_converter.py], lines
    231-268) loads the workbook at a fixed absolute path, converts it, and
    writes the document with [json.dump] into a UTF-8 file at a fixed
    absolute path; it prints the number of users, entries and commitments.
    The loader's [main] ([src/import_scoreboards_to_supabase.py], lines
    339-383) opens ['tpm_scoreboards_data.json'], a path relative to the
    working directory of the run, in the locale's encoding, and catches
    only [FileNotFoundError] around [json.load].  This file models the
    files the two stages share as a map from absolute paths to bytes, and
    the run of the stages in sequence, through [Intermediate]'s
    [write_document] and [read_document]: the extractor then the loader
    ([pipeline]), and the extractor, the loader and the commitments-only
    loader of [src/import_commitments_only.py] (lines 104-111 open the
    same file the same way) on the store the loader left ([scripts]). *)

From Stdlib Require Import NArith String.
From stdpp Require Import base list sets.
From S2P Require Import Prelude Cell Converter Json Utf8 Intermediate Remote Store Loader CommitmentsOnly.
Import Converter Intermediate Remote Store Loader.

Open Scope N_scope.

Module Pipeline.

(** Line 235. *)
Definition input_file : ustr := u "/Users/thomasmulhern/Downloads/TPM Scoreboards (1).xlsx".

(** Line 236, as a directory and a file name. *)
Definition output_dir : ustr := u "/Users/thomasmulhern/the_progress_method/the_progress_method".
Definition data_file : ustr := u "tpm_scoreboards_data.json".
Definition output_file : ustr := output_dir ++ [47] ++ data_file.

(** The files of the machine: workbooks ([None] for a file openpyxl cannot
    load) and the bytes of the other files, by absolute path. *)
Record FS := mkFS {
  workbooks : list (ustr * option Workbook);
  files : list (ustr * Utf8.bytes);
}.

(** [open(p)] from the working directory [cwd]. *)
Definition resolve (cwd p : ustr) : ustr := if startswith p [47] then p else cwd ++ [47] ++ p.

(** ** The extractor's [main] *)

(** The counts printed at lines 252-263. *)
Definition total_entries (data : Document) : nat := sum_list_with (fun p => length p.2) data.

Definition total_commitments (data : Document) : nat :=
  sum_list_with (fun p => sum_list_with (fun q => length (commitments q.2)) p.2) data.

Inductive ExtractorRun :=
| InputMissing                                          (** lines 238-240 *)
| ConversionFailed                                      (** lines 265-268 *)
| Written (data : Document) (users entries commitments : nat). (** lines 242-263 *)

(** [main], lines 231-268: the run and the files it leaves.  [open(...,
    'w')] truncates the output file before [json.dump] writes to it; when
    the dump raises, the [except] of line 265 reports the failure and the
    file keeps what was written. *)
Definition extractor_main (fs : FS) : ExtractorRun * FS :=
  match dict_get input_file (workbooks fs) with
  | None => (InputMissing, fs)
  | Some None => (ConversionFailed, fs)
  | Some (Some wb) =>
      let data := convert_excel_to_json wb in
      let '(bs, ok) := write_document data in
      let fs' := mkFS (workbooks fs) (dict_set output_file bs (files fs)) in
      if ok then (Written data (length data) (total_entries data) (total_commitments data), fs')
      else (ConversionFailed, fs')
  end.

(** Lines 345-347 of the loader: the bytes of the file it opens, [None]
    when there is none. *)
Definition load_data (cwd : ustr) (fs : FS) : option Utf8.bytes :=
  dict_get (resolve cwd data_file) (files fs).

Section Run.
Context {W : Type} `{!Env W}.

(** A loader's run on what [json.load] gave it, for a loader whose
    [main] ends with an outcome of type [O]: an exception raised by
    [open] or [json.load] other than [FileNotFoundError] escapes [main]
    before any request; a value that is not a document is not modelled. *)
Inductive LoaderRun (O : Type) :=
| Traceback (r : ReadResult)
| Unmodelled (j : Json.Json)
| Ran (o : O) (s : St W).

Arguments Traceback {O}.
Arguments Unmodelled {O}.
Arguments Ran {O}.

(** [main]'s [try: with open(...) as f: json.load(f); len(...)] and
    [except FileNotFoundError], the same in both loaders: a missing file
    is [main None], a document is [main (Some doc)]; [len] of a number, a
    boolean or [null] raises [TypeError], which escapes [main]; the run
    on a list, a string or an object not shaped as a document is not
    modelled. *)
Definition run_main {O} (main : option Document -> St W -> O * St W) (r : ReadResult) (s : St W) :
    LoaderRun O :=
  match r with
  | FileNotFound => let '(o, s') := main None s in Ran o s'
  | ReadOk d => let '(o, s') := main (Some d) s in Ran o s'
  | NotADocument j =>
      match j with
      | Json.JSArr _ | Json.JSStr _ | Json.JSObj _ => Unmodelled j
      | _ => Traceback r
      end
  | _ => Traceback r
  end.

(** The loader of [src/import_scoreboards_to_supabase.py]. *)
Definition loader_run : ReadResult -> St W -> LoaderRun Outcome := run_main Loader.main.

(** The loader of [src/import_commitments_only.py], lines 104-111. *)
Definition only_loader_run : ReadResult -> St W -> LoaderRun CommitmentsOnly.Outcome :=
  run_main CommitmentsOnly.main.

(** The extractor, then the loader started in [cwd] in a locale whose
    encoding is [loc]. *)
Definition pipeline (loc : Locale) (cwd : ustr) (fs : FS) (s : St W) : ExtractorRun * LoaderRun Outcome :=
  let '(run, fs') := extractor_main fs in (run, loader_run (read_document loc (load_data cwd fs')) s).

(** The three scripts one after the other, from the same directory and
    locale: the extractor, the full loader, then the commitments-only
    loader on the file the extractor left and the store the full loader
    left.  [None] when the full loader's run is not modelled. *)
Definition scripts (loc : Locale) (cwd : ustr) (fs : FS) (s : St W) :
    ExtractorRun * LoaderRun Outcome * option (LoaderRun CommitmentsOnly.Outcome) :=
  let '(run, fs') := extractor_main fs in
  let r := read_document loc (load_data cwd fs') in
  let full := loader_run r s in
  (run, full, match full with
              | Ran _ s' => Some (only_loader_run r s')
              | Traceback _ => Some (only_loader_run r s)
              | Unmodelled _ => None
              end).

End Run.

Arguments Traceback {W O}.
Arguments Unmodelled {W O}.
Arguments Ran {W O}.

(** ** Properties *)

Lemma resolve_data_file (cwd : ustr) : resolve cwd data_file = output_file <-> cwd = output_dir.
Proof.
  assert (Hs : startswith data_file [47] = false) by (by vm_compute).
  unfold resolve, output_file. rewrite Hs.
  split; [|by intros ->]. intros H. by apply app_inv_tail in H.
Qed.

(** The file the loader opens after the extractor ran: the bytes the
    extractor wrote when the loader runs in the output directory,
    whatever was there before otherwise. *)
Lemma load_after_extract (fs : FS) (wb : Workbook) (cwd : ustr) :
  dict_get input_file (workbooks fs) = Some (Some wb) ->
  load_data cwd (extractor_main fs).2 =
    if bool_decide (cwd = output_dir) then Some (write_document (convert_excel_to_json wb)).1
    else load_data cwd fs.
Proof.
  intros Hwb. unfold extractor_main, load_data. rewrite Hwb.
  destruct (write_document _) as [bs ok]. simpl.
  assert (Hf : files (if ok then (Written (convert_excel_to_json wb) (length (convert_excel_to_json wb))
                   (total_entries (convert_excel_to_json wb)) (total_commitments (convert_excel_to_json wb)),
                   mkFS (workbooks fs) (dict_set output_file bs (files fs)))
                 else (ConversionFailed, mkFS (workbooks fs) (dict_set output_file bs (files fs)))).2 =
               dict_set output_file bs (files fs)) by (by destruct ok).
  rewrite Hf. case_bool_decide as Hc.
  - apply resolve_data_file in Hc. rewrite Hc. apply dict_get_set_eq.
  - apply dict_get_set_ne. intros Hr. apply Hc, resolve_data_file. by symmetry.
Qed.

(** The extractor's run on a workbook whose document the codec encodes. *)
Lemma extractor_written (fs : FS) (wb : Workbook) :
  dict_get input_file (workbooks fs) = Some (Some wb) -> doc_encodable (convert_excel_to_json wb) ->
  let data := convert_excel_to_json wb in
  (extractor_main fs).1 = Written data (length data) (total_entries data) (total_commitments data) /\
  read_document Utf8Locale (Some (write_document data).1) = ReadOk data.
Proof.
  intros Hwb He. destruct (write_read_utf8 _ (convert_doc_keys_wf wb) He) as (bs & Hw & Hr).
  split; [unfold extractor_main; by rewrite Hwb, Hw|by rewrite Hw].
Qed.

(** C34: the loader, in a UTF-8 locale, reads the document the extractor
    has just written only when it is started in the directory of the
    extractor's hard-coded output path; started anywhere else it reads
    whatever file was already there, or finds none. *)
Theorem pipeline_reads_output (fs : FS) (wb : Workbook) (cwd : ustr) :
  dict_get input_file (workbooks fs) = Some (Some wb) -> doc_encodable (convert_excel_to_json wb) ->
  read_document Utf8Locale (load_data cwd (extractor_main fs).2) =
    if bool_decide (cwd = output_dir) then ReadOk (convert_excel_to_json wb)
    else read_document Utf8Locale (load_data cwd fs).
Proof.
  intros Hwb He. rewrite (load_after_extract fs wb cwd Hwb).
  case_bool_decide; [|done]. apply (extractor_written fs wb Hwb He).
Qed.

Lemma pipeline_reads_output_witness :
  read_document Utf8Locale (load_data (u "/tmp") (extractor_main (mkFS [(input_file, Some [])] [])).2) =
    if bool_decide (u "/tmp" = output_dir) then ReadOk (convert_excel_to_json [])
    else read_document Utf8Locale (load_data (u "/tmp") (mkFS [(input_file, Some [])] [])).
Proof. apply pipeline_reads_output; [done|by_eval]. Defined.

(** What the loaders find in the output directory after the extractor
    ran on a workbook whose document the codec encodes. *)
Lemma output_read (fs : FS) (wb : Workbook) :
  dict_get input_file (workbooks fs) = Some (Some wb) -> doc_encodable (convert_excel_to_json wb) ->
  let data := convert_excel_to_json wb in
  (extractor_main fs).1 = Written data (length data) (total_entries data) (total_commitments data) /\
  read_document Utf8Locale (load_data output_dir (extractor_main fs).2) = ReadOk data.
Proof.
  intros Hwb He. destruct (extractor_written fs wb Hwb He) as [Hrun Hr]. split; [done|].
  rewrite (load_after_extract fs wb output_dir Hwb), bool_decide_eq_true_2 by done. exact Hr.
Qed.

(** A property of every sheet name holds of every name of the document. *)
Lemma convert_names (P : ustr -> Prop) (wb : Workbook) :
  Forall (fun p => P p.1) wb -> Forall (fun p => P p.1) (convert_excel_to_json wb).
Proof.
  intros Hn. apply List.Forall_forall. intros [k ud] Hin.
  assert (Hkw : k ∈ map fst wb).
  { apply (proj2 (convert_keys wb)), list_elem_of_fmap. exists (k, ud). split; [done|by apply list_elem_of_In]. }
  apply list_elem_of_fmap in Hkw as ([k' ws] & -> & Hin').
  rewrite List.Forall_forall in Hn. apply (Hn (k', ws)), list_elem_of_In, Hin'.
Qed.

Lemma run_main_ok {O} (main : option Document -> St World -> O * St World) (d : Document) (s : St World) :
  run_main main (ReadOk d) s = Ran (main (Some d) s).1 (main (Some d) s).2.
Proof. simpl. by destruct (main (Some d) s). Qed.

(** C35: end to end.  For a workbook whose sheet names all have a
    non-space character and whose document the UTF-8 codec encodes,
    running the extractor and then, from its output directory and in a
    UTF-8 locale, the loader against the store in service and a
    consistent store state: the extractor reports the document written,
    and the loader completes, with one user per sheet the extractor kept
    and, as the printed [pod_meetings] table refuses every meeting, 0
    meetings. *)
Theorem pipeline_completes (fs : FS) (wb : Workbook) (w : World) (tr : list Request) :
  dict_get input_file (workbooks fs) = Some (Some wb) ->
  Forall (fun p => split_ws p.1 <> []) wb -> doc_encodable (convert_excel_to_json wb) -> store_wf w ->
  let data := convert_excel_to_json wb in
  exists s', pipeline Utf8Locale output_dir fs (mkSt w tr) =
    (Written data (length data) (total_entries data) (total_commitments data),
     Ran (Completed (length data) 0) s').
Proof.
  intros Hwb Hn He Hw data. subst data. destruct (output_read fs wb Hwb He) as [Hrun Hr].
  unfold pipeline. destruct (extractor_main fs) as [run fs'] eqn:E. simpl in Hr, Hrun |- *.
  rewrite Hr, Hrun. unfold loader_run. rewrite run_main_ok.
  rewrite (main_live _ w tr Hw (proj1 (convert_keys wb)) (convert_names (fun n => split_ws n <> []) wb Hn)). by eexists.
Qed.

Lemma pipeline_completes_witness :
  let data := convert_excel_to_json [(u "Jane Doe", jane_sheet)] in
  exists s', pipeline Utf8Locale output_dir (mkFS [(input_file, Some [(u "Jane Doe", jane_sheet)])] [])
                (mkSt empty_world []) =
    (Written data (length data) (total_entries data) (total_commitments data),
     Ran (Completed (length data) 0) s').
Proof. apply pipeline_completes; [done|repeat constructor; by_eval|by_eval|apply empty_world_wf]. Defined.

(** C18: the three scripts in the order they are meant to be run.  For
    a workbook whose sheet names are each their own words joined by
    single spaces, whose document is not empty and is encoded by the
    UTF-8 codec, run from the extractor's output directory in a UTF-8
    locale against the store in service, from a consistent state without
    imported users: the extractor writes the document, the full loader
    completes with one user per kept sheet, and the commitments-only
    loader, reading the same file against the store the full loader
    left, finds every person again and completes, reporting every
    commitment whose text is neither empty nor a dash. *)
Theorem scripts_complete (fs : FS) (wb : Workbook) (w : World) (tr : list Request) :
  dict_get input_file (workbooks fs) = Some (Some wb) ->
  Forall (fun p => split_ws p.1 <> [] /\ join [32] (split_ws p.1) = p.1) wb ->
  convert_excel_to_json wb <> [] -> doc_encodable (convert_excel_to_json wb) -> store_wf w ->
  Forall (fun r => matches [(u "status", u "imported_scoreboards")] r = false) (rows_of w (u "users")) ->
  let data := convert_excel_to_json wb in
  exists s' s'', scripts Utf8Locale output_dir fs (mkSt w tr) =
    (Written data (length data) (total_entries data) (total_commitments data),
     Ran (Completed (length data) 0) s',
     Some (Ran (CommitmentsOnly.Completed (N.of_nat (CommitmentsOnly.kept_count data))) s'')).
Proof.
  intros Hwb Hn Hne He Hw Hold data. subst data. destruct (output_read fs wb Hwb He) as [Hrun Hr].
  pose proof (convert_names (fun n => split_ws n <> [] /\ join [32] (split_ws n) = n) wb Hn) as Hn'. pose proof (proj1 (convert_keys wb)) as Hnd.
  unfold scripts. destruct (extractor_main fs) as [run fs'] eqn:E. simpl in Hr, Hrun |- *.
  rewrite Hr, Hrun. unfold loader_run, only_loader_run. rewrite run_main_ok.
  rewrite (main_live _ w tr Hw Hnd (Forall_impl _ _ _ Hn' (fun p H => proj1 H))).
  rewrite run_main_ok, (CommitmentsOnly.only_after_full_load _ w tr Hw Hnd Hne Hn' Hold). by do 2 eexists.
Qed.

Lemma scripts_complete_witness :
  let data := convert_excel_to_json [(u "Jane Doe", jane_sheet)] in
  exists s' s'', scripts Utf8Locale output_dir (mkFS [(input_file, Some [(u "Jane Doe", jane_sheet)])] [])
                   (mkSt empty_world []) =
    (Written data (length data) (total_entries data) (total_commitments data),
     Ran (Completed (length data) 0) s',
     Some (Ran (CommitmentsOnly.Completed (N.of_nat (CommitmentsOnly.kept_count data))) s'')).
Proof.
  apply scripts_complete; [done|repeat constructor; by_eval|by_eval|by_eval|apply empty_world_wf|by vm_compute].
Defined.

End Pipeline.
